(** * acme-tools: DNS-01 challenge orchestration, provider adapter and helpers

    A shallow embedding of the Python package [acme_tools]:
    - [acme_tools/errors.py], [acme_tools/types.py]: the error taxonomy and
      the record model;
    - [acme_tools/utils.py]: [get_domain];
    - [acme_tools/adapters/providers/digitalocean/provider.py]: the HTTP
      provider adapter ([raise_for_status], [_check_record],
      [create_record], [delete_record]);
    - [acme_tools/challenge.py]: [DNS01Challenge.__call__] and
      [DNS01Challenge.temporary_txt_records];
    - [acme_tools/api.py]: [request_certificate].

    Python exceptions are values of [exn] carried by [result]; calls to the
    outside world (provider, resolver, clock, ACME client) thread an explicit
    state.  Times are whole numbers of seconds, held in the floats the clock
    returns: a time is a [Z], and the sum of two times is the sum of the two
    floats, [float_add]. *)

From Stdlib Require Import List String Ascii ZArith Bool Lia Arith Permutation.
Import ListNotations.

Local Open Scope string_scope.
Local Open Scope Z_scope.

(* ================================================================== *)
(** ** Exceptions ([acme_tools/errors.py] and the built-in ones used)  *)
(* ================================================================== *)

Inductive exn : Type :=
  (* InvalidOptionsError family *)
  | InvalidDomainName
  | InvalidRecordType
  (* DNSProviderError family *)
  | ResourceNotFoundError
  | UnauthorizedError
  | RateLimitExceededError (minutes_until_reset : Z)
  | ServerError (message : option string)
  | InvalidRequestError (message : option string)
  | RecordAlreadyExistsError
  (* httpx.HTTPStatusError, raised by Response.raise_for_status() *)
  | HTTPStatusError (status : Z)
  (* built-in exceptions *)
  | TypeError
  | KeyError (key : string)
  | ValueError
  | IndexError
  | RuntimeError
  | TimeoutError
  (* an exception raised by a collaborator (ACME client, resolver, ...) *)
  | CollaboratorError (what : string).

Inductive result (A : Type) : Type :=
  | Ok (a : A)
  | Raise (e : exn).
Arguments Ok {A} a.
Arguments Raise {A} e.

Definition bind {A B} (r : result A) (k : A -> result B) : result B :=
  match r with
  | Ok a => k a
  | Raise e => Raise e
  end.

Notation "x <- r ;; k" := (bind r (fun x => k))
  (at level 61, r at next level, right associativity).

(* ================================================================== *)
(** ** Python string operations used by the package                    *)
(* ================================================================== *)

Module PyStr.

Definition dot : ascii := "."%char.

(** [c in s] for a one-character string [c]. *)
Fixpoint contains (c : ascii) (s : string) : bool :=
  match s with
  | EmptyString => false
  | String a s' => if Ascii.eqb a c then true else contains c s'
  end.

(** [s.split(c)] for a one-character separator: every occurrence splits,
    empty pieces are kept, and the empty string gives [[""]]. *)
Fixpoint split (c : ascii) (s : string) : list string :=
  match s with
  | EmptyString => [EmptyString]
  | String a s' =>
      if Ascii.eqb a c then EmptyString :: split c s'
      else match split c s' with
           | [] => [String a EmptyString]
           | piece :: rest => String a piece :: rest
           end
  end.

(** [s.split(sep)[0]]: what precedes the first occurrence of [sep]
    (all of [s] when [sep] does not occur). *)
Fixpoint split_head (sep s : string) : string :=
  match s with
  | EmptyString => EmptyString
  | String a s' =>
      if String.prefix sep s then EmptyString
      else String a (split_head sep s')
  end.

(** [l[-n:]]. *)
Definition last_n {A} (n : nat) (l : list A) : list A :=
  skipn (List.length l - n)%nat l.

(** [sep.join(l)]. *)
Definition join (sep : string) (l : list string) : string :=
  String.concat sep l.

(** [s[:n]] and [s[n:]]. *)
Fixpoint take (n : nat) (s : string) : string :=
  match n, s with
  | S n', String a s' => String a (take n' s')
  | _, _ => EmptyString
  end.

Fixpoint drop (n : nat) (s : string) : string :=
  match n, s with
  | S n', String _ s' => drop n' s'
  | _, _ => s
  end.

(** [x in l] for a list of strings: some element is equal to [x]. *)
Definition mem (x : string) (l : list string) : bool :=
  existsb (String.eqb x) l.

End PyStr.

(* ================================================================== *)
(** ** [acme_tools/types.py]                                           *)
(* ================================================================== *)

Inductive RecordType : Type := A | CNAME | NS | TXT | SOA.

Definition RecordType_eqb (a b : RecordType) : bool :=
  match a, b with
  | A, A | CNAME, CNAME | NS, NS | TXT, TXT | SOA, SOA => true
  | _, _ => false
  end.

Definition RecordType_value (t : RecordType) : string :=
  match t with
  | A => "A" | CNAME => "CNAME" | NS => "NS" | TXT => "TXT" | SOA => "SOA"
  end.

(** [RecordType(s)]: the member whose value is [s], else [ValueError]. *)
Definition RecordType_of (s : string) : result RecordType :=
  if String.eqb s "A" then Ok A
  else if String.eqb s "CNAME" then Ok CNAME
  else if String.eqb s "NS" then Ok NS
  else if String.eqb s "TXT" then Ok TXT
  else if String.eqb s "SOA" then Ok SOA
  else Raise ValueError.

(** [Record], and its subclass [DORecord] which adds [resource_id]: a plain
    [Record] is the case [resource_id = None]. *)
Record DORecord : Type := mkRecord {
  r_domain : string;
  r_type : RecordType;
  r_fqdn : string;
  r_name : string;
  r_data : string;
  r_ttl : option Z;
  resource_id : option string
}.

Record RecordOptions : Type := mkOptions {
  fqdn : string;
  record_type : RecordType;
  record_value : string;
  record_ttl : Z;
  append : bool;
  propagation_timeout : Z;
  query_interval : Z
}.

(* ================================================================== *)
(** ** [acme_tools/utils.py]: get_domain                               *)
(* ================================================================== *)

Definition get_domain (fqdn : string) : result string :=
  match fqdn with
  | EmptyString => Raise InvalidDomainName
  | _ =>
      if negb (PyStr.contains PyStr.dot fqdn) then Raise InvalidDomainName
      else Ok (PyStr.join "." (PyStr.last_n 2 (PyStr.split PyStr.dot fqdn)))
  end.

(* ================================================================== *)
(** ** Python floats that hold whole numbers                           *)
(* ================================================================== *)

(** The clock is a [Callable[[], float]] ([time.time] by default).  A whole
    number up to 2^53 in size is a float; a larger one is a float when it
    fits in 53 significant bits.  [round53 z] is the float nearest to [z],
    the one with the even significand when there are two: what Python gives
    when it converts the [int] [z] to a float, and what its float
    arithmetic gives for an exact result [z].  (Numbers beyond the range of
    the floats, about 1.8e308, are left out.)  A time of the model need not
    be a float: what is proved of every whole number holds of those that
    are. *)
Definition round53 (z : Z) : Z :=
  let a := Z.abs z in
  let e := Z.log2 a - 52 in
  if e <=? 0 then z
  else
    let q := Z.shiftr a e in
    let rest := a - Z.shiftl q e in
    let half := Z.shiftl 1 (e - 1) in
    let q' := if (half <? rest) || ((half =? rest) && Z.odd q) then q + 1
              else q in
    Z.sgn z * Z.shiftl q' e.

(** [x + y] when one of the two is a float and both hold whole numbers: an
    [int] operand is converted to a float ([120] exactly), a float operand
    is itself, and the exact sum is rounded. *)
Definition float_add (x y : Z) : Z := round53 (round53 x + round53 y).

(* ================================================================== *)
(** ** A state-and-exception monad for code that talks to the outside  *)
(* ================================================================== *)

(** How a piece of stateful code ends: it returns, it raises, or the model
    ran out of fuel while the code was still looping ([Running]). *)
Inductive outcome (T : Type) : Type :=
  | Returned (a : T)
  | Raised (e : exn)
  | Running.
Arguments Returned {T} a.
Arguments Raised {T} e.
Arguments Running {T}.

Definition M (S T : Type) : Type := S -> outcome T * S.

Definition ret {S T} (a : T) : M S T := fun s => (Returned a, s).

Definition raise {S T} (e : exn) : M S T := fun s => (Raised e, s).

Definition mbind {S T U} (m : M S T) (k : T -> M S U) : M S U :=
  fun s =>
    match m s with
    | (Returned a, s') => k a s'
    | (Raised e, s') => (Raised e, s')
    | (Running, s') => (Running, s')
    end.

(** A pure computation that may raise. *)
Definition lift {S T} (r : result T) : M S T :=
  match r with
  | Ok a => ret a
  | Raise e => raise e
  end.

Declare Scope monad_scope.
Delimit Scope monad_scope with monad.
Notation "'let*' x := m 'in' k" := (mbind m (fun x => k))
  (at level 10, x name, m at level 100, k at level 200) : monad_scope.
Notation "m >> k" := (mbind m (fun _ => k))
  (at level 65, right associativity) : monad_scope.
Local Open Scope monad_scope.

(* ================================================================== *)
(** ** The HTTP client of the provider adapter                         *)
(* ================================================================== *)

Module Http.

(** One entry of a JSON list of records, or the JSON object sent back by a
    creation: a dict whose keys may be absent. *)
Record Item : Type := mkItem {
  i_type : option string;
  i_name : option string;
  i_data : option string;
  i_ttl : option Z;
  i_id : option string
}.

Definition empty_item : Item := mkItem None None None None None.

(** The JSON object of a response body. *)
Record Body : Type := mkBody {
  message : option string;
  domain_records : option (list Item);
  domain_record : option Item
}.

Record Response : Type := mkResponse {
  status_code : Z;
  headers : list (string * string);
  body : option Body          (* [None]: the body is not JSON *)
}.

(** The JSON document of a creation request. *)
Record Payload : Type := mkPayload {
  p_type : RecordType;
  p_name : string;
  p_data : string;
  p_ttl : Z
}.

Inductive Request : Type :=
  | GET (path : string) (params : list (string * string))
  | POST (path : string) (json : Payload)
  | DELETE (path : string).

(** The client's state is the list of the requests it has sent, oldest
    first. *)
Definition Client : Type := list Request.

(** [response.json()] *)
Definition json (response : Response) : result Body :=
  match body response with
  | Some b => Ok b
  | None => Raise ValueError
  end.

(** [response.headers.get(key)]: a string, or [None]. *)
Fixpoint headers_get (key : string) (hs : list (string * string))
  : option string :=
  match hs with
  | [] => None
  | (k, v) :: hs' => if String.eqb k key then Some v else headers_get key hs'
  end.

(** httpx's [Response.raise_for_status()], which is not part of the package:
    it raises [HTTPStatusError] for every status outside 2xx. *)
Definition httpx_raise_for_status (response : Response) : result unit :=
  let status := status_code response in
  if (200 <=? status) && (status <? 300) then Ok tt
  else Raise (HTTPStatusError status).

End Http.

(** Python values met in [raise_for_status]: the header is a string or
    [None], the clock reading is a number. *)
Inductive pyval : Type :=
  | PyNone
  | PyStr (s : string)
  | PyNum (z : Z).

(** [a - b]: defined on numbers only. *)
Definition py_sub (a b : pyval) : result Z :=
  match a, b with
  | PyNum x, PyNum y => Ok (x - y)
  | _, _ => Raise TypeError
  end.

(* ================================================================== *)
(** ** [adapters/providers/digitalocean/provider.py]                   *)
(* ================================================================== *)

Module DigitalOcean.
Import Http.

(** [raise_for_status(response)]; [now] is the reading of [time.time()]. *)
Definition raise_for_status (now : Z) (response : Response) : result unit :=
  let status := status_code response in
  if status =? 404 then Raise ResourceNotFoundError
  else if status =? 401 then Raise UnauthorizedError
  else if status =? 429 then
    let reset_time :=
      match headers_get "ratelimit-reset" (headers response) with
      | Some s => PyStr s
      | None => PyNone
      end in
    seconds <- py_sub reset_time (PyNum now) ;;
    Raise (RateLimitExceededError (Z.quot seconds 60))
  else if status =? 500 then
    b <- json response ;; Raise (ServerError (message b))
  else if status =? 422 then
    b <- json response ;; Raise (InvalidRequestError (message b))
  else httpx_raise_for_status response.

(** [values[key]] *)
Definition getitem {T} (key : string) (v : option T) : result T :=
  match v with
  | Some x => Ok x
  | None => Raise (KeyError key)
  end.

(** The module-level [create_record(fqdn, values)]. *)
Definition create_record (fqdn : string) (values : Item) : result DORecord :=
  type_name <- getitem "type" (i_type values) ;;
  type <- RecordType_of type_name ;;
  domain <- get_domain fqdn ;;
  name <- getitem "name" (i_name values) ;;
  data <- getitem "data" (i_data values) ;;
  id <- getitem "id" (i_id values) ;;
  Ok (mkRecord domain type fqdn name data (i_ttl values) (Some id)).

(** [[create_record(fqdn, item) for item in items]] *)
Fixpoint create_records (fqdn : string) (items : list Item)
  : result (list DORecord) :=
  match items with
  | [] => Ok []
  | item :: items' =>
      r <- create_record fqdn item ;;
      rs <- create_records fqdn items' ;;
      Ok (r :: rs)
  end.

Section Provider.

(** The remote API: its answer to a request, given the requests sent
    before it; [Raise] is a transport failure. *)
Variable api : list Request -> Request -> result Response.

(** [time.time()] when the answer to the last request of the log is
    examined. *)
Variable time_time : list Request -> Z.

(** [self.client.get/post/delete] *)
Definition send (q : Request) : M Client Response :=
  fun log =>
    match api log q with
    | Ok response => (Returned response, (log ++ [q])%list)
    | Raise e => (Raised e, (log ++ [q])%list)
    end.

Definition check_status (response : Response) : M Client unit :=
  fun log => lift (raise_for_status (time_time log) response) log.

Definition _check_record_type (record_type : RecordType)
  : result RecordType :=
  if RecordType_eqb record_type SOA then Raise InvalidRecordType
  else Ok record_type.

Definition _get_records (fqdn : string) (record_type : RecordType)
  : M Client (list DORecord) :=
  let* record_type := lift (_check_record_type record_type) in
  let* domain := lift (get_domain fqdn) in
  let* response :=
    send (GET ("/" ++ domain ++ "/records/")
              [("name", fqdn); ("type", RecordType_value record_type)]) in
  check_status response >>
  let* b := lift (json response) in
  let fqdn_records :=
    match domain_records b with Some l => l | None => [] end in
  lift (create_records domain fqdn_records).

(** The loop of [_check_record]: its body leaves the function on the
    first record it visits. *)
Definition check_loop (existing_records : list DORecord)
    (value : string) (ttl : Z) : result (option DORecord) :=
  match existing_records with
  | [] => Ok None
  | existing_record :: _ =>
      if String.eqb (r_data existing_record) value
         && match r_ttl existing_record with
            | Some t => t =? ttl
            | None => false
            end
      then Ok (nth_error existing_records 0)
      else Raise RecordAlreadyExistsError
  end.

Definition _check_record (fqdn : string) (record_type : RecordType)
    (value : string) (ttl : Z) : M Client (option DORecord) :=
  let* record_type := lift (_check_record_type record_type) in
  let* existing_records := _get_records fqdn record_type in
  lift (check_loop existing_records value ttl).

(** What follows the comment [# Need to create record]. *)
Definition create_new (record_type : RecordType) (options : RecordOptions)
  : M Client DORecord :=
  let* domain := lift (get_domain (fqdn options)) in
  let name :=
    if String.eqb domain (fqdn options) then "@"
    else PyStr.split_head ("." ++ domain) (fqdn options) in
  let* response :=
    send (POST ("/" ++ domain ++ "/records")
               (mkPayload record_type name (record_value options)
                          (record_ttl options))) in
  check_status response >>
  let* b := lift (json response) in
  lift (create_record (fqdn options)
          match domain_record b with Some i => i | None => empty_item end).

(** [DigitalOceanProvider.create_record(options)] *)
Definition provider_create_record (options : RecordOptions)
  : M Client DORecord :=
  let* checked_type := lift (_check_record_type (record_type options)) in
  fun log =>
    match _check_record (fqdn options) (record_type options)
            (record_value options) (record_ttl options) log with
    | (Raised RecordAlreadyExistsError, log') =>
        if negb (append options)
        then (Raised RecordAlreadyExistsError, log')
        else create_new checked_type options log'
    | (Raised e, log') => (Raised e, log')
    | (Running, log') => (Running, log')
    | (Returned (Some existing_record), log') =>
        (Returned existing_record, log')
    | (Returned None, log') => create_new checked_type options log'
    end.

(** [DigitalOceanProvider.delete_record(record)] *)
Definition provider_delete_record (record : DORecord) : M Client unit :=
  match resource_id record with
  | None => raise TypeError
  | Some id =>
      let* response :=
        send (DELETE ("/" ++ r_domain record ++ "/records/" ++ id)) in
      check_status response
  end.

End Provider.

End DigitalOcean.

(* ================================================================== *)
(** ** [protocols/provider.py], [protocols/resolver.py] and the other  *)
(**    collaborators of the orchestrator                               *)
(* ================================================================== *)

(** The [Provider] protocol: any state machine with these two operations. *)
Record Provider (P : Type) : Type := mkProvider {
  create_record : RecordOptions -> M P DORecord;
  delete_record : DORecord -> M P unit
}.
Arguments create_record {P} _ _ _.
Arguments delete_record {P} _ _ _.

(** The DigitalOcean adapter implements the protocol; its state is the log
    of its HTTP client. *)
Definition DigitalOceanProvider
    (api : list Http.Request -> Http.Request -> result Http.Response)
    (time_time : list Http.Request -> Z) : Provider Http.Client :=
  mkProvider Http.Client
    (DigitalOcean.provider_create_record api time_time)
    (DigitalOcean.provider_delete_record api time_time).

Module Acme.

Inductive ChallType : Type := DNS01 | HTTP01 | TLSALPN01.

(** A challenge of an authorization, with what
    [response_and_validation(account_key)] computes for it. *)
Record ChallengeBody : Type := mkChallenge {
  chall : ChallType;
  response : string;
  validation : string
}.

Record Order : Type := mkOrder {
  authorizations : list (list ChallengeBody)
}.

Definition is_dns01 (item : ChallengeBody) : bool :=
  match chall item with
  | DNS01 => true
  | _ => false
  end.

End Acme.

(** Everything the run observes from outside, call by call: the [k]-th
    reading of the injected clock, the answer of the resolver to its [k]-th
    query, and the answers of the ACME client. *)
Record Env : Type := mkEnv {
  clock_reading : nat -> Z;
  resolver_answer : nat -> string -> RecordType -> result (list string);
  acme_new_order : list string -> result Acme.Order;
  acme_answer_challenge : nat -> Acme.ChallengeBody -> string -> result unit;
  acme_poll_and_finalize : Acme.Order -> option Z -> result string
}.

(** What a run does to the outside, in the order it does it. *)
Inductive Event : Type :=
  | CreateRecord (options : RecordOptions) (r : outcome DORecord)
  | DeleteRecord (record : DORecord) (r : outcome unit)
  | Clock (reading : Z)
  | Resolve (name : string) (t : RecordType) (r : result (list string))
  | Sleep (seconds : Z)
  | NewOrder (domains : list string)
  | AnswerChallenge (item : Acme.ChallengeBody) (answer : string)
  | PollAndFinalize (deadline : option Z).

Record World (P : Type) : Type := mkWorld {
  provider_state : P;
  clock_calls : nat;
  resolver_calls : nat;
  answer_calls : nat;
  trace : list Event
}.
Arguments mkWorld {P} _ _ _ _ _.
Arguments provider_state {P} _.
Arguments clock_calls {P} _.
Arguments resolver_calls {P} _.
Arguments answer_calls {P} _.
Arguments trace {P} _.

Definition init_world {P} (p : P) : World P := mkWorld p 0 0 0 [].

(** The records returned by successful [create_record] calls, and the
    records [delete_record] was called on, in the order of the calls. *)
Fixpoint created (tr : list Event) : list DORecord :=
  match tr with
  | [] => []
  | CreateRecord _ (Returned r) :: tr' => r :: created tr'
  | _ :: tr' => created tr'
  end.

Fixpoint deleted (tr : list Event) : list DORecord :=
  match tr with
  | [] => []
  | DeleteRecord r _ :: tr' => r :: deleted tr'
  | _ :: tr' => deleted tr'
  end.

(** The deletions that raised. *)
Fixpoint failed_deletions (tr : list Event) : list (DORecord * exn) :=
  match tr with
  | [] => []
  | DeleteRecord r (Raised e) :: tr' => (r, e) :: failed_deletions tr'
  | _ :: tr' => failed_deletions tr'
  end.

(** The readings of the clock, in order. *)
Fixpoint readings (tr : list Event) : list Z :=
  match tr with
  | [] => []
  | Clock z :: tr' => z :: readings tr'
  | _ :: tr' => readings tr'
  end.

Fixpoint finalize_deadlines (tr : list Event) : list (option Z) :=
  match tr with
  | [] => []
  | PollAndFinalize d :: tr' => d :: finalize_deadlines tr'
  | _ :: tr' => finalize_deadlines tr'
  end.

Section Collaborators.

Context {P : Type}.
Variable provider : Provider P.
Variable env : Env.

Definition log (e : Event) (w : World P) : World P :=
  mkWorld (provider_state w) (clock_calls w) (resolver_calls w)
          (answer_calls w) (trace w ++ [e])%list.

(** [self.clock()] *)
Definition clock : M (World P) Z :=
  fun w =>
    let now := clock_reading env (clock_calls w) in
    (Returned now,
     log (Clock now)
         (mkWorld (provider_state w) (S (clock_calls w)) (resolver_calls w)
                  (answer_calls w) (trace w))).

(** [time.sleep(seconds)]: its only trace is what the clock shows next. *)
Definition sleep (seconds : Z) : M (World P) unit :=
  fun w => (Returned tt, log (Sleep seconds) w).

(** [self.resolver.resolve(fqdn, record_type=...)] *)
Definition resolve (name : string) (t : RecordType)
  : M (World P) (list string) :=
  fun w =>
    let r := resolver_answer env (resolver_calls w) name t in
    lift r
      (log (Resolve name t r)
         (mkWorld (provider_state w) (clock_calls w) (S (resolver_calls w))
                  (answer_calls w) (trace w))).

(** [self.provider.create_record(options)] *)
Definition provider_create (options : RecordOptions) : M (World P) DORecord :=
  fun w =>
    let (r, p') := create_record provider options (provider_state w) in
    (r, log (CreateRecord options r)
          (mkWorld p' (clock_calls w) (resolver_calls w) (answer_calls w)
                   (trace w))).

(** [self.provider.delete_record(record)] *)
Definition provider_delete (record : DORecord) : M (World P) unit :=
  fun w =>
    let (r, p') := delete_record provider record (provider_state w) in
    (r, log (DeleteRecord record r)
          (mkWorld p' (clock_calls w) (resolver_calls w) (answer_calls w)
                   (trace w))).

(** [self.manager.acme.new_order(self.csr)] *)
Definition new_order (domains : list string) : M (World P) Acme.Order :=
  fun w => lift (acme_new_order env domains) (log (NewOrder domains) w).

(** [self.manager.acme.answer_challenge(challenge, response)] *)
Definition answer_challenge (item : Acme.ChallengeBody) (answer : string)
  : M (World P) unit :=
  fun w =>
    lift (acme_answer_challenge env (answer_calls w) item answer)
      (log (AnswerChallenge item answer)
         (mkWorld (provider_state w) (clock_calls w) (resolver_calls w)
                  (S (answer_calls w)) (trace w))).

(** [self.manager.acme.poll_and_finalize(order, deadline=deadline)] *)
Definition poll_and_finalize (order : Acme.Order) (deadline : option Z)
  : M (World P) string :=
  fun w =>
    lift (acme_poll_and_finalize env order deadline)
      (log (PollAndFinalize deadline) w).

End Collaborators.

(* ================================================================== *)
(** ** [contextlib.ExitStack], as [temporary_txt_records] uses it      *)
(* ================================================================== *)

Module ExitStack.

(** The callbacks are all of the form [provider.delete_record(record)]:
    the stack is the list of their records, the most recent first. *)
Definition t : Type := list DORecord.

Definition empty : t := [].

(** [stack.callback(self.provider.delete_record, record)] *)
Definition callback (record : DORecord) (stack : t) : t := record :: stack.

Section Exit.

Context {P : Type}.
Variable provider : Provider P.

(** The loop of [__exit__]: callbacks are popped and called, last
    registered first; one that raises does not stop the loop, its
    exception becomes the pending one; a callback returns [None], so none
    suppresses an exception. *)
Fixpoint run_callbacks (stack : t) (pending : option exn)
  : M (World P) (option exn) :=
  match stack with
  | [] => ret pending
  | record :: stack' =>
      fun w =>
        match provider_delete provider record w with
        | (Returned _, w') => run_callbacks stack' pending w'
        | (Raised new_exc, w') => run_callbacks stack' (Some new_exc) w'
        | (Running, w') => (Running, w')
        end
  end.

(** [stack.__exit__(...)]: raises the pending exception if a callback
    raised, and otherwise returns a false value. *)
Definition __exit__ (stack : t) : M (World P) unit :=
  let* pending := run_callbacks stack None in
  match pending with
  | Some exc => raise exc
  | None => ret tt
  end.

End Exit.

End ExitStack.

(* ================================================================== *)
(** ** [acme_tools/challenge.py]                                       *)
(* ================================================================== *)

Definition DNS_LABEL : string := "_acme-challenge".

(** [domain[2:] if domain[:2] == "*." else domain] *)
Definition strip_wildcard (domain : string) : string :=
  if String.eqb (PyStr.take 2 domain) "*." then PyStr.drop 2 domain
  else domain.

(** The loop of [__call__] that pairs each domain with its token:
    [_verification_tokens[i]] raises [IndexError] when there are fewer
    tokens than domains. *)
Fixpoint verification_tokens (i : nat) (domains : list string)
    (_verification_tokens : list string) : result (list (string * string)) :=
  match domains with
  | [] => Ok []
  | domain :: domains' =>
      let domain := strip_wildcard domain in
      match nth_error _verification_tokens i with
      | None => Raise IndexError
      | Some token =>
          rest <- verification_tokens (S i) domains' _verification_tokens ;;
          Ok ((DNS_LABEL ++ "." ++ domain, token) :: rest)
      end
  end.

(** The options [temporary_txt_records] creates each record with. *)
Definition txt_options (name value : string) : RecordOptions :=
  mkOptions name TXT value 30 true 120 2.

(** The local variables of [temporary_txt_records]. *)
Record Locals (P : Type) : Type := mkLocals {
  stack : ExitStack.t;
  dns_records : list DORecord;
  world : World P
}.
Arguments mkLocals {P} _ _ _.
Arguments stack {P} _.
Arguments dns_records {P} _.
Arguments world {P} _.

Section DNS01Challenge.

Context {P : Type}.
Variable provider : Provider P.
Variable env : Env.

(** What [request_certificate] does before it reads the clock.
    [AccountManager.import_from_file(account_file)] loads the account.
    [DNS01Challenge(domains, ...)] builds the challenge: its arguments (the
    default provider and resolver when none is given), then
    [__post_init__], which generates the private key and makes the CSR
    ([make_csr] refuses an empty list of domains); what it gives here is the
    private key of the challenge.  Either may raise. *)
Variable import_from_file : result unit.
Variable new_challenge : list string -> result string.

(** [datetime.fromtimestamp(t)]: the time as a [datetime], at which the
    ACME client stops polling; it raises for a [t] out of its range. *)
Variable fromtimestamp : Z -> result Z.

(** A call to the outside, made from inside [temporary_txt_records]. *)
Definition outside {T} (m : M (World P) T) : M (Locals P) T :=
  fun l =>
    let (r, w') := m (world l) in
    (r, mkLocals (stack l) (dns_records l) w').

Definition stack_callback (record : DORecord) : M (Locals P) unit :=
  fun l =>
    (Returned tt,
     mkLocals (ExitStack.callback record (stack l)) (dns_records l) (world l)).

Definition dns_records_append (record : DORecord) : M (Locals P) unit :=
  fun l =>
    (Returned tt,
     mkLocals (stack l) (dns_records l ++ [record])%list (world l)).

(** [for fqdn, value in records: ...] *)
Fixpoint create_all (records : list (string * string)) : M (Locals P) unit :=
  match records with
  | [] => ret tt
  | (name, value) :: records' =>
      let* record :=
        outside (provider_create provider (txt_options name value)) in
      stack_callback record >>
      dns_records_append record >>
      create_all records'
  end.

(** [while self.clock() < deadline: ...] for one record; the result is
    the flag [propagated].  Each unit of [fuel] pays for one iteration. *)
Fixpoint wait_propagation (fuel : nat) (deadline : Z) (record : DORecord)
  : M (World P) bool :=
  match fuel with
  | O => fun w => (Running, w)
  | S fuel' =>
      let* now := clock env in
      if now <? deadline then
        let* values := resolve env (r_fqdn record) (r_type record) in
        if PyStr.mem (r_data record) values then ret true
        else sleep 2 >> wait_propagation fuel' deadline record
      else ret false
  end.

(** [for record in dns_records: ...] *)
Fixpoint wait_all (fuel : nat) (deadline : Z) (records : list DORecord)
  : M (World P) unit :=
  match records with
  | [] => ret tt
  | record :: records' =>
      let* propagated := wait_propagation fuel deadline record in
      if negb propagated then raise TimeoutError
      else wait_all fuel deadline records'
  end.

(** The [try] block of [temporary_txt_records], up to and including the
    [yield]: [body] is the body of the [with] statement. *)
Definition try_block {T} (fuel : nat) (records : list (string * string))
    (body : list DORecord -> M (World P) T) : M (Locals P) T :=
  create_all records >>
  let* now := outside (clock env) in
  let deadline := float_add now 120 in
  (fun l => outside (wait_all fuel deadline (dns_records l)) l) >>
  (fun l => outside (body (dns_records l)) l).

(** [with self.temporary_txt_records(records): body].  The [finally]
    clause runs however the [try] block ended; an exception raised by
    [stack.__exit__] replaces what the block was returning or raising. *)
Definition temporary_txt_records {T} (fuel : nat)
    (records : list (string * string))
    (body : list DORecord -> M (World P) T) : M (World P) T :=
  fun w =>
    let (primary, l) :=
      try_block fuel records body (mkLocals ExitStack.empty [] w) in
    match primary with
    | Running => (Running, world l)
    | _ =>
        match ExitStack.__exit__ provider (stack l) (world l) with
        | (Returned _, w') => (primary, w')
        | (Raised exc, w') => (Raised exc, w')
        | (Running, w') => (Running, w')
        end
    end.

(** [for index, challenge in enumerate(_challenges): answer_challenge(...)] *)
Fixpoint answer_all (index : nat) (_challenges : list Acme.ChallengeBody)
    (_responses : list string) : M (World P) unit :=
  match _challenges with
  | [] => ret tt
  | challenge :: rest =>
      match nth_error _responses index with
      | None => raise IndexError
      | Some answer =>
          answer_challenge env challenge answer >>
          answer_all (S index) rest _responses
      end
  end.

(** [DNS01Challenge.__call__(deadline)]; the result is the certificate
    chain of the finalized order. *)
Definition __call__ (fuel : nat) (domains : list string)
    (deadline : option Z) : M (World P) string :=
  let* order := new_order env domains in
  let _challenges :=
    flat_map (filter Acme.is_dns01) (Acme.authorizations order) in
  match _challenges with
  | [] => raise RuntimeError
  | _ =>
      let _responses := map Acme.response _challenges in
      let _verification_tokens := map Acme.validation _challenges in
      let* tokens :=
        lift (verification_tokens 0 domains _verification_tokens) in
      temporary_txt_records fuel tokens
        (fun _ =>
           answer_all 0 _challenges _responses >>
           poll_and_finalize env order deadline)
  end.

(** [request_certificate(domains, account_file, ..., clock, timeout)] of
    [acme_tools/api.py]. *)
Definition request_certificate (fuel : nat) (domains : list string)
    (timeout : Z) : M (World P) (string * string) :=
  let* manager := lift import_from_file in
  let* private_key := lift (new_challenge domains) in
  let* now := clock env in
  let* deadline := lift (fromtimestamp (float_add now timeout)) in
  let* fullchain_pem := __call__ fuel domains (Some deadline) in
  ret (private_key, fullchain_pem).

End DNS01Challenge.

(* ================================================================== *)
(** ** Vocabulary of the statements                                    *)
(* ================================================================== *)

Module Spec.
Import Http.

(** The request [_get_records] sends. *)
Definition list_request (domain name : string) (t : RecordType) : Request :=
  GET ("/" ++ domain ++ "/records/")
      [("name", name); ("type", RecordType_value t)].

(** The request [create_record] sends when it creates. *)
Definition create_request (domain : string) (options : RecordOptions)
  : Request :=
  POST ("/" ++ domain ++ "/records")
       (mkPayload (record_type options)
          (if String.eqb domain (fqdn options) then "@"
           else PyStr.split_head ("." ++ domain) (fqdn options))
          (record_value options) (record_ttl options)).

(** An existing record holds exactly the value and ttl asked for. *)
Definition same_value (options : RecordOptions) (r : DORecord) : Prop :=
  r_data r = record_value options /\ r_ttl r = Some (record_ttl options).

Definition emits {P} (w w' : World P) (tr : list Event) : Prop :=
  trace w' = (trace w ++ tr)%list.

(** A computation that only adds events, all of them of one kind. *)
Definition only {P T} (p : Event -> Prop) (m : M (World P) T) : Prop :=
  forall w r w', m w = (r, w') -> exists tr, emits w w' tr /\ Forall p tr.

Definition is_create (e : Event) : Prop :=
  match e with
  | CreateRecord _ _ => True
  | _ => False
  end.

Definition is_delete (e : Event) : Prop :=
  match e with
  | DeleteRecord _ _ => True
  | _ => False
  end.

Definition not_provider (e : Event) : Prop :=
  match e with
  | CreateRecord _ _ | DeleteRecord _ _ => False
  | _ => True
  end.

(** A finalize event carries the deadline [d]. *)
Definition carries (d : option Z) (e : Event) : Prop :=
  match e with
  | PollAndFinalize d' => d' = d
  | _ => True
  end.

(** An event of the run that is not a provider call, and that carries the
    deadline [d] if it is a finalize call. *)
Definition calm (d : option Z) (e : Event) : Prop :=
  not_provider e /\ carries d e.

(** The event with the deadline of a finalize call forgotten. *)
Definition forget_deadline (e : Event) : Event :=
  match e with
  | PollAndFinalize _ => PollAndFinalize None
  | _ => e
  end.

(** Two worlds that differ at most in the deadlines their traces record. *)
Definition same_but_deadlines {P} (w1 w2 : World P) : Prop :=
  provider_state w1 = provider_state w2
  /\ clock_calls w1 = clock_calls w2
  /\ resolver_calls w1 = resolver_calls w2
  /\ answer_calls w1 = answer_calls w2
  /\ map forget_deadline (trace w1) = map forget_deadline (trace w2).

(** An event that is no reading of the clock. *)
Definition no_clock (e : Event) : Prop :=
  match e with
  | Clock _ => False
  | _ => True
  end.

(** The readings of the clock in [tr] obey [deadline]: one that is below
    it is followed by a query of the resolver; one that is not is the last
    event of [tr], and then [timed_out] holds. *)
Definition obeys (deadline : Z) (tr : list Event) (timed_out : Prop) : Prop :=
  forall pre t post,
    tr = (pre ++ Clock t :: post)%list ->
    (t < deadline ->
     exists name ty answer post', post = Resolve name ty answer :: post')
    /\ (deadline <= t -> post = [] /\ timed_out).

(** The exception of the last deletion that raised, if one did. *)
Definition last_failure (fails : list (DORecord * exn)) : option exn :=
  match rev fails with
  | [] => None
  | (_, e) :: _ => Some e
  end.

(** In the trace [tr] of a run that ended with [r], the wait has a
    deadline of its own, the first reading [now] of the clock plus 120
    seconds: a later reading [t] below it is followed by a query; one that
    is not is followed by the deletions alone, of what was created, and the
    run raises [TimeoutError], or what the last failed deletion raised. *)
Definition wait_has_own_deadline {T} (tr : list Event) (r : outcome T)
  : Prop :=
  forall pre now mid t post,
    tr = (pre ++ Clock now :: mid ++ Clock t :: post)%list ->
    readings pre = [] ->
    (t < float_add now 120 ->
     exists name ty answer post', post = Resolve name ty answer :: post')
    /\ (float_add now 120 <= t ->
        Forall is_delete post
        /\ (r <> Running ->
            deleted post = rev (created pre)
            /\ r = match last_failure (failed_deletions post) with
                   | Some e => Raised e
                   | None => Raised TimeoutError
                   end)).

(** The [try] block of [temporary_txt_records] up to its [yield]: the
    creations, the reading that fixes the deadline of the wait, the wait. *)
Definition before_yield {P} (provider : Provider P) (env : Env) (fuel : nat)
    (records : list (string * string)) : M (Locals P) unit :=
  (create_all provider records >>
   let* now := outside (clock env) in
   fun l =>
     outside (wait_all env fuel (float_add now 120) (dns_records l)) l)%monad.

(** How the [try] block of [temporary_txt_records] ends, before the
    [finally] clause runs. *)
Definition primary_outcome {P T} (provider : Provider P) (env : Env)
    (fuel : nat) (records : list (string * string))
    (body : list DORecord -> M (World P) T) (w : World P) : outcome T :=
  fst (try_block provider env fuel records body
         (mkLocals ExitStack.empty [] w)).

End Spec.

(* ================================================================== *)
(** ** Concrete collaborators, for the examples                        *)
(* ================================================================== *)

Module Scenario.
Import Http.

Definition txt_item (name data : string) (ttl : Z) (id : string) : Item :=
  mkItem (Some "TXT") (Some name) (Some data) (Some ttl) (Some id).

(** An API in front of a zone that holds [zone] at the name asked for:
    listing returns these records, a creation is accepted and echoed with
    the identifier [new], a deletion is answered with [delete_status]. *)
Definition zone_api (zone : list Item) (delete_status : Z)
  : list Request -> Request -> result Response :=
  fun _ q =>
    match q with
    | GET _ _ =>
        Ok (mkResponse 200 [] (Some (mkBody None (Some zone) None)))
    | POST _ payload =>
        Ok (mkResponse 201 []
              (Some (mkBody None None
                       (Some (mkItem (Some (RecordType_value (p_type payload)))
                                     (Some (p_name payload))
                                     (Some (p_data payload))
                                     (Some (p_ttl payload))
                                     (Some "new"))))))
    | DELETE _ => Ok (mkResponse delete_status [] None)
    end.

Definition at_noon : list Request -> Z := fun _ => 43200.

Definition acme_name : string := "_acme-challenge.example.com".

Definition old_item : Item := txt_item "_acme-challenge" "old" 30 "1".
Definition tok_item : Item := txt_item "_acme-challenge" "tok" 30 "2".

(** What [_get_records] builds from these items: it passes the root
    domain where the name is expected. *)
Definition old_record : DORecord :=
  mkRecord "example.com" TXT "example.com" "_acme-challenge" "old"
           (Some 30) (Some "1").
Definition tok_record : DORecord :=
  mkRecord "example.com" TXT "example.com" "_acme-challenge" "tok"
           (Some 30) (Some "2").
Definition new_record : DORecord :=
  mkRecord "example.com" TXT acme_name "_acme-challenge" "tok"
           (Some 30) (Some "new").

Definition options_tok (append : bool) : RecordOptions :=
  mkOptions acme_name TXT "tok" 30 append 120 2.

(** An order with one authorization that offers an HTTP-01 and a DNS-01
    challenge. *)
Definition challenge1 : Acme.ChallengeBody :=
  Acme.mkChallenge Acme.DNS01 "resp1" "tok1".

Definition order1 : Acme.Order :=
  Acme.mkOrder [[Acme.mkChallenge Acme.HTTP01 "resp0" "tok0"; challenge1]].

(** A clock that advances by [step] seconds from one reading to the next,
    a resolver that always answers [answers], and an ACME client that
    accepts everything and issues [CERT]. *)
Definition env_with (step : Z) (answers : list string) : Env :=
  mkEnv (fun k => step * Z.of_nat k)
        (fun _ _ _ => Ok answers)
        (fun _ => Ok order1)
        (fun _ _ _ => Ok tt)
        (fun _ _ => Ok "CERT").

(** The same, with the clock at [start] at its first reading. *)
Definition env_from (start step : Z) (answers : list string) : Env :=
  mkEnv (fun k => start + step * Z.of_nat k)
        (fun _ _ _ => Ok answers)
        (fun _ => Ok order1)
        (fun _ _ _ => Ok tt)
        (fun _ _ => Ok "CERT").


(** The DigitalOcean adapter in front of an empty zone. *)
Definition provider_with (delete_status : Z) : Provider Client :=
  DigitalOceanProvider (zone_api [] delete_status) at_noon.

Definition a_domain : string := "a.example.com".
Definition a_name : string := "_acme-challenge.a.example.com".

(** The record the adapter returns for the creation of the run. *)
Definition a_record : DORecord :=
  mkRecord "example.com" TXT a_name "_acme-challenge.a" "tok1"
           (Some 30) (Some "new").

(** The body of the [with] statement of [__call__] for [order1]. *)
Definition with_body (env : Env) (deadline : option Z)
  : list DORecord -> M (World Client) string :=
  fun _ =>
    (answer_all env 0 [challenge1] ["resp1"] >>
     poll_and_finalize env order1 deadline)%monad.

(** An order for two names, each with its DNS-01 challenge. *)
Definition challenge2 : Acme.ChallengeBody :=
  Acme.mkChallenge Acme.DNS01 "resp2" "tok2".

Definition order2 : Acme.Order := Acme.mkOrder [[challenge1]; [challenge2]].

Definition env_two_names : Env :=
  mkEnv (fun k => 2 * Z.of_nat k)
        (fun _ name _ =>
           if String.eqb name a_name then Ok ["tok1"] else Ok ["tok2"])
        (fun _ => Ok order2)
        (fun _ _ _ => Ok tt)
        (fun _ _ => Ok "CERT").

(** The same, with an ACME client that refuses the second answer it is
    given. *)
Definition env_refusing : Env :=
  mkEnv (fun k => 2 * Z.of_nat k)
        (fun _ name _ =>
           if String.eqb name a_name then Ok ["tok1"] else Ok ["tok2"])
        (fun _ => Ok order2)
        (fun k _ _ =>
           if Nat.eqb k 1 then Raise (CollaboratorError "refused")
           else Ok tt)
        (fun _ _ => Ok "CERT").

(** A provider whose state counts the creations it was asked for: it
    answers the creation number [limit] (from 0) with a rate-limit error
    and a reset in five minutes, and accepts everything else. *)
Definition plain_record (options : RecordOptions) (n : nat) : DORecord :=
  mkRecord "example.com" (record_type options) (fqdn options) (fqdn options)
           (record_value options) (Some (record_ttl options))
           (Some (if Nat.eqb n 0 then "first" else "later")).

Definition rate_limited_provider (limit : nat) : Provider nat :=
  mkProvider nat
    (fun options n =>
       if Nat.eqb n limit then (Raised (RateLimitExceededError 5), S n)
       else (Returned (plain_record options n), S n))
    (fun _ n => (Returned tt, n)).

Definition b_domain : string := "b.example.com".
Definition b_name : string := "_acme-challenge.b.example.com".

End Scenario.

(* ================================================================== *)
(** ** What a trace shows of the calls to the collaborators            *)
(* ================================================================== *)

Module Observed.

(** The options of the [create_record] calls, in order. *)
Fixpoint creation_requests (tr : list Event) : list RecordOptions :=
  match tr with
  | [] => []
  | CreateRecord options _ :: tr' => options :: creation_requests tr'
  | _ :: tr' => creation_requests tr'
  end.

(** The names and types the resolver was asked for, in order. *)
Fixpoint queries (tr : list Event) : list (string * RecordType) :=
  match tr with
  | [] => []
  | Resolve name t _ :: tr' => (name, t) :: queries tr'
  | _ :: tr' => queries tr'
  end.

(** The lengths of the sleeps, in order. *)
Fixpoint sleeps (tr : list Event) : list Z :=
  match tr with
  | [] => []
  | Sleep seconds :: tr' => seconds :: sleeps tr'
  | _ :: tr' => sleeps tr'
  end.

(** A poll of the wait for [record] that does not end it: the clock is
    read and shows [fst p], the resolver is asked for the record's name and
    type and answers [snd p], and the run sleeps for two seconds. *)
Definition poll (record : DORecord) (p : Z * list string) : list Event :=
  [Clock (fst p);
   Resolve (r_fqdn record) (r_type record) (Ok (snd p));
   Sleep 2].

(** How the [create_record] calls ended, in order. *)
Fixpoint creation_outcomes (tr : list Event) : list (outcome DORecord) :=
  match tr with
  | [] => []
  | CreateRecord _ r :: tr' => r :: creation_outcomes tr'
  | _ :: tr' => creation_outcomes tr'
  end.

(** The DNS-01 challenges of an order, as [__call__] collects them. *)
Definition dns01_challenges (order : Acme.Order) : list Acme.ChallengeBody :=
  flat_map (filter Acme.is_dns01) (Acme.authorizations order).

(** The options [temporary_txt_records] derives from a name and a token. *)
Definition options_of (record : string * string) : RecordOptions :=
  txt_options (fst record) (snd record).

End Observed.

(* ================================================================== *)
(** ** [adapters/resolvers/dnspython/__init__.py]                      *)
(* ================================================================== *)

Module DnsPython.

(** One record of an answer of the dns library, with the attributes the
    adapter reads; names are given as [to_text()] prints them, the strings
    of a TXT record as [decode()] gives them. *)
Inductive Rdata : Type :=
  | RdataA (address : string)
  | RdataCNAME (target : string)
  | RdataNS (target : string)
  | RdataSOA (mname : string)
  | RdataTXT (strings : list string).

(** How a call of the library's [resolve] ends. *)
Inductive reply : Type :=
  | Answered (answer : list Rdata)
  | DNSException
  | Failed (e : exn).

(** Reading an attribute a record does not have. *)
Definition AttributeError : exn := CollaboratorError "AttributeError".

Definition address (record : Rdata) : result string :=
  match record with
  | RdataA a => Ok a
  | _ => Raise AttributeError
  end.

Definition target (record : Rdata) : result string :=
  match record with
  | RdataCNAME t | RdataNS t => Ok t
  | _ => Raise AttributeError
  end.

Definition mname (record : Rdata) : result string :=
  match record with
  | RdataSOA m => Ok m
  | _ => Raise AttributeError
  end.

Definition strings (record : Rdata) : result (list string) :=
  match record with
  | RdataTXT l => Ok l
  | _ => Raise AttributeError
  end.

(** [[f(record) for record in answer]] *)
Fixpoint for_each {T} (f : Rdata -> result T) (answer : list Rdata)
  : result (list T) :=
  match answer with
  | [] => Ok []
  | record :: answer' =>
      x <- f record ;;
      xs <- for_each f answer' ;;
      Ok (x :: xs)
  end.

(** [s.rstrip(".")] *)
Fixpoint rstrip_dot (s : string) : string :=
  match s with
  | EmptyString => EmptyString
  | String a s' =>
      match rstrip_dot s' with
      | EmptyString =>
          if Ascii.eqb a PyStr.dot then EmptyString
          else String a EmptyString
      | rest => String a rest
      end
  end.

(** [domain.split(".", maxsplit=1)[1]]: what follows the first dot;
    without a dot the list has one element. *)
Fixpoint split1_second (domain : string) : result string :=
  match domain with
  | EmptyString => Raise IndexError
  | String a domain' =>
      if Ascii.eqb a PyStr.dot then Ok domain' else split1_second domain'
  end.

(** A query of the library: a name and a type. *)
Definition Query : Type := (string * RecordType)%type.

Section Adapter.

(** The dns library: its reply to a query, given the queries made so
    far. *)
Variable dns : list Query -> Query -> reply.

(** [resolver.resolve(name, rdtype)]; the state is the list of the queries
    made, oldest first. *)
Definition library_resolve (name : string) (rdtype : RecordType)
  : list Query -> reply * list Query :=
  fun queries =>
    (dns queries (name, rdtype), (queries ++ [(name, rdtype)])%list).

Definition _resolve_ip_addresses (fqdn : string)
  : M (list Query) (list string) :=
  fun queries =>
    match library_resolve fqdn A queries with
    | (Answered answer, queries') => lift (for_each address answer) queries'
    | (DNSException, queries') => (Returned [], queries')
    | (Failed e, queries') => (Raised e, queries')
    end.

Definition _resolve_cname_targets (fqdn : string)
  : M (list Query) (list string) :=
  fun queries =>
    match library_resolve fqdn CNAME queries with
    | (Answered answer, queries') =>
        lift (for_each (fun record => t <- target record ;; Ok (rstrip_dot t))
                answer) queries'
    | (DNSException, queries') => (Returned [], queries')
    | (Failed e, queries') => (Raised e, queries')
    end.

(** The loop of [_resolve_nameservers] and of
    [_resolve_authorative_nameservers]: [while "." in domain: ...].  Each
    unit of [fuel] pays for one iteration; the result is the local
    [answer]. *)
Fixpoint first_answer (fuel : nat) (rdtype : RecordType) (domain : string)
  : M (list Query) (option (list Rdata)) :=
  match fuel with
  | O => fun queries => (Running, queries)
  | S fuel' =>
      if PyStr.contains PyStr.dot domain then
        fun queries =>
          match library_resolve domain rdtype queries with
          | (Answered answer, queries') => (Returned (Some answer), queries')
          | (DNSException, queries') =>
              (let* domain' := lift (split1_second domain) in
               first_answer fuel' rdtype domain') queries'
          | (Failed e, queries') => (Raised e, queries')
          end
      else ret None
  end.

(** [if not answer: return []], and the list built otherwise. *)
Definition names_of (f : Rdata -> result string)
    (answer : option (list Rdata)) : result (list string) :=
  match answer with
  | None | Some [] => Ok []
  | Some records => for_each f records
  end.

Definition _resolve_authorative_nameservers (fuel : nat) (fqdn : string)
  : M (list Query) (list string) :=
  let* answer := first_answer fuel SOA fqdn in
  lift (names_of mname answer).

Definition _resolve_nameservers (fuel : nat) (fqdn : string)
  : M (list Query) (list string) :=
  let* answer := first_answer fuel NS fqdn in
  lift (names_of target answer).

Definition _resolve_txt_records (fqdn : string)
  : M (list Query) (list string) :=
  fun queries =>
    match library_resolve fqdn TXT queries with
    | (Answered answer, queries') =>
        lift (all <- for_each strings answer ;; Ok (List.concat all)) queries'
    | (DNSException, queries') => (Returned [], queries')
    | (Failed e, queries') => (Raised e, queries')
    end.

(** [DNSPythonResolver.resolve(fqdn, record_type)] *)
Definition resolve (fuel : nat) (fqdn : string) (record_type : RecordType)
  : M (list Query) (list string) :=
  match record_type with
  | A => _resolve_ip_addresses fqdn
  | CNAME => _resolve_cname_targets fqdn
  | NS => _resolve_nameservers fuel fqdn
  | TXT => _resolve_txt_records fqdn
  | SOA => _resolve_authorative_nameservers fuel fqdn
  end.

End Adapter.

(** What follows each dot of a name, from the left. *)
Fixpoint parents (name : string) : list string :=
  match name with
  | EmptyString => []
  | String a name' =>
      if Ascii.eqb a PyStr.dot then name' :: parents name'
      else parents name'
  end.

(** The names a loop over the parents of [fqdn] may ask for: the name and
    its parents, as long as they have a dot. *)
Definition candidates (fqdn : string) : list string :=
  filter (PyStr.contains PyStr.dot) (fqdn :: parents fqdn).

(** The reply of the library to the [i]-th query of a run that asks for
    [names] in their order, [queries] having been made before. *)
Definition reply_at (dns : list Query -> Query -> reply) (rdtype : RecordType)
    (queries : list Query) (names : list string) (i : nat) : option reply :=
  match nth_error names i with
  | Some name =>
      Some (dns (queries
                 ++ map (fun name => (name, rdtype)) (firstn i names))%list
                (name, rdtype))
  | None => None
  end.

(** A library that knows the name servers of [example.com] and nothing
    else. *)
Definition example_zone : list Query -> Query -> reply :=
  fun _ query =>
    if String.eqb (fst query) "example.com"
    then Answered [RdataNS "ns1.example.com."]
    else DNSException.

End DnsPython.

(* ================================================================== *)
(** * Properties                                                       *)
(* ================================================================== *)

(** ** [get_domain] *)

Module PyStrFacts.
Import PyStr.

Lemma split_not_nil (c : ascii) (s : string) : split c s <> [].
Proof.
  induction s as [|a s IH]; simpl.
  - discriminate.
  - destruct (Ascii.eqb a c); [discriminate|].
    destruct (split c s); discriminate.
Qed.

Lemma join_cons_char (sep : string) (a : ascii) (y : string)
    (l : list string) :
  join sep (String a y :: l) = String a (join sep (y :: l)).
Proof. destruct l; reflexivity. Qed.

Lemma join_cons_empty (y : string) (l : list string) :
  join "." (EmptyString :: y :: l) = String dot (join "." (y :: l)).
Proof. reflexivity. Qed.

(** Joining the pieces of a split gives the string back. *)
Lemma join_split (s : string) : join "." (split dot s) = s.
Proof.
  induction s as [|a s IH]; simpl; [reflexivity|].
  pose proof (split_not_nil dot s) as Hnil.
  destruct (Ascii.eqb_spec a dot) as [->|Hne];
    destruct (split dot s) as [|y l]; try contradiction.
  - now rewrite join_cons_empty, IH.
  - now rewrite join_cons_char, IH.
Qed.

(** No piece of a split contains the separator. *)
Lemma split_pieces (c : ascii) (s : string) :
  Forall (fun piece => contains c piece = false) (split c s).
Proof.
  induction s as [|a s IH]; simpl.
  - constructor; [reflexivity|constructor].
  - destruct (Ascii.eqb a c) eqn:E.
    + constructor; [reflexivity|exact IH].
    + destruct (split c s) as [|y l]; simpl.
      * constructor; [simpl; now rewrite E|constructor].
      * inversion IH; subst. constructor; [simpl; now rewrite E|assumption].
Qed.

(** A string with a separator splits into at least two pieces. *)
Lemma split_two (c : ascii) (s : string) :
  contains c s = true -> (2 <= List.length (split c s))%nat.
Proof.
  induction s as [|a s IH]; simpl; [discriminate|].
  destruct (Ascii.eqb a c).
  - intros _. pose proof (split_not_nil c s).
    destruct (split c s); [contradiction|simpl; lia].
  - intros H. specialize (IH H).
    destruct (split c s) as [|y l]; simpl in *; lia.
Qed.

(** The last two elements of a list that has at least two. *)
Lemma last_two {T} (l : list T) :
  (2 <= List.length l)%nat ->
  exists front x y, l = (front ++ [x; y])%list /\ last_n 2 l = [x; y].
Proof.
  intros Hlen.
  destruct (rev l) as [|y [|x r]] eqn:E.
  - apply (f_equal (@List.length T)) in E. rewrite length_rev in E.
    simpl in E. lia.
  - apply (f_equal (@List.length T)) in E. rewrite length_rev in E.
    simpl in E. lia.
  - exists (rev r), x, y.
    assert (Hl : l = (rev r ++ [x; y])%list).
    { rewrite <- (rev_involutive l), E. simpl.
      now rewrite <- app_assoc. }
    split; [exact Hl|].
    unfold last_n. rewrite Hl, length_app. simpl.
    replace (List.length (rev r) + 2 - 2)%nat
      with (List.length (rev r) + 0)%nat by lia.
    now rewrite skipn_app, Nat.add_0_r, skipn_all, Nat.sub_diag.
Qed.

End PyStrFacts.

(** C10. [get_domain] raises [InvalidDomainName] on the empty string and on
    a name without a dot; on any other name it returns the last two of the
    name's dot-separated labels, joined by a dot: the name is the dot-join of
    its labels, none of which contains a dot, and the result keeps the last
    two.  For [example.co.uk] this is [co.uk]. *)
Theorem get_domain_last_two_labels (fqdn : string) :
  (fqdn = "" \/ PyStr.contains PyStr.dot fqdn = false ->
   get_domain fqdn = Raise InvalidDomainName)
  /\ (PyStr.contains PyStr.dot fqdn = true ->
      exists front x y,
        PyStr.split PyStr.dot fqdn = (front ++ [x; y])%list
        /\ fqdn = PyStr.join "." (front ++ [x; y])
        /\ Forall (fun label => PyStr.contains PyStr.dot label = false)
                  (front ++ [x; y])
        /\ get_domain fqdn = Ok (x ++ "." ++ y)%string)
  /\ get_domain "example.co.uk" = Ok "co.uk".
Proof.
  split; [|split].
  - intros [-> | H]; [reflexivity|].
    unfold get_domain. destruct fqdn; [reflexivity|]. now rewrite H.
  - intros H.
    destruct (PyStrFacts.last_two _ (PyStrFacts.split_two _ _ H))
      as (front & x & y & Hsplit & Hlast).
    exists front, x, y. repeat split.
    + exact Hsplit.
    + rewrite <- Hsplit. symmetry. apply PyStrFacts.join_split.
    + rewrite <- Hsplit. apply PyStrFacts.split_pieces.
    + unfold get_domain. destruct fqdn; [discriminate|].
      rewrite H. simpl negb. cbv iota. now rewrite Hlast.
  - reflexivity.
Qed.

Lemma get_domain_last_two_labels_witness :
  get_domain "localhost" = Raise InvalidDomainName
  /\ exists front x y,
       PyStr.split PyStr.dot "www.example.com" = (front ++ [x; y])%list
       /\ "www.example.com" = PyStr.join "." (front ++ [x; y])
       /\ Forall (fun label => PyStr.contains PyStr.dot label = false)
                 (front ++ [x; y])
       /\ get_domain "www.example.com" = Ok (x ++ "." ++ y)%string.
Proof.
  split.
  - apply (proj1 (get_domain_last_two_labels "localhost")).
    right. reflexivity.
  - apply (proj1 (proj2 (get_domain_last_two_labels "www.example.com"))).
    reflexivity.
Defined.

(** ** The verification names of [__call__] *)

Lemma strip_wildcard_wild (base : string) :
  strip_wildcard ("*." ++ base) = base.
Proof. reflexivity. Qed.

Lemma strip_wildcard_plain (d : string) :
  (forall base, d <> ("*." ++ base)%string) -> strip_wildcard d = d.
Proof.
  intros Hd. unfold strip_wildcard.
  destruct (String.eqb (PyStr.take 2 d) "*.") eqn:E; [|reflexivity].
  apply String.eqb_eq in E.
  destruct d as [|a [|b d']]; simpl in E; try discriminate.
  injection E as -> ->. now destruct (Hd d').
Qed.

Lemma verification_tokens_total (domains tokens : list string) (i : nat) :
  (i + List.length domains <= List.length tokens)%nat ->
  exists vts, verification_tokens i domains tokens = Ok vts.
Proof.
  revert i. induction domains as [|d ds IH]; intros i Hlen; simpl in *.
  - now exists [].
  - destruct (nth_error tokens i) as [token|] eqn:E.
    + destruct (IH (S i)) as [rest Hrest]; [lia|].
      rewrite Hrest. simpl. eauto.
    + apply nth_error_None in E. lia.
Qed.

Lemma verification_tokens_nth (domains tokens : list string) (i : nat) vts :
  verification_tokens i domains tokens = Ok vts ->
  forall k d, nth_error domains k = Some d ->
    exists token,
      nth_error tokens (i + k) = Some token
      /\ nth_error vts k
         = Some ((DNS_LABEL ++ "." ++ strip_wildcard d)%string, token).
Proof.
  revert i vts. induction domains as [|d0 ds IH]; intros i vts H k d Hk.
  - destruct k; discriminate.
  - simpl in H.
    destruct (nth_error tokens i) as [token|] eqn:E; [|discriminate].
    destruct (verification_tokens (S i) ds tokens) as [rest|] eqn:Hrest;
      simpl in H; [|discriminate].
    injection H as <-.
    destruct k as [|k]; simpl in Hk.
    + injection Hk as ->. exists token. now rewrite Nat.add_0_r.
    + destruct (IH _ _ Hrest k d Hk) as (tok & Htok & Hnth).
      exists tok. split; [|exact Hnth].
      now replace (i + S k)%nat with (S i + k)%nat by lia.
Qed.

(** C8. When every domain has its token, the loop of [__call__] gives the
    [i]-th domain the [i]-th token and a verification name that is
    [_acme-challenge.<base>] for a wildcard domain [*.<base>], and
    [_acme-challenge.<d>] for a domain [<d>] that is not of that form. *)
Theorem wildcard_verification_name (domains tokens : list string) :
  (List.length domains <= List.length tokens)%nat ->
  exists vts,
    verification_tokens 0 domains tokens = Ok vts
    /\ forall i d, nth_error domains i = Some d ->
         exists name token,
           nth_error vts i = Some (name, token)
           /\ nth_error tokens i = Some token
           /\ (forall base, d = ("*." ++ base)%string ->
                 name = ("_acme-challenge." ++ base)%string)
           /\ ((forall base, d <> ("*." ++ base)%string) ->
                 name = ("_acme-challenge." ++ d)%string).
Proof.
  intros Hlen.
  destruct (verification_tokens_total domains tokens 0) as [vts Hvts];
    [simpl; lia|].
  exists vts. split; [exact Hvts|].
  intros i d Hd.
  destruct (verification_tokens_nth _ _ _ _ Hvts i d Hd) as (token & Ht & Hn).
  exists (DNS_LABEL ++ "." ++ strip_wildcard d)%string, token.
  repeat split; try assumption.
  - intros base ->. now rewrite strip_wildcard_wild.
  - intros Hplain. now rewrite strip_wildcard_plain.
Qed.

Lemma wildcard_verification_name_witness :
  exists vts,
    verification_tokens 0 ["*.example.com"; "www.example.org"] ["t1"; "t2"]
    = Ok vts
    /\ forall i d,
         nth_error ["*.example.com"; "www.example.org"] i = Some d ->
         exists name token,
           nth_error vts i = Some (name, token)
           /\ nth_error ["t1"; "t2"] i = Some token
           /\ (forall base, d = ("*." ++ base)%string ->
                 name = ("_acme-challenge." ++ base)%string)
           /\ ((forall base, d <> ("*." ++ base)%string) ->
                 name = ("_acme-challenge." ++ d)%string).
Proof.
  apply (wildcard_verification_name
           ["*.example.com"; "www.example.org"] ["t1"; "t2"]).
  simpl. lia.
Defined.

Example verification_tokens_example :
  verification_tokens 0 ["*.example.com"; "www.example.org"] ["t1"; "t2"]
  = Ok [("_acme-challenge.example.com", "t1");
        ("_acme-challenge.www.example.org", "t2")].
Proof. reflexivity. Qed.

(** ** [raise_for_status] *)

Section RaiseForStatus.
Import Http DigitalOcean.

Variable now : Z.
Variable hs : list (string * string).
Variable b : option Body.

Lemma raise_for_status_404 :
  raise_for_status now (mkResponse 404 hs b) = Raise ResourceNotFoundError.
Proof. reflexivity. Qed.

Lemma raise_for_status_401 :
  raise_for_status now (mkResponse 401 hs b) = Raise UnauthorizedError.
Proof. reflexivity. Qed.

Lemma raise_for_status_500 (body : Body) :
  raise_for_status now (mkResponse 500 hs (Some body))
  = Raise (ServerError (message body)).
Proof. reflexivity. Qed.

Lemma raise_for_status_422 (body : Body) :
  raise_for_status now (mkResponse 422 hs (Some body))
  = Raise (InvalidRequestError (message body)).
Proof. reflexivity. Qed.

(** The header is a string or is absent, and neither can be subtracted
    from: the 429 branch ends in [TypeError] before it reaches its own
    [raise]. *)
Lemma raise_for_status_429 :
  raise_for_status now (mkResponse 429 hs b) = Raise TypeError.
Proof.
  unfold raise_for_status. simpl.
  now destruct (headers_get "ratelimit-reset" hs).
Qed.

(** A status that has no branch of its own. *)
Lemma raise_for_status_other (status : Z) :
  status <> 404 -> status <> 401 -> status <> 429 ->
  status <> 500 -> status <> 422 ->
  raise_for_status now (mkResponse status hs b)
  = if (200 <=? status) && (status <? 300) then Ok tt
    else Raise (HTTPStatusError status).
Proof.
  intros H1 H2 H3 H4 H5. unfold raise_for_status. simpl.
  repeat match goal with
         | |- context [?x =? ?y] =>
             destruct (Z.eqb_spec x y); [contradiction|]
         end.
  reflexivity.
Qed.

End RaiseForStatus.

(** C4. What [raise_for_status] does with the statuses 403 and 400: neither
    has a branch, so both fall through to httpx's [raise_for_status] and
    end in the generic [HTTPStatusError], not in [UnauthorizedError] and
    [InvalidRequestError]. *)
Theorem raise_for_status_403_400
    (now : Z) (hs : list (string * string)) (b : option Http.Body) :
  DigitalOcean.raise_for_status now (Http.mkResponse 403 hs b)
  = Raise (HTTPStatusError 403)
  /\ DigitalOcean.raise_for_status now (Http.mkResponse 400 hs b)
     = Raise (HTTPStatusError 400).
Proof. split; reflexivity. Qed.

(** ** The provider adapter: [create_record] *)

Section CreateRecord.
Import Http DigitalOcean Spec.

Variable api : list Request -> Request -> result Response.
Variable time_time : list Request -> Z.

Lemma same_value_test (options : RecordOptions) (r : DORecord) :
  String.eqb (r_data r) (record_value options)
  && match r_ttl r with
     | Some t => t =? record_ttl options
     | None => false
     end = true
  <-> same_value options r.
Proof.
  unfold same_value. rewrite andb_true_iff, String.eqb_eq.
  destruct (r_ttl r) as [t|].
  - rewrite Z.eqb_eq. intuition congruence.
  - intuition congruence.
Qed.

(** Listing succeeds only for a manageable type and a name with a root
    domain, and sends one GET. *)
Lemma get_records_returned name t log existing log' :
  _get_records api time_time name t log = (Returned existing, log') ->
  _check_record_type t = Ok t
  /\ exists domain,
       get_domain name = Ok domain
       /\ log' = (log ++ [list_request domain name t])%list.
Proof.
  unfold _get_records, _check_record_type, mbind, lift, send, check_status.
  destruct (RecordType_eqb t SOA); [discriminate|]. cbn [ret].
  destruct (get_domain name) as [domain|]; [|discriminate]. cbn [ret].
  fold (list_request domain name t).
  destruct (api log (list_request domain name t)) as [response|];
    [|discriminate].
  destruct (raise_for_status _ response); [|discriminate]. cbn [ret].
  destruct (json response); [|discriminate]. cbn [ret].
  destruct (create_records domain _); [|discriminate]. cbn [ret].
  intros [= _ <-]. split; [reflexivity|]. now exists domain.
Qed.

(** [_check_record], once the listing has returned. *)
Lemma check_record_after_listing options log existing log' :
  _get_records api time_time (fqdn options) (record_type options) log
  = (Returned existing, log') ->
  _check_record api time_time (fqdn options) (record_type options)
    (record_value options) (record_ttl options) log
  = (lift (check_loop existing (record_value options) (record_ttl options))
       log').
Proof.
  intros Hget.
  destruct (get_records_returned _ _ _ _ _ Hget) as [Hty _].
  unfold _check_record, mbind. rewrite Hty. cbn [lift ret].
  now rewrite Hget.
Qed.

(** If the first record listed holds the value and ttl asked for, it is
    returned and nothing is written. *)
Lemma create_record_first_same options log r rest log' :
  _get_records api time_time (fqdn options) (record_type options) log
  = (Returned (r :: rest), log') ->
  same_value options r ->
  provider_create_record api time_time options log = (Returned r, log').
Proof.
  intros Hget Hsame.
  pose proof (check_record_after_listing _ _ _ _ Hget) as Hcheck.
  destruct (get_records_returned _ _ _ _ _ Hget) as [Hty _].
  unfold provider_create_record, mbind. rewrite Hty. cbn [lift ret].
  rewrite Hcheck. unfold check_loop.
  apply same_value_test in Hsame. rewrite Hsame. reflexivity.
Qed.

(** If it does not, the outcome is settled by [append] alone, whatever the
    records listed after it are. *)
Lemma create_record_first_differs options log r rest log' :
  _get_records api time_time (fqdn options) (record_type options) log
  = (Returned (r :: rest), log') ->
  ~ same_value options r ->
  provider_create_record api time_time options log
  = if append options
    then create_new api time_time (record_type options) options log'
    else (Raised RecordAlreadyExistsError, log').
Proof.
  intros Hget Hdiff.
  pose proof (check_record_after_listing _ _ _ _ Hget) as Hcheck.
  destruct (get_records_returned _ _ _ _ _ Hget) as [Hty _].
  unfold provider_create_record, mbind. rewrite Hty. cbn [lift ret].
  rewrite Hcheck. unfold check_loop.
  destruct (String.eqb _ _ && _) eqn:E.
  - apply same_value_test in E. contradiction.
  - cbn [lift raise]. now destruct (append options).
Qed.

(** Creation sends one POST; when the API accepts it and sends the new
    record back, that record is the result. *)
Lemma create_new_writes options log domain :
  get_domain (fqdn options) = Ok domain ->
  snd (create_new api time_time (record_type options) options log)
  = (log ++ [create_request domain options])%list
  /\ forall status hs msg recs item record,
       api log (create_request domain options)
       = Ok (mkResponse status hs (Some (mkBody msg recs (Some item)))) ->
       200 <= status < 300 ->
       create_record (fqdn options) item = Ok record ->
       fst (create_new api time_time (record_type options) options log)
       = Returned record.
Proof.
  intros Hdom. unfold create_new, mbind, send, check_status.
  rewrite Hdom. cbn [lift ret]. fold (create_request domain options).
  split.
  - destruct (api log (create_request domain options)) as [response|];
      [|reflexivity].
    destruct (raise_for_status _ response); [|reflexivity]. cbn [lift ret].
    destruct (json response); [|reflexivity]. cbn [lift ret].
    now destruct (create_record _ _).
  - intros status hs msg recs item record Hapi Hstatus Hrec.
    rewrite Hapi.
    rewrite raise_for_status_other by lia.
    replace ((200 <=? status) && (status <? 300)) with true
      by (symmetry; apply andb_true_iff; split;
          [apply Z.leb_le | apply Z.ltb_lt]; lia).
    cbn. now rewrite Hrec.
Qed.

End CreateRecord.

(** C7. When the records the provider lists for the name and type are not
    empty and none of them holds the value and ttl asked for, [create_record]
    sends the listing request; then, with [append] false, it raises
    [RecordAlreadyExistsError] having sent nothing else, and with [append]
    true it sends the creation request and returns the record the API sends
    back for it. *)
Theorem create_record_different_value
    (api : list Http.Request -> Http.Request -> result Http.Response)
    (time_time : list Http.Request -> Z)
    (options : RecordOptions) (log : Http.Client)
    (existing : list DORecord) (log' : Http.Client) :
  DigitalOcean._get_records api time_time (fqdn options) (record_type options)
    log = (Returned existing, log') ->
  existing <> [] ->
  Forall (fun r => ~ Spec.same_value options r) existing ->
  exists domain,
    get_domain (fqdn options) = Ok domain
    /\ log'
       = (log ++ [Spec.list_request domain (fqdn options)
                    (record_type options)])%list
    /\ (append options = false ->
        DigitalOcean.provider_create_record api time_time options log
        = (Raised RecordAlreadyExistsError, log'))
    /\ (append options = true ->
        snd (DigitalOcean.provider_create_record api time_time options log)
        = (log' ++ [Spec.create_request domain options])%list
        /\ forall status hs msg recs item record,
             api log' (Spec.create_request domain options)
             = Ok (Http.mkResponse status hs
                     (Some (Http.mkBody msg recs (Some item)))) ->
             200 <= status < 300 ->
             DigitalOcean.create_record (fqdn options) item = Ok record ->
             fst (DigitalOcean.provider_create_record api time_time options
                    log)
             = Returned record).
Proof.
  intros Hget Hne Hall.
  destruct existing as [|r rest]; [contradiction|].
  inversion Hall as [|? ? Hr _]; subst.
  destruct (get_records_returned _ _ _ _ _ _ _ Hget)
    as (_ & domain & Hdom & Hlog).
  pose proof (create_record_first_differs _ _ _ _ _ _ _ Hget Hr) as Hcreate.
  exists domain. split; [exact Hdom|]. split; [exact Hlog|]. split.
  - intros Happ. now rewrite Hcreate, Happ.
  - intros Happ. rewrite Hcreate, Happ.
    apply (create_new_writes api time_time options log' domain Hdom).
Qed.

Lemma create_record_different_value_witness :
  DigitalOcean.provider_create_record
    (Scenario.zone_api [Scenario.old_item] 204) Scenario.at_noon
    (Scenario.options_tok false) []
  = (Raised RecordAlreadyExistsError,
     [Spec.list_request "example.com" Scenario.acme_name TXT]).
Proof.
  destruct (create_record_different_value
              (Scenario.zone_api [Scenario.old_item] 204) Scenario.at_noon
              (Scenario.options_tok false) [] [Scenario.old_record]
              [Spec.list_request "example.com" Scenario.acme_name TXT])
    as (domain & _ & _ & Hfalse & _).
  - reflexivity.
  - discriminate.
  - constructor; [|constructor]. intros [H _]. discriminate H.
  - apply Hfalse. reflexivity.
Defined.

(** C3. A zone that lists two records for the name, the second of which
    holds exactly the value and ttl asked for: [create_record] does not
    return that record.  With [append] true it sends a creation request and
    returns the newly created record; with [append] false it raises
    [RecordAlreadyExistsError]. *)
Theorem create_record_match_not_first :
  DigitalOcean._get_records
    (Scenario.zone_api [Scenario.old_item; Scenario.tok_item] 204)
    Scenario.at_noon Scenario.acme_name TXT []
  = (Returned [Scenario.old_record; Scenario.tok_record],
     [Spec.list_request "example.com" Scenario.acme_name TXT])
  /\ Spec.same_value (Scenario.options_tok true) Scenario.tok_record
  /\ DigitalOcean.provider_create_record
       (Scenario.zone_api [Scenario.old_item; Scenario.tok_item] 204)
       Scenario.at_noon (Scenario.options_tok true) []
     = (Returned Scenario.new_record,
        [Spec.list_request "example.com" Scenario.acme_name TXT;
         Spec.create_request "example.com" (Scenario.options_tok true)])
  /\ DigitalOcean.provider_create_record
       (Scenario.zone_api [Scenario.old_item; Scenario.tok_item] 204)
       Scenario.at_noon (Scenario.options_tok false) []
     = (Raised RecordAlreadyExistsError,
        [Spec.list_request "example.com" Scenario.acme_name TXT]).
Proof. repeat split. Qed.

(** ** Traces *)

Lemma created_app (tr1 tr2 : list Event) :
  created (tr1 ++ tr2) = (created tr1 ++ created tr2)%list.
Proof.
  induction tr1 as [|e tr1 IH]; simpl; [reflexivity|].
  destruct e as [? [?| |]| | | | | | |]; simpl; now rewrite IH.
Qed.

Lemma deleted_app (tr1 tr2 : list Event) :
  deleted (tr1 ++ tr2) = (deleted tr1 ++ deleted tr2)%list.
Proof.
  induction tr1 as [|e tr1 IH]; simpl; [reflexivity|].
  destruct e; simpl; now rewrite IH.
Qed.

Lemma failed_deletions_app (tr1 tr2 : list Event) :
  failed_deletions (tr1 ++ tr2)
  = (failed_deletions tr1 ++ failed_deletions tr2)%list.
Proof.
  induction tr1 as [|e tr1 IH]; simpl; [reflexivity|].
  destruct e as [| ? [?| |]| | | | | |]; simpl; now rewrite IH.
Qed.

Lemma finalize_deadlines_app (tr1 tr2 : list Event) :
  finalize_deadlines (tr1 ++ tr2)
  = (finalize_deadlines tr1 ++ finalize_deadlines tr2)%list.
Proof.
  induction tr1 as [|e tr1 IH]; simpl; [reflexivity|].
  destruct e; simpl; now rewrite IH.
Qed.

Lemma not_provider_created (tr : list Event) :
  Forall Spec.not_provider tr -> created tr = [] /\ deleted tr = [].
Proof.
  induction 1 as [|e tr He _ [IHc IHd]]; [now split|].
  destruct e; simpl in *; try contradiction; now split.
Qed.

Lemma only_creations (tr : list Event) :
  Forall Spec.is_create tr -> deleted tr = [] /\ finalize_deadlines tr = [].
Proof.
  induction 1 as [|e tr He _ [IHd IHf]]; [now split|].
  destruct e; simpl in *; try contradiction; now split.
Qed.

Lemma only_deletions (tr : list Event) :
  Forall Spec.is_delete tr -> created tr = [] /\ finalize_deadlines tr = [].
Proof.
  induction 1 as [|e tr He _ [IHc IHf]]; [now split|].
  destruct e; simpl in *; try contradiction; now split.
Qed.

Lemma carries_deadlines (d : option Z) (tr : list Event) :
  Forall (Spec.carries d) tr -> Forall (eq d) (finalize_deadlines tr).
Proof.
  induction 1 as [|e tr He _ IH]; [constructor|].
  destruct e; simpl in *; try exact IH. constructor; [now symmetry|exact IH].
Qed.

Lemma last_failure_cons (r : DORecord) (e : exn) fails :
  Spec.last_failure ((r, e) :: fails)
  = match Spec.last_failure fails with
    | Some e' => Some e'
    | None => Some e
    end.
Proof.
  unfold Spec.last_failure. simpl.
  destruct (rev fails) as [|[r' e'] l]; reflexivity.
Qed.

Section Run.
Import Spec.

Context {P : Type}.
Variable provider : Provider P.
Variable env : Env.

Lemma emits_refl (w : World P) : emits w w [].
Proof. unfold emits. now rewrite app_nil_r. Qed.

Lemma emits_trans (w1 w2 w3 : World P) tr1 tr2 :
  emits w1 w2 tr1 -> emits w2 w3 tr2 -> emits w1 w3 (tr1 ++ tr2).
Proof. unfold emits. intros H1 H2. now rewrite H2, H1, app_assoc. Qed.

Variable d : option Z.

Lemma only_ret {T} (a : T) : only (P := P) (calm d) (ret a).
Proof. intros w r w' [= <- <-]. exists []. auto using emits_refl. Qed.

Lemma only_raise {T} (e : exn) : only (P := P) (T := T) (calm d) (raise e).
Proof. intros w r w' [= <- <-]. exists []. auto using emits_refl. Qed.

Lemma only_running {T} :
  only (P := P) (T := T) (calm d) (fun w => (Running, w)).
Proof. intros w r w' [= <- <-]. exists []. auto using emits_refl. Qed.

Lemma only_bind {T U} (m : M (World P) T) (k : T -> M (World P) U) :
  only (calm d) m -> (forall a, only (calm d) (k a)) ->
  only (calm d) (mbind m k).
Proof.
  intros Hm Hk w r w' H. unfold mbind in H.
  destruct (m w) as [[a|e|] w1] eqn:E;
    destruct (Hm _ _ _ E) as (tr1 & He1 & Hp1).
  - destruct (Hk a _ _ _ H) as (tr2 & He2 & Hp2).
    exists (tr1 ++ tr2)%list. split; [eauto using emits_trans|].
    apply Forall_app. now split.
  - injection H as <- <-. eauto.
  - injection H as <- <-. eauto.
Qed.

Lemma only_clock : only (P := P) (calm d) (clock env).
Proof.
  intros w r w' [= <- <-]. eexists [_]. split; [reflexivity|].
  constructor; [now split|constructor].
Qed.

Lemma only_sleep (s : Z) : only (P := P) (calm d) (sleep s).
Proof.
  intros w r w' [= <- <-]. eexists [_]. split; [reflexivity|].
  constructor; [now split|constructor].
Qed.

Lemma only_resolve name t : only (P := P) (calm d) (resolve env name t).
Proof.
  intros w r w' H. unfold resolve in H.
  destruct (resolver_answer env (resolver_calls w) name t);
    injection H as <- <-; eexists [_]; (split; [reflexivity|]);
    (constructor; [now split|constructor]).
Qed.

Lemma only_wait_propagation fuel deadline record :
  only (P := P) (calm d) (wait_propagation env fuel deadline record).
Proof.
  induction fuel as [|fuel IH]; simpl; [apply only_running|].
  apply only_bind; [apply only_clock|]. intros now.
  destruct (now <? deadline); [|apply only_ret].
  apply only_bind; [apply only_resolve|]. intros values.
  destruct (PyStr.mem _ _); [apply only_ret|].
  apply only_bind; [apply only_sleep|]. intros _. exact IH.
Qed.

Lemma only_wait_all fuel deadline records :
  only (P := P) (calm d) (wait_all env fuel deadline records).
Proof.
  induction records as [|record records IH]; simpl; [apply only_ret|].
  apply only_bind; [apply only_wait_propagation|]. intros propagated.
  destruct (negb propagated); [apply only_raise | exact IH].
Qed.


Lemma only_new_order domains : only (P := P) (calm d) (new_order env domains).
Proof.
  intros w r w' H. unfold new_order in H.
  destruct (acme_new_order env domains);
    injection H as <- <-; eexists [_]; (split; [reflexivity|]);
    (constructor; [now split|constructor]).
Qed.

Lemma only_answer_challenge item answer :
  only (P := P) (calm d) (answer_challenge env item answer).
Proof.
  intros w r w' H. unfold answer_challenge in H.
  destruct (acme_answer_challenge env (answer_calls w) item answer);
    injection H as <- <-; eexists [_]; (split; [reflexivity|]);
    (constructor; [now split|constructor]).
Qed.

Lemma only_poll_and_finalize order :
  only (P := P) (calm d) (poll_and_finalize env order d).
Proof.
  intros w r w' H. unfold poll_and_finalize in H.
  destruct (acme_poll_and_finalize env order d);
    injection H as <- <-; eexists [_]; (split; [reflexivity|]);
    (constructor; [now split|constructor]).
Qed.

Lemma only_answer_all index challenges responses :
  only (P := P) (calm d) (answer_all env index challenges responses).
Proof.
  revert index.
  induction challenges as [|c cs IH]; intros index; simpl;
    [apply only_ret|].
  destruct (nth_error responses index); [|apply only_raise].
  apply only_bind; [apply only_answer_challenge|]. intros _. apply IH.
Qed.

(** The body of the [with] statement of [__call__]. *)
Lemma only_with_body order challenges responses :
  only (P := P) (calm d)
    (answer_all env 0 challenges responses >>
     poll_and_finalize env order d).
Proof.
  apply only_bind; [apply only_answer_all|]. intros _.
  apply only_poll_and_finalize.
Qed.

(** A call to the outside leaves the local variables alone. *)
Lemma outside_only {T} (m : M (World P) T) l r l' :
  only (calm d) m ->
  outside m l = (r, l') ->
  stack l' = stack l /\ dns_records l' = dns_records l
  /\ exists tr, emits (world l) (world l') tr /\ Forall (calm d) tr.
Proof.
  intros Hm H. unfold outside in H.
  destruct (m (world l)) as [r0 w'] eqn:E. injection H as <- <-.
  simpl. repeat split. exact (Hm _ _ _ E).
Qed.

(** The creation loop: every record it gets back is put on the stack and
    in [dns_records] before the next creation is attempted. *)
Lemma create_all_registers records l r l' :
  create_all provider records l = (r, l') ->
  exists tr,
    emits (world l) (world l') tr
    /\ Forall is_create tr
    /\ stack l' = (rev (created tr) ++ stack l)%list
    /\ dns_records l' = (dns_records l ++ created tr)%list.
Proof.
  revert l r l'.
  induction records as [|[name value] records IH]; intros l r l' H;
    simpl in H.
  - injection H as <- <-. exists []. simpl.
    rewrite app_nil_r. auto using emits_refl.
  - unfold mbind, outside, provider_create, stack_callback,
      dns_records_append in H.
    destruct (create_record provider (txt_options name value)
                (provider_state (world l))) as [[record|e|] p'] eqn:E.
    + destruct (IH _ _ _ H) as (tr & He & Hc & Hs & Hr). simpl in *.
      exists (CreateRecord (txt_options name value) (Returned record) :: tr).
      repeat split.
      * unfold emits in *. rewrite He. simpl.
        now rewrite <- app_assoc.
      * constructor; [exact I|exact Hc].
      * rewrite Hs. simpl. unfold ExitStack.callback.
        now rewrite <- app_assoc.
      * rewrite Hr. simpl. now rewrite <- app_assoc.
    + injection H as <- <-. simpl.
      exists [CreateRecord (txt_options name value) (Raised e)]. simpl.
      rewrite app_nil_r. repeat split. repeat constructor.
    + injection H as <- <-. simpl.
      exists [CreateRecord (txt_options name value) Running]. simpl.
      rewrite app_nil_r. repeat split. repeat constructor.
Qed.

(** The [try] block: creations, then events that are no provider calls;
    the stack holds what was created, the last created on top. *)
Lemma try_block_registers {T} fuel records
    (body : list DORecord -> M (World P) T) w r l :
  (forall dns, only (calm d) (body dns)) ->
  try_block provider env fuel records body (mkLocals ExitStack.empty [] w)
  = (r, l) ->
  exists tr1 tr2,
    emits w (world l) (tr1 ++ tr2)
    /\ Forall is_create tr1 /\ Forall (calm d) tr2
    /\ stack l = rev (created tr1).
Proof.
  intros Hbody H. unfold try_block in H.
  unfold mbind at 1 in H.
  destruct (create_all provider records (mkLocals ExitStack.empty [] w))
    as [r1 l1] eqn:E1.
  destruct (create_all_registers _ _ _ _ E1) as (tr1 & He1 & Hc1 & Hs1 & _).
  simpl in He1, Hs1. rewrite app_nil_r in Hs1.
  assert (Hrest : forall (m : M (Locals P) T) r l,
             m l1 = (r, l) ->
             (forall l0 r0 l0', m l0 = (r0, l0') ->
                stack l0' = stack l0
                /\ exists tr, emits (world l0) (world l0') tr
                             /\ Forall (calm d) tr) ->
             exists tr2, emits w (world l) (tr1 ++ tr2)
                         /\ Forall (calm d) tr2
                         /\ stack l = rev (created tr1)).
  { intros m r0 l0 Hm Hspec.
    destruct (Hspec _ _ _ Hm) as (Hs & tr2 & He2 & Hp2).
    exists tr2. repeat split; eauto using emits_trans. congruence. }
  destruct r1 as [[]|e|].
  - destruct (Hrest _ _ _ H) as (tr2 & ? & ? & ?); [|now exists tr1, tr2].
    clear H Hrest. intros l0 r0 l0' H. unfold mbind at 1 in H.
    destruct (outside (clock env) l0) as [rc lc] eqn:Ec.
    destruct (outside_only _ _ _ _ (only_clock) Ec)
      as (Hsc & _ & trc & Hec & Hpc).
    destruct rc as [now|e|];
      [|injection H as <- <-; eauto | injection H as <- <-; eauto].
    unfold mbind in H.
    destruct (outside (wait_all env fuel (float_add now 120) (dns_records lc))
                  lc)
      as [rw lw] eqn:Ew.
    destruct (outside_only _ _ _ _ (only_wait_all _ _ _) Ew)
      as (Hsw & _ & trw & Hew & Hpw).
    destruct rw as [[]|e|].
    + destruct (outside (body (dns_records lw)) lw) as [rb lb] eqn:Eb.
      injection H as <- <-.
      destruct (outside_only _ _ _ _ (Hbody _) Eb)
        as (Hsb & _ & trb & Heb & Hpb).
      split; [congruence|]. exists (trc ++ trw ++ trb)%list.
      split; [eauto using emits_trans|].
      repeat (apply Forall_app; split); assumption.
    + injection H as <- <-. split; [congruence|].
      exists (trc ++ trw)%list. split; [eauto using emits_trans|].
      apply Forall_app. now split.
    + injection H as <- <-. split; [congruence|].
      exists (trc ++ trw)%list. split; [eauto using emits_trans|].
      apply Forall_app. now split.
  - injection H as <- <-. exists tr1, []. rewrite app_nil_r. auto.
  - injection H as <- <-. exists tr1, []. rewrite app_nil_r. auto.
Qed.

(** The loop of [__exit__] calls [delete_record] on every record of the
    stack, from the top, whether or not an earlier call raised; what it
    hands back is the exception of the last call that raised. *)
Lemma run_callbacks_deletes stack pending w r w' :
  ExitStack.run_callbacks provider stack pending w = (r, w') ->
  exists tr,
    emits w w' tr /\ Forall is_delete tr
    /\ (r <> Running ->
        deleted tr = stack
        /\ r = Returned match last_failure (failed_deletions tr) with
                        | Some e => Some e
                        | None => pending
                        end).
Proof.
  revert pending w.
  induction stack as [|record stack IH]; intros pending w H; simpl in H.
  - injection H as <- <-. exists []. auto using emits_refl.
  - unfold provider_delete in H.
    destruct (delete_record provider record (provider_state w))
      as [[[]|e|] p'] eqn:E.
    + destruct (IH _ _ H) as (tr & He & Hd & Hres).
      exists (DeleteRecord record (Returned tt) :: tr).
      split; [|split].
      * unfold emits in *. rewrite He. simpl. now rewrite <- app_assoc.
      * constructor; [exact I|exact Hd].
      * intros Hr. destruct (Hres Hr) as [Hs Hlast]. simpl.
        now rewrite Hs.
    + destruct (IH _ _ H) as (tr & He & Hd & Hres).
      exists (DeleteRecord record (Raised e) :: tr).
      split; [|split].
      * unfold emits in *. rewrite He. simpl. now rewrite <- app_assoc.
      * constructor; [exact I|exact Hd].
      * intros Hr. destruct (Hres Hr) as [Hs Hlast]. simpl.
        rewrite Hs, last_failure_cons, Hlast. split; [reflexivity|].
        now destruct (last_failure (failed_deletions tr)).
    + injection H as <- <-. exists [DeleteRecord record Running].
      split; [reflexivity|]. split; [repeat constructor|].
      intros Hr. now destruct Hr.
Qed.

(** The [finally] clause: once the [try] block has ended, every record on
    the stack has [delete_record] called on it; if a call raised, the
    exception of the last one that did is what the statement raises, and
    otherwise the statement ends as the [try] block did. *)
Lemma finally_runs_callbacks {T} fuel records
    (body : list DORecord -> M (World P) T) w r w' primary l :
  try_block provider env fuel records body (mkLocals ExitStack.empty [] w)
  = (primary, l) ->
  temporary_txt_records provider env fuel records body w = (r, w') ->
  exists tr,
    emits (world l) w' tr /\ Forall is_delete tr
    /\ (r <> Running ->
        deleted tr = stack l
        /\ r = match last_failure (failed_deletions tr) with
               | Some e => Raised e
               | None => primary
               end).
Proof.
  intros Htry H. unfold temporary_txt_records in H. rewrite Htry in H.
  destruct (ExitStack.run_callbacks provider (stack l) None (world l))
    as [rc wc] eqn:Ec.
  destruct (run_callbacks_deletes _ _ _ _ _ Ec) as (tr & He & Hd & Hres).
  assert (Hexit :
    primary <> Running ->
    match rc with
    | Returned (Some exc) => (Raised exc, wc)
    | Returned None => (primary, wc)
    | Raised exc => (Raised exc, wc)
    | Running => (Running, wc)
    end = (r, w')).
  { intros Hp. rewrite <- H. unfold ExitStack.__exit__, mbind.
    rewrite Ec. destruct primary; try (now destruct Hp);
      destruct rc as [[exc|]|exc|]; reflexivity. }
  assert (Hcases :
    primary <> Running -> r <> Running ->
    deleted tr = stack l
    /\ r = match last_failure (failed_deletions tr) with
           | Some e => Raised e
           | None => primary
           end).
  { intros Hp Hr. specialize (Hexit Hp).
    destruct rc as [[exc|]|exc|].
    - destruct Hres as [Hs Hlast]; [discriminate|].
      injection Hexit as <- _. split; [exact Hs|].
      injection Hlast as Hlast.
      destruct (last_failure (failed_deletions tr)); congruence.
    - destruct Hres as [Hs Hlast]; [discriminate|].
      injection Hexit as <- _. split; [exact Hs|].
      injection Hlast as Hlast.
      destruct (last_failure (failed_deletions tr)); congruence.
    - destruct Hres as [_ Hlast]; [discriminate|discriminate].
    - injection Hexit as <- _. now destruct Hr. }
  destruct primary as [a|e|] eqn:Ep.
  - assert (Hw : w' = wc).
    { specialize (Hexit ltac:(discriminate)).
      destruct rc as [[exc|]|exc|]; now injection Hexit. }
    subst w'. exists tr. split; [exact He|]. split; [exact Hd|].
    apply Hcases. discriminate.
  - assert (Hw : w' = wc).
    { specialize (Hexit ltac:(discriminate)).
      destruct rc as [[exc|]|exc|]; now injection Hexit. }
    subst w'. exists tr. split; [exact He|]. split; [exact Hd|].
    apply Hcases. discriminate.
  - injection H as <- <-. exists []. split; [apply emits_refl|].
    split; [constructor|]. intros Hr. now destruct Hr.
Qed.

End Run.

(** The events of a run of [__call__], in order: the new order, the
    creations, the wait and the talk with the ACME client, the deletions. *)
Lemma call_events
    {P : Type} (provider : Provider P) (env : Env) (fuel : nat)
    (domains : list string) (deadline : option Z)
    (w : World P) (r : outcome string) (w' : World P) :
  __call__ provider env fuel domains deadline w = (r, w') ->
  exists tr0 tr1 tr2 tr3,
    Spec.emits w w' (tr0 ++ (tr1 ++ tr2) ++ tr3)
    /\ Forall (Spec.calm deadline) tr0
    /\ Forall Spec.is_create tr1
    /\ Forall (Spec.calm deadline) tr2
    /\ Forall Spec.is_delete tr3
    /\ (r <> Running -> deleted tr3 = rev (created tr1)).
Proof.
  intros H.
  unfold __call__, mbind in H.
  destruct (new_order env domains w) as [ro w0] eqn:E0.
  destruct (only_new_order env deadline domains _ _ _ E0)
    as (tr0 & He0 & Hp0).
  assert (Hstop : (r, w') = (r, w0) ->
            exists tr0 tr1 tr2 tr3,
              Spec.emits w w' (tr0 ++ (tr1 ++ tr2) ++ tr3)
              /\ Forall (Spec.calm deadline) tr0
              /\ Forall Spec.is_create tr1
              /\ Forall (Spec.calm deadline) tr2
              /\ Forall Spec.is_delete tr3
              /\ (r <> Running -> deleted tr3 = rev (created tr1))).
  { intros [= ->]. exists tr0, [], [], []. simpl. rewrite app_nil_r.
    repeat split; auto. }
  destruct ro as [order|e|];
    [|injection H as <- <-; now apply Hstop
     |injection H as <- <-; now apply Hstop].
  destruct (flat_map (filter Acme.is_dns01) (Acme.authorizations order))
    as [|c cs] eqn:Ech.
  { injection H as <- <-. now apply Hstop. }
  destruct (verification_tokens 0 domains (map Acme.validation (c :: cs)))
    as [tokens|e] eqn:Etok; simpl lift in H;
    [|injection H as <- <-; now apply Hstop].
  unfold ret in H.
  match type of H with
  | temporary_txt_records _ _ _ _ ?b _ = _ => set (body := b) in *
  end.
  destruct (try_block provider env fuel tokens body
              (mkLocals ExitStack.empty [] w0)) as [primary l] eqn:Et.
  destruct (try_block_registers provider env deadline fuel tokens body
              _ _ _ (fun _ => only_with_body env deadline order _ _) Et)
    as (tr1 & tr2 & He12 & Hc1 & Hp2 & Hs).
  destruct (finally_runs_callbacks provider env fuel tokens body
              _ _ _ _ _ Et H) as (tr3 & He3 & Hd3 & Hfin).
  exists tr0, tr1, tr2, tr3. repeat split; try assumption.
  - eauto using emits_trans.
  - intros Hr. destruct (Hfin Hr) as [Hs3 _]. congruence.
Qed.

(** C1. However a run of [__call__] ends (with the finalized order, with a
    timeout, with an error of the ACME client, of the resolver or of the
    provider in the middle of the creations), [delete_record] has been called
    on the records [create_record] returned during the run, once per record
    returned, in the reverse order of their creation. *)
Theorem cleanup_deletes_every_created_record
    {P : Type} (provider : Provider P) (env : Env) (fuel : nat)
    (domains : list string) (deadline : option Z)
    (w : World P) (r : outcome string) (w' : World P) :
  __call__ provider env fuel domains deadline w = (r, w') ->
  r <> Running ->
  exists tr,
    Spec.emits w w' tr
    /\ deleted tr = rev (created tr)
    /\ Permutation (deleted tr) (created tr).
Proof.
  intros H Hr.
  destruct (call_events _ _ _ _ _ _ _ _ H)
    as (tr0 & tr1 & tr2 & tr3 & He & Hp0 & Hc1 & Hp2 & Hd3 & Hdel).
  destruct (not_provider_created tr0) as [Hc0 Hd0];
    [eapply Forall_impl; [|exact Hp0]; now intros e []|].
  destruct (only_creations _ Hc1) as [Hd1 _].
  destruct (not_provider_created tr2) as [Hc2 Hd2];
    [eapply Forall_impl; [|exact Hp2]; now intros e []|].
  destruct (only_deletions _ Hd3) as [Hc3 _].
  assert (Hrev : deleted (tr0 ++ (tr1 ++ tr2) ++ tr3)
                 = rev (created (tr0 ++ (tr1 ++ tr2) ++ tr3))).
  { rewrite !created_app, !deleted_app, Hc0, Hd0, Hd1, Hc2, Hd2, Hc3,
      (Hdel Hr). simpl. now rewrite !app_nil_r. }
  exists (tr0 ++ (tr1 ++ tr2) ++ tr3)%list. repeat split; try assumption.
  rewrite Hrev. apply Permutation_sym, Permutation_rev.
Qed.

Lemma cleanup_deletes_every_created_record_witness :
  exists tr,
    Spec.emits (init_world [])
      (snd (__call__ (Scenario.provider_with 204)
              (Scenario.env_with 2 ["tok1"]) 5 [Scenario.a_domain] None
              (init_world [])))
      tr
    /\ deleted tr = rev (created tr)
    /\ Permutation (deleted tr) (created tr).
Proof.
  apply (cleanup_deletes_every_created_record
           (Scenario.provider_with 204) (Scenario.env_with 2 ["tok1"]) 5
           [Scenario.a_domain] None (init_world [])
           (Returned "CERT")).
  - vm_compute. reflexivity.
  - discriminate.
Defined.

(** Scenario A: the resolver shows the token at the first poll; the run
    returns the certificate without sleeping and deletes the record. *)
Example scenario_a :
  let (r, w') := __call__ (Scenario.provider_with 204)
                   (Scenario.env_with 2 ["tok1"]) 5 [Scenario.a_domain] None
                   (init_world []) in
  r = Returned "CERT"
  /\ trace w'
     = [NewOrder [Scenario.a_domain];
        CreateRecord (txt_options Scenario.a_name "tok1")
          (Returned Scenario.a_record);
        Clock 0; Clock 2; Resolve Scenario.a_name TXT (Ok ["tok1"]);
        AnswerChallenge Scenario.challenge1 "resp1";
        PollAndFinalize None;
        DeleteRecord Scenario.a_record (Returned tt)].
Proof. vm_compute. split; reflexivity. Qed.

(** C2 (as the code has it). When [temporary_txt_records] leaves its [try]
    block, [delete_record] is called on every registered record, also after
    one of these calls has raised.  If none raised, the statement ends as the
    [try] block did: it returns what the block returned or raises what the
    block raised.  If some call raised, the statement raises the exception
    of the last call that did, in place of the block's own outcome. *)
Theorem cleanup_failure_replaces_outcome
    {P T : Type} (provider : Provider P) (env : Env) (fuel : nat)
    (records : list (string * string))
    (body : list DORecord -> M (World P) T)
    (w : World P) (r : outcome T) (w' : World P) :
  temporary_txt_records provider env fuel records body w = (r, w') ->
  r <> Running ->
  exists l tr,
    try_block provider env fuel records body (mkLocals ExitStack.empty [] w)
    = (Spec.primary_outcome provider env fuel records body w, l)
    /\ Spec.emits (world l) w' tr
    /\ deleted tr = stack l
    /\ r = match Spec.last_failure (failed_deletions tr) with
           | Some e => Raised e
           | None => Spec.primary_outcome provider env fuel records body w
           end.
Proof.
  intros H Hr. unfold Spec.primary_outcome.
  destruct (try_block provider env fuel records body
              (mkLocals ExitStack.empty [] w)) as [primary l] eqn:Et.
  destruct (finally_runs_callbacks provider env fuel records body
              _ _ _ _ _ Et H) as (tr & He & _ & Hfin).
  destruct (Hfin Hr) as [Hs Hres].
  exists l, tr. simpl. auto.
Qed.

Lemma cleanup_failure_replaces_outcome_witness :
  exists l tr,
    try_block (Scenario.provider_with 204) (Scenario.env_with 2 ["tok1"]) 5
      [(Scenario.a_name, "tok1")]
      (Scenario.with_body (Scenario.env_with 2 ["tok1"]) None)
      (mkLocals ExitStack.empty [] (init_world []))
    = (Spec.primary_outcome (Scenario.provider_with 204)
         (Scenario.env_with 2 ["tok1"]) 5 [(Scenario.a_name, "tok1")]
         (Scenario.with_body (Scenario.env_with 2 ["tok1"]) None)
         (init_world []), l)
    /\ Spec.emits (world l)
         (snd (temporary_txt_records (Scenario.provider_with 204)
                 (Scenario.env_with 2 ["tok1"]) 5 [(Scenario.a_name, "tok1")]
                 (Scenario.with_body (Scenario.env_with 2 ["tok1"]) None)
                 (init_world [])))
         tr
    /\ deleted tr = stack l
    /\ Returned "CERT"
       = match Spec.last_failure (failed_deletions tr) with
         | Some e => Raised e
         | None =>
             Spec.primary_outcome (Scenario.provider_with 204)
               (Scenario.env_with 2 ["tok1"]) 5 [(Scenario.a_name, "tok1")]
               (Scenario.with_body (Scenario.env_with 2 ["tok1"]) None)
               (init_world [])
         end.
Proof.
  apply (cleanup_failure_replaces_outcome
           (Scenario.provider_with 204) (Scenario.env_with 2 ["tok1"]) 5
           [(Scenario.a_name, "tok1")]
           (Scenario.with_body (Scenario.env_with 2 ["tok1"]) None)
           (init_world []) (Returned "CERT")).
  - vm_compute. reflexivity.
  - discriminate.
Defined.

(** C2 fails as stated.  The API answers the deletion with 404, so
    [delete_record] raises [ResourceNotFoundError] during cleanup.  The
    [try] block had returned the certificate, yet the run raises
    [ResourceNotFoundError]: the cleanup failure is the error the caller
    sees. *)
Lemma cleanup_failure_masks_certificate :
  let env := Scenario.env_with 2 ["tok1"] in
  let run := __call__ (Scenario.provider_with 404) env 5 [Scenario.a_domain]
               None (init_world []) in
  Spec.primary_outcome (Scenario.provider_with 404) env 5
    [(Scenario.a_name, "tok1")] (Scenario.with_body env None)
    (log (NewOrder [Scenario.a_domain]) (init_world []))
  = Returned "CERT"
  /\ failed_deletions (trace (snd run))
     = [(Scenario.a_record, ResourceNotFoundError)]
  /\ fst run = Raised ResourceNotFoundError
  /\ ~ (fst run = Returned "CERT").
Proof. vm_compute. repeat split. discriminate. Qed.

(** ** The propagation wait *)

Lemma mem_In (x : string) (l : list string) :
  PyStr.mem x l = true <-> In x l.
Proof.
  unfold PyStr.mem. rewrite existsb_exists. split.
  - intros (y & Hy & E). apply String.eqb_eq in E. now subst.
  - intros H. exists x. split; [exact H|apply String.eqb_refl].
Qed.

Section Wait.

Context {P : Type}.
Variable env : Env.
Variable deadline : Z.
Variable record : DORecord.

(** The world after the clock was read, after the resolver was queried,
    and after the sleep that follows a poll without the value. *)
Lemma wait_propagation_step (fuel : nat) (w : World P) :
  wait_propagation env (S fuel) deadline record w
  = let now := clock_reading env (clock_calls w) in
    let answer :=
      resolver_answer env (resolver_calls w) (r_fqdn record) (r_type record)
    in
    let w1 := snd (clock env w) in
    let w2 := snd (resolve env (r_fqdn record) (r_type record) w1) in
    if now <? deadline then
      match answer with
      | Ok values =>
          if PyStr.mem (r_data record) values then (Returned true, w2)
          else wait_propagation env fuel deadline record
                 (snd (sleep 2 w2))
      | Raise e => (Raised e, w2)
      end
    else (Returned false, w1).
Proof.
  destruct w as [ps cc rc ac tr]. cbn [wait_propagation].
  unfold mbind, clock, resolve, sleep, log, lift, ret, raise. simpl.
  destruct (_ <? deadline); simpl; [|reflexivity].
  destruct (resolver_answer env rc (r_fqdn record) (r_type record))
    as [values|e]; simpl; [|reflexivity].
  destruct (PyStr.mem (r_data record) values); reflexivity.
Qed.

Lemma clock_counts (w : World P) :
  clock_calls (snd (clock env w)) = S (clock_calls w)
  /\ resolver_calls (snd (clock env w)) = resolver_calls w.
Proof. split; reflexivity. Qed.

Lemma resolve_counts name t (w : World P) :
  clock_calls (snd (resolve env name t w)) = clock_calls w
  /\ resolver_calls (snd (resolve env name t w)) = S (resolver_calls w).
Proof.
  unfold resolve. destruct (resolver_answer env _ name t); split; reflexivity.
Qed.

Lemma sleep_counts s (w : World P) :
  clock_calls (snd (sleep s w)) = clock_calls w
  /\ resolver_calls (snd (sleep s w)) = resolver_calls w.
Proof. split; reflexivity. Qed.

End Wait.

(** C9. The wait for a record ends with [propagated] set exactly when the
    resolver, asked for the record's name and type, gave an answer that has
    an element equal to the record's data; the wait ends at the first such
    answer: every earlier answer of the wait lacked the value, and no poll
    follows it. *)
Theorem propagated_iff_exact_member
    {P : Type} (env : Env) (fuel : nat) (deadline : Z) (record : DORecord)
    (w : World P) (r : outcome bool) (w' : World P) :
  wait_propagation env fuel deadline record w = (r, w') ->
  (r = Returned true <->
   exists k values,
     resolver_calls w' = S (resolver_calls w + k)
     /\ resolver_answer env (resolver_calls w + k)
          (r_fqdn record) (r_type record) = Ok values
     /\ In (r_data record) values
     /\ forall j, (j < k)%nat ->
          exists earlier,
            resolver_answer env (resolver_calls w + j)
              (r_fqdn record) (r_type record) = Ok earlier
            /\ ~ In (r_data record) earlier).
Proof.
  revert w r w'.
  induction fuel as [|fuel IH]; intros w r w' H.
  - injection H as <- <-. split; [discriminate|].
    intros (k & values & Hn & _). lia.
  - rewrite wait_propagation_step in H. cbv zeta in H.
    destruct (clock_counts env w) as [_ Hq1].
    destruct (resolve_counts env (r_fqdn record) (r_type record)
                (snd (clock env w))) as [_ Hq2].
    rewrite Hq1 in Hq2.
    destruct (_ <? deadline).
    + destruct (resolver_answer env (resolver_calls w) (r_fqdn record)
                  (r_type record)) as [values|e] eqn:Ea.
      * destruct (PyStr.mem (r_data record) values) eqn:Em.
        -- injection H as <- <-. split; [intros _|reflexivity].
           exists O, values. rewrite Nat.add_0_r.
           repeat split; try assumption.
           ++ now apply mem_In.
           ++ intros j Hj. lia.
        -- apply IH in H.
           destruct (sleep_counts (P := P) 2
                       (snd (resolve env (r_fqdn record) (r_type record)
                               (snd (clock env w))))) as [_ Hq3].
           rewrite Hq2 in Hq3. rewrite Hq3 in H. rewrite H. clear H.
           assert (Hnot : ~ In (r_data record) values).
           { intros Hin. apply mem_In in Hin. congruence. }
           split.
           ++ intros (k & vs & Hn & Hk & Hin & Hearlier).
              exists (S k), vs. rewrite Nat.add_succ_r.
              repeat split; try assumption.
              intros [|j] Hj.
              ** rewrite Nat.add_0_r. eauto.
              ** rewrite Nat.add_succ_r. apply Hearlier. lia.
           ++ intros (k & vs & Hn & Hk & Hin & Hearlier).
              destruct k as [|k].
              ** rewrite Nat.add_0_r in Hk. congruence.
              ** rewrite Nat.add_succ_r in Hn, Hk.
                 exists k, vs. repeat split; try assumption.
                 intros j Hj. specialize (Hearlier (S j)).
                 rewrite Nat.add_succ_r in Hearlier. apply Hearlier. lia.
      * injection H as <- <-. split; [discriminate|].
        intros (k & vs & Hn & Hk & _).
        pose proof (eq_trans (eq_sym Hn) Hq2) as Hnk.
        assert (k = O) by lia. subst k. rewrite Nat.add_0_r in Hk.
        congruence.
    + injection H as <- <-. split; [discriminate|].
      intros (k & vs & Hn & _).
      pose proof (eq_trans (eq_sym Hn) Hq1) as Hnk. lia.
Qed.

Lemma propagated_iff_exact_member_witness :
  exists k values,
    resolver_calls
      (snd (wait_propagation (Scenario.env_with 2 ["other"; "tok1"]) 5 120
              Scenario.a_record (init_world (@nil Http.Request))))
    = S (0 + k)
    /\ resolver_answer (Scenario.env_with 2 ["other"; "tok1"]) (0 + k)
         Scenario.a_name TXT = Ok values
    /\ In "tok1" values
    /\ forall j, (j < k)%nat ->
         exists earlier,
           resolver_answer (Scenario.env_with 2 ["other"; "tok1"]) (0 + j)
             Scenario.a_name TXT = Ok earlier
           /\ ~ In "tok1" earlier.
Proof.
  apply (proj1 (propagated_iff_exact_member
                  (Scenario.env_with 2 ["other"; "tok1"]) 5 120
                  Scenario.a_record (init_world (@nil Http.Request))
                  (Returned true) _ eq_refl)).
  reflexivity.
Defined.

(** A value of which the token is only a prefix or a part is not the token:
    the wait goes on until the deadline. *)
Example substring_is_not_propagation :
  PyStr.mem "tok1" ["tok1-more"; "xtok1"; "tok"; " tok1"] = false
  /\ fst (wait_propagation (Scenario.env_with 50 ["tok1-more"; "xtok1"]) 5 120
            Scenario.a_record (init_world (@nil Http.Request)))
     = Returned false.
Proof. split; reflexivity. Qed.

(** ** Sums of times *)

(** A whole number below 2^53 in size is a float. *)
Lemma round53_small (z : Z) : Z.abs z < 2 ^ 53 -> round53 z = z.
Proof.
  intros H. unfold round53.
  destruct (Z.leb_spec (Z.log2 (Z.abs z) - 52) 0) as [_|Hbig];
    [reflexivity|].
  exfalso.
  destruct (Z.eq_dec (Z.abs z) 0) as [E|Hpos].
  - rewrite E in Hbig. simpl in Hbig. lia.
  - apply Z.log2_lt_pow2 in H; lia.
Qed.

(** Below 2^53 the sum of two whole numbers is exact. *)
Lemma float_add_exact (x y : Z) :
  Z.abs x + Z.abs y < 2 ^ 53 -> float_add x y = x + y.
Proof.
  intros H. unfold float_add.
  rewrite (round53_small x), (round53_small y) by lia.
  apply round53_small. lia.
Qed.

(** Above it the sum is rounded, here to the float below. *)
Example float_add_rounds :
  float_add (2 ^ 56 + 16) 120 = 2 ^ 56 + 128
  /\ float_add (2 ^ 56 + 32) 120 = 2 ^ 56 + 160
  /\ float_add 1700000000 120 = 1700000120.
Proof. repeat split. Qed.

(** ** The timeout of the propagation wait *)

Section Timeout.

Context {P : Type}.
Variable env : Env.

(** The resolver never shows anything, and the clock never goes back. *)
Hypothesis resolver_empty :
  forall k name t, resolver_answer env k name t = Ok [].
Hypothesis clock_never_goes_back :
  forall k, clock_reading env k <= clock_reading env (S k).



End Timeout.




(** The lower bound fails too where the float sum is rounded.  The clock
    shows 2^56 + 16 when the deadline is fixed: the deadline is the float
    2^56 + 128, and the wait ends at that reading, 112 seconds later. *)
Example rounded_deadline_shortens_window :
  let env := Scenario.env_from (2 ^ 56 + 16) 112 [] in
  let run := try_block (Scenario.provider_with 204) env 200
               [(Scenario.a_name, "tok1")] (Scenario.with_body env None)
               (mkLocals ExitStack.empty [] (init_world [])) in
  Forall (fun t => round53 t = t) (readings (trace (world (snd run))))
  /\ fst run = Raised TimeoutError
  /\ readings (trace (world (snd run))) = [2 ^ 56 + 16; 2 ^ 56 + 128]
  /\ (2 ^ 56 + 128) - (2 ^ 56 + 16) = 112
  /\ ~ (120 <= 112).
Proof.
  split; [vm_compute; repeat constructor|].
  split; [vm_compute; reflexivity|].
  split; [vm_compute; reflexivity|].
  split; [reflexivity|lia].
Qed.

(** ** The caller's deadline *)

Section Deadline.
Import Spec.

Context {P : Type}.
Variable provider : Provider P.
Variable env : Env.

Lemma similar_refl (w : World P) : same_but_deadlines w w.
Proof. repeat split. Qed.

(** The [try] block is what precedes the [yield], which knows of no
    deadline but its own, followed by the body of the [with] statement. *)
Lemma try_block_split {T} fuel records
    (body : list DORecord -> M (World P) T) l0 :
  try_block provider env fuel records body l0
  = mbind (before_yield provider env fuel records)
      (fun _ l => outside (body (dns_records l)) l) l0.
Proof.
  unfold try_block, before_yield, mbind.
  destruct (create_all provider records l0) as [[[]|e|] l1]; reflexivity.
Qed.

(** [delete_record] does not look at the trace. *)
Lemma run_callbacks_similar stack pending (wa wb : World P) :
  same_but_deadlines wa wb ->
  fst (ExitStack.run_callbacks provider stack pending wa)
  = fst (ExitStack.run_callbacks provider stack pending wb)
  /\ same_but_deadlines
       (snd (ExitStack.run_callbacks provider stack pending wa))
       (snd (ExitStack.run_callbacks provider stack pending wb)).
Proof.
  revert pending wa wb.
  induction stack as [|record stack IH]; intros pending wa wb Hsim.
  - now split.
  - destruct Hsim as (Hp & Hc & Hr & Ha & Ht).
    simpl. unfold provider_delete. rewrite Hp.
    destruct (delete_record provider record (provider_state wb))
      as [[[]|e|] p'].
    + apply IH. unfold same_but_deadlines, log. simpl.
      rewrite !map_app, Ht. repeat split; assumption.
    + apply IH. unfold same_but_deadlines, log. simpl.
      rewrite !map_app, Ht. repeat split; assumption.
    + simpl. split; [reflexivity|].
      unfold same_but_deadlines, log. simpl.
      rewrite !map_app, Ht. repeat split; assumption.
Qed.

Lemma exit_similar stack (wa wb : World P) :
  same_but_deadlines wa wb ->
  fst (ExitStack.__exit__ provider stack wa)
  = fst (ExitStack.__exit__ provider stack wb)
  /\ same_but_deadlines (snd (ExitStack.__exit__ provider stack wa))
                        (snd (ExitStack.__exit__ provider stack wb)).
Proof.
  intros Hsim. unfold ExitStack.__exit__, mbind.
  destruct (run_callbacks_similar stack None wa wb Hsim) as [Hr Hw].
  destruct (ExitStack.run_callbacks provider stack None wa) as [ra wa'].
  destruct (ExitStack.run_callbacks provider stack None wb) as [rb wb'].
  simpl in Hr, Hw. subst rb.
  destruct ra as [[exc|]|exc|]; now split.
Qed.

(** Two bodies that end alike, in worlds that differ at most in the
    deadlines recorded, make the [with] statement end alike. *)
Lemma with_statement_similar {T} fuel records
    (body1 body2 : list DORecord -> M (World P) T) w :
  (forall dns w0,
      fst (body1 dns w0) = fst (body2 dns w0)
      /\ same_but_deadlines (snd (body1 dns w0)) (snd (body2 dns w0))) ->
  fst (temporary_txt_records provider env fuel records body1 w)
  = fst (temporary_txt_records provider env fuel records body2 w)
  /\ same_but_deadlines
       (snd (temporary_txt_records provider env fuel records body1 w))
       (snd (temporary_txt_records provider env fuel records body2 w)).
Proof.
  intros Hbody. unfold temporary_txt_records.
  rewrite !try_block_split. unfold mbind.
  destruct (before_yield provider env fuel records
              (mkLocals ExitStack.empty [] w)) as [[[]|e|] l];
    try (split; [reflexivity|apply similar_refl]).
  unfold outside. destruct (Hbody (dns_records l) (world l)) as [Hr Hw].
  destruct (body1 (dns_records l) (world l)) as [r1 w1].
  destruct (body2 (dns_records l) (world l)) as [r2 w2].
  simpl in Hr, Hw. subst r2. cbn [stack world].
  destruct (exit_similar (stack l) w1 w2 Hw) as [Hre Hwe].
  destruct (ExitStack.__exit__ provider (stack l) w1) as [ra wa].
  destruct (ExitStack.__exit__ provider (stack l) w2) as [rb wb].
  simpl in Hre, Hwe. subst rb.
  destruct r1 as [a|e|]; destruct ra as [[]|exc|]; now split.
Qed.

(** The body of the [with] statement of [__call__] under two deadlines
    between which the ACME client makes no difference. *)
Lemma with_body_similar order challenges responses d1 d2 (w0 : World P) :
  acme_poll_and_finalize env order d1 = acme_poll_and_finalize env order d2 ->
  fst ((answer_all env 0 challenges responses >>
        poll_and_finalize env order d1) w0)
  = fst ((answer_all env 0 challenges responses >>
          poll_and_finalize env order d2) w0)
  /\ same_but_deadlines
       (snd ((answer_all env 0 challenges responses >>
              poll_and_finalize env order d1) w0))
       (snd ((answer_all env 0 challenges responses >>
              poll_and_finalize env order d2) w0)).
Proof.
  intros Hacme. unfold mbind.
  destruct (answer_all env 0 challenges responses w0) as [[[]|e|] w1];
    try (split; [reflexivity|apply similar_refl]).
  unfold poll_and_finalize. rewrite Hacme.
  destruct (acme_poll_and_finalize env order d2); simpl;
    (split; [reflexivity|]);
    unfold same_but_deadlines, log; simpl; rewrite !map_app;
    repeat split.
Qed.

End Deadline.

(** ** The deadline of the wait *)

Module TraceFacts.
Import Spec.

Lemma emits_unique {P : Type} (w w' : World P) (tr1 tr2 : list Event) :
  emits w w' tr1 -> emits w w' tr2 -> tr1 = tr2.
Proof.
  unfold emits. intros H1 H2. rewrite H1 in H2.
  now apply app_inv_head in H2.
Qed.

(** Where a reading lies in a trace made of two parts. *)
Lemma reading_in_app (tr1 tr2 pre : list Event) (t : Z) (post : list Event) :
  (tr1 ++ tr2 = pre ++ Clock t :: post)%list ->
  (exists post1, tr1 = (pre ++ Clock t :: post1)%list
                 /\ post = (post1 ++ tr2)%list)
  \/ (exists pre2, pre = (tr1 ++ pre2)%list
                   /\ tr2 = (pre2 ++ Clock t :: post)%list).
Proof.
  revert pre. induction tr1 as [|e tr1 IH]; intros pre H; simpl in H.
  - right. now exists pre.
  - destruct pre as [|e' pre]; simpl in H.
    + injection H as -> <-. left. now exists tr1.
    + injection H as <- H. destruct (IH _ H) as [(post1 & -> & ->)|(pre2 & -> & ->)].
      * left. now exists post1.
      * right. now exists pre2.
Qed.

Lemma no_reading (tr pre : list Event) (t : Z) (post : list Event) :
  Forall no_clock tr -> tr <> (pre ++ Clock t :: post)%list.
Proof.
  intros Hall ->. apply Forall_app in Hall. destruct Hall as [_ Hall].
  inversion Hall as [|? ? Hc _]. exact Hc.
Qed.

(** A reading of a trace whose second part has none lies in the first. *)
Lemma reading_in_front (tr1 tr2 pre : list Event) (t : Z)
    (post : list Event) :
  Forall no_clock tr2 ->
  (tr1 ++ tr2 = pre ++ Clock t :: post)%list ->
  exists post1, tr1 = (pre ++ Clock t :: post1)%list
                /\ post = (post1 ++ tr2)%list.
Proof.
  intros Hno H. destruct (reading_in_app _ _ _ _ _ H)
    as [Hfront|(pre2 & _ & Htr2)]; [exact Hfront|].
  now apply no_reading in Htr2.
Qed.

(** The first reading of a trace that starts with creations. *)
Lemma first_reading (trc : list Event) (now0 : Z) (rest0 pre : list Event)
    (now : Z) (rest : list Event) :
  Forall is_create trc ->
  (trc ++ Clock now0 :: rest0 = pre ++ Clock now :: rest)%list ->
  readings pre = [] ->
  pre = trc /\ now = now0 /\ rest = rest0.
Proof.
  intros Hc. revert pre. induction Hc as [|e trc He _ IH]; intros pre H Hpre.
  - destruct pre as [|e' pre]; simpl in H.
    + now injection H as <- <-.
    + injection H as <- _. discriminate.
  - destruct pre as [|e' pre]; simpl in H.
    + injection H as -> _. contradiction.
    + injection H as <- H.
      assert (Hpre' : readings pre = []) by (destruct e; now simpl in * ).
      destruct (IH _ H Hpre') as (-> & -> & ->). auto.
Qed.

Lemma creations_no_clock (tr : list Event) :
  Forall is_create tr -> Forall no_clock tr.
Proof. apply Forall_impl. now intros []. Qed.

Lemma deletions_no_clock (tr : list Event) :
  Forall is_delete tr -> Forall no_clock tr.
Proof. apply Forall_impl. now intros []. Qed.

Section Obeys.

Variable deadline : Z.

Lemma obeys_nil (Q : Prop) : obeys deadline [] Q.
Proof. intros [|e pre] t post H; discriminate. Qed.

Lemma obeys_weaken (tr : list Event) (Q1 Q2 : Prop) :
  (Q1 -> Q2) -> obeys deadline tr Q1 -> obeys deadline tr Q2.
Proof.
  intros HQ H pre t post Htr. destruct (H pre t post Htr) as [Hb Ha].
  split; [exact Hb|]. intros Ht. destruct (Ha Ht). auto.
Qed.

Lemma obeys_other (e : Event) (tr : list Event) (Q : Prop) :
  no_clock e -> obeys deadline tr Q -> obeys deadline (e :: tr) Q.
Proof.
  intros He H [|e' pre] t post Htr; simpl in Htr.
  - injection Htr as -> _. contradiction.
  - injection Htr as _ Htr. exact (H pre t post Htr).
Qed.

(** A reading below the deadline, followed by a query. *)
Lemma obeys_poll (t : Z) (name : string) (ty : RecordType)
    (answer : result (list string)) (tr : list Event) (Q : Prop) :
  t < deadline -> obeys deadline tr Q ->
  obeys deadline (Clock t :: Resolve name ty answer :: tr) Q.
Proof.
  intros Ht H [|e' pre] t' post Htr; simpl in Htr.
  - injection Htr as <- <-. split; [eauto|lia].
  - injection Htr as _ Htr.
    exact (obeys_other (Resolve name ty answer) tr Q I H pre t' post Htr).
Qed.

(** A reading that is not below the deadline, and nothing after it. *)
Lemma obeys_last (t : Z) (Q : Prop) :
  deadline <= t -> Q -> obeys deadline [Clock t] Q.
Proof.
  intros Ht HQ [|e' pre] t' post Htr; simpl in Htr.
  - injection Htr as <- <-. split; [lia|auto].
  - injection Htr as _ Htr. now destruct pre.
Qed.

Lemma obeys_app (tr1 tr2 : list Event) (Q1 Q : Prop) :
  obeys deadline tr1 Q1 -> (Q1 -> tr2 = [] /\ Q) -> obeys deadline tr2 Q ->
  obeys deadline (tr1 ++ tr2) Q.
Proof.
  intros H1 HQ H2 pre t post Htr.
  destruct (reading_in_app _ _ _ _ _ Htr)
    as [(post1 & Htr1 & ->)|(pre2 & _ & Htr2)].
  - destruct (H1 _ _ _ Htr1) as [Hb Ha]. split.
    + intros Ht. destruct (Hb Ht) as (name & ty & answer & post' & ->).
      simpl. eauto.
    + intros Ht. destruct (Ha Ht) as [-> HQ1].
      destruct (HQ HQ1) as [-> HQ']. auto.
  - exact (H2 _ _ _ Htr2).
Qed.

End Obeys.

End TraceFacts.

Section WaitDeadline.
Import Spec TraceFacts.

Context {P : Type}.
Variable provider : Provider P.
Variable env : Env.

(** The wait for one record looks at the clock before every query, and
    stops at the first reading that is not below the deadline. *)
Lemma wait_propagation_obeys (deadline : Z) (record : DORecord)
    (fuel : nat) :
  forall (w : World P) r w',
    wait_propagation env fuel deadline record w = (r, w') ->
    exists tr, emits w w' tr /\ obeys deadline tr (r = Returned false).
Proof.
  induction fuel as [|fuel IH]; intros w r w' H.
  - injection H as <- <-. exists []. split; [apply emits_refl|].
    apply obeys_nil.
  - rewrite wait_propagation_step in H. cbv zeta in H.
    destruct (Z.ltb_spec (clock_reading env (clock_calls w)) deadline)
      as [Hlt|Hge].
    + destruct (resolver_answer env (resolver_calls w) (r_fqdn record)
                  (r_type record)) as [values|e] eqn:Ea.
      * destruct (PyStr.mem (r_data record) values).
        -- injection H as <- <-.
           exists [Clock (clock_reading env (clock_calls w));
                   Resolve (r_fqdn record) (r_type record) (Ok values)].
           split.
           ++ unfold resolve, clock, log, emits. cbn. rewrite Ea. cbn.
              now rewrite <- app_assoc.
           ++ apply obeys_poll; [exact Hlt|apply obeys_nil].
        -- destruct (IH _ _ _ H) as (tr & He & Ho).
           exists (Clock (clock_reading env (clock_calls w))
                   :: Resolve (r_fqdn record) (r_type record) (Ok values)
                   :: Sleep 2 :: tr).
           split.
           ++ unfold emits in *. rewrite He.
              unfold sleep, resolve, clock, log. cbn. rewrite Ea. cbn.
              now rewrite <- !app_assoc.
           ++ apply obeys_poll; [exact Hlt|].
              apply obeys_other; [exact I|exact Ho].
      * injection H as <- <-.
        exists [Clock (clock_reading env (clock_calls w));
                Resolve (r_fqdn record) (r_type record) (Raise e)].
        split.
        -- unfold resolve, clock, log, emits. cbn. rewrite Ea. cbn.
           now rewrite <- app_assoc.
        -- apply obeys_poll; [exact Hlt|apply obeys_nil].
    + injection H as <- <-.
      exists [Clock (clock_reading env (clock_calls w))].
      split; [reflexivity|]. now apply obeys_last.
Qed.

(** The waits for the records, one after the other: the first reading
    that is not below the deadline ends them all, in [TimeoutError]. *)
Lemma wait_all_obeys (deadline : Z) (fuel : nat) (records : list DORecord) :
  forall (w : World P) r w',
    wait_all env fuel deadline records w = (r, w') ->
    exists tr,
      emits w w' tr /\ obeys deadline tr (r = Raised TimeoutError).
Proof.
  induction records as [|record records IH]; intros w r w' H; simpl in H.
  - injection H as <- <-. exists []. split; [apply emits_refl|].
    apply obeys_nil.
  - unfold mbind in H.
    destruct (wait_propagation env fuel deadline record w) as [r1 w1] eqn:E1.
    destruct (wait_propagation_obeys _ _ _ _ _ _ E1) as (tr1 & He1 & Ho1).
    destruct r1 as [[|]|e|].
    + cbn [negb] in H. destruct (IH _ _ _ H) as (tr2 & He2 & Ho2).
      exists (tr1 ++ tr2)%list. split; [eauto using emits_trans|].
      apply (obeys_app deadline tr1 tr2 _ _ Ho1); [discriminate|exact Ho2].
    + cbn [negb raise] in H. injection H as <- <-.
      exists tr1. split; [exact He1|].
      apply (obeys_weaken deadline tr1 _ _ (fun _ => eq_refl) Ho1).
    + injection H as <- <-. exists tr1. split; [exact He1|].
      apply (obeys_weaken deadline tr1 (Raised e = Returned false));
        [discriminate|exact Ho1].
    + injection H as <- <-. exists tr1. split; [exact He1|].
      apply (obeys_weaken deadline tr1 (Running = Returned false));
        [discriminate|exact Ho1].
Qed.

(** The [with] statement: after the creations the clock is read, and that
    reading plus 120 seconds is the deadline of the wait; the reading that
    reaches it is followed by the deletions alone. *)
Lemma with_statement_wait {T} (fuel : nat) (records : list (string * string))
    (body : list DORecord -> M (World P) T) (w : World P) r w' :
  (forall dns, only no_clock (body dns)) ->
  temporary_txt_records provider env fuel records body w = (r, w') ->
  exists tr, emits w w' tr /\ wait_has_own_deadline tr r.
Proof.
  intros Hbody H.
  destruct (try_block provider env fuel records body
              (mkLocals ExitStack.empty [] w)) as [primary l] eqn:Et.
  destruct (finally_runs_callbacks provider env fuel records body
              _ _ _ _ _ Et H) as (trd & Hed & Hdel & Hfin).
  unfold try_block in Et. unfold mbind at 1 in Et.
  destruct (create_all provider records (mkLocals ExitStack.empty [] w))
    as [r1 l1] eqn:E1.
  destruct (create_all_registers provider _ _ _ _ E1)
    as (trc & Hec & Hcc & Hs1 & _).
  simpl in Hec, Hs1. rewrite app_nil_r in Hs1.
  assert (Hnone : forall trx,
             Forall no_clock trx ->
             wait_has_own_deadline (trc ++ trx) r).
  { intros trx Hx pre now mid t post Htr _. exfalso.
    symmetry in Htr. revert Htr. apply not_eq_sym, no_reading.
    apply Forall_app. split; [now apply creations_no_clock|exact Hx]. }
  destruct r1 as [[]|e|].
  - unfold mbind at 1 in Et. unfold outside at 1 in Et.
    cbn [clock fst snd world] in Et.
    unfold mbind at 1 in Et. unfold outside at 1 in Et.
    cbn [world dns_records stack] in Et.
    set (now0 := clock_reading env (clock_calls (world l1))) in *.
    set (w1 := log (Clock now0) _) in *.
    assert (He1 : emits (world l1) w1 [Clock now0]) by reflexivity.
    destruct (wait_all env fuel (float_add now0 120) (dns_records l1) w1)
      as [rw ww] eqn:Ew.
    destruct (wait_all_obeys _ _ _ _ _ _ Ew) as (trw & Hew & Ho).
    assert (Hshape : forall trb,
               Forall no_clock trb ->
               (rw = Raised TimeoutError ->
                trb = []
                /\ (r <> Running ->
                    deleted trd = rev (created trc)
                    /\ r = match last_failure (failed_deletions trd) with
                           | Some e => Raised e
                           | None => Raised TimeoutError
                           end)) ->
               wait_has_own_deadline
                 (trc ++ Clock now0 :: trw ++ trb ++ trd) r).
    { intros trb Hnb Htimeout pre now mid t post Htr Hpre.
      destruct (first_reading _ _ _ _ _ _ Hcc Htr Hpre) as (-> & -> & Hrest).
      destruct (reading_in_front trw (trb ++ trd) mid t post) as
        (post1 & Htrw & ->).
      { apply Forall_app. split; [exact Hnb|].
        now apply deletions_no_clock. }
      { now symmetry. }
      destruct (Ho _ _ _ Htrw) as [Hb Ha]. split.
      - intros Ht. destruct (Hb Ht) as (name & ty & answer & post' & ->).
        simpl. eauto.
      - intros Ht. destruct (Ha Ht) as [-> Hrw].
        destruct (Htimeout Hrw) as [-> Hres]. simpl.
        split; [exact Hdel|exact Hres]. }
    destruct rw as [[]|e|].
    + unfold outside in Et. cbn [world dns_records stack] in Et.
      destruct (body (dns_records l1) ww) as [rb wb] eqn:Eb.
      destruct (Hbody _ _ _ _ Eb) as (trb & Heb & Hnb).
      injection Et as <- <-. cbn [world stack] in *.
      exists (trc ++ Clock now0 :: trw ++ trb ++ trd)%list. split.
      * change (Clock now0 :: trw ++ trb ++ trd)%list
          with ([Clock now0] ++ trw ++ trb ++ trd)%list.
        eauto using emits_trans.
      * apply Hshape; [exact Hnb|discriminate].
    + injection Et as <- <-. cbn [world stack] in *.
      exists (trc ++ Clock now0 :: trw ++ [] ++ trd)%list. split.
      * change (Clock now0 :: trw ++ [] ++ trd)%list
          with ([Clock now0] ++ trw ++ trd)%list.
        eauto using emits_trans.
      * apply Hshape; [constructor|]. intros [= ->].
        split; [reflexivity|]. intros Hr.
        destruct (Hfin Hr) as [Hs Hres]. split; [congruence|exact Hres].
    + injection Et as <- <-. cbn [world stack] in *.
      exists (trc ++ Clock now0 :: trw ++ [] ++ trd)%list. split.
      * change (Clock now0 :: trw ++ [] ++ trd)%list
          with ([Clock now0] ++ trw ++ trd)%list.
        eauto using emits_trans.
      * apply Hshape; [constructor|discriminate].
  - injection Et as <- <-. exists (trc ++ trd)%list.
    split; [eauto using emits_trans|].
    apply Hnone. now apply deletions_no_clock.
  - injection Et as <- <-. exists (trc ++ trd)%list.
    split; [eauto using emits_trans|].
    apply Hnone. now apply deletions_no_clock.
Qed.

Lemma only_mbind {T U} (p : Event -> Prop) (m : M (World P) T)
    (k : T -> M (World P) U) :
  only p m -> (forall a, only p (k a)) -> only p (mbind m k).
Proof.
  intros Hm Hk w r w' H. unfold mbind in H.
  destruct (m w) as [[a|e|] w1] eqn:E;
    destruct (Hm _ _ _ E) as (tr1 & He1 & Hp1).
  - destruct (Hk a _ _ _ H) as (tr2 & He2 & Hp2).
    exists (tr1 ++ tr2)%list. split; [eauto using emits_trans|].
    apply Forall_app. now split.
  - injection H as <- <-. eauto.
  - injection H as <- <-. eauto.
Qed.

Lemma answer_all_no_clock index challenges responses :
  only (P := P) no_clock (answer_all env index challenges responses).
Proof.
  revert index.
  induction challenges as [|c cs IH]; intros index; simpl.
  - intros w r w' [= <- <-]. exists []. auto using emits_refl.
  - destruct (nth_error responses index) as [answer|].
    + apply only_mbind; [|intros _; apply IH].
      intros w r w' H. unfold answer_challenge in H.
      destruct (acme_answer_challenge env (answer_calls w) c answer);
        injection H as <- <-; eexists [_]; (split; [reflexivity|]);
        repeat constructor.
    + intros w r w' [= <- <-]. exists []. auto using emits_refl.
Qed.

(** The talk with the ACME client reads no clock. *)
Lemma with_body_no_clock order challenges responses (d : option Z) :
  only (P := P) no_clock
    (answer_all env 0 challenges responses >>
     poll_and_finalize env order d).
Proof.
  apply only_mbind; [apply answer_all_no_clock|]. intros _.
  intros w r w' H. unfold poll_and_finalize in H.
  destruct (acme_poll_and_finalize env order d);
    injection H as <- <-; eexists [_]; (split; [reflexivity|]);
    repeat constructor.
Qed.

(** A run of [__call__]. *)
Lemma call_wait (fuel : nat) (domains : list string) (d : option Z)
    (w : World P) r w' :
  __call__ provider env fuel domains d w = (r, w') ->
  exists tr, emits w w' tr /\ wait_has_own_deadline tr r.
Proof.
  intros H. unfold __call__ in H. unfold mbind at 1 in H.
  unfold new_order in H.
  assert (Hstop : forall e,
             (Raised e, log (NewOrder domains) w) = (r, w') ->
             exists tr, emits w w' tr /\ wait_has_own_deadline tr r).
  { intros e [= <- <-]. exists [NewOrder domains]. split; [reflexivity|].
    intros pre now mid t post Htr _. exfalso.
    revert Htr. apply no_reading. repeat constructor. }
  destruct (acme_new_order env domains) as [order|e];
    cbn [lift ret raise] in H; [|now apply (Hstop e)].
  destruct (flat_map (filter Acme.is_dns01) (Acme.authorizations order))
    as [|c cs]; [now apply (Hstop RuntimeError)|].
  unfold mbind at 1 in H.
  destruct (verification_tokens 0 domains (map Acme.validation (c :: cs)))
    as [tokens|e]; cbn [lift ret raise] in H; [|now apply (Hstop e)].
  destruct (with_statement_wait fuel tokens _ _ _ _
              (fun _ => with_body_no_clock order _ _ d) H)
    as (tr & He & Hw).
  exists (NewOrder domains :: tr). split.
  - unfold emits in *. rewrite He. cbn [log trace].
    now rewrite <- app_assoc.
  - intros pre now mid t post Htr Hpre.
    destruct pre as [|e pre]; simpl in Htr; [discriminate|].
    injection Htr as <- Htr. exact (Hw pre now mid t post Htr Hpre).
Qed.

End WaitDeadline.

(** C5 (as the code has it). The deadline given to [__call__] reaches the
    [poll_and_finalize] call of the ACME client, unchanged, and nothing
    else.  Under two deadlines between which the ACME client makes no
    difference, the two runs end alike and do the same things: the same
    creations, the same readings of the clock, the same resolver queries
    and sleeps, the same deletions.  The wait has a deadline of its own,
    whatever the deadline of the caller is: the first reading of the clock
    in the run, which follows the creations, plus 120 seconds.  Every later
    reading that is below it is followed by a query of the resolver; one
    that is not ends the wait, and the run goes to the cleanup: only
    deletions follow, of every record created, and the run raises
    [TimeoutError], or what the last failed deletion raised. *)
Theorem deadline_reaches_only_finalize
    {P : Type} (provider : Provider P) (env : Env) (fuel : nat)
    (domains : list string) (d1 d2 : option Z) (w : World P) :
  (forall order,
      acme_poll_and_finalize env order d1
      = acme_poll_and_finalize env order d2) ->
  fst (__call__ provider env fuel domains d1 w)
  = fst (__call__ provider env fuel domains d2 w)
  /\ Spec.same_but_deadlines (snd (__call__ provider env fuel domains d1 w))
                             (snd (__call__ provider env fuel domains d2 w))
  /\ exists tr,
       Spec.emits w (snd (__call__ provider env fuel domains d1 w)) tr
       /\ Forall (eq d1) (finalize_deadlines tr)
       /\ forall pre now mid t post,
            tr = (pre ++ Clock now :: mid ++ Clock t :: post)%list ->
            readings pre = [] ->
            (t < float_add now 120 ->
             exists name ty answer post',
               post = Resolve name ty answer :: post')
            /\ (float_add now 120 <= t ->
                Forall Spec.is_delete post
                /\ (fst (__call__ provider env fuel domains d1 w)
                    <> Running ->
                    deleted post = rev (created pre)
                    /\ fst (__call__ provider env fuel domains d1 w)
                       = match Spec.last_failure (failed_deletions post) with
                         | Some e => Raised e
                         | None => Raised TimeoutError
                         end)).
Proof.
  intros Hacme.
  assert (Hsim :
    fst (__call__ provider env fuel domains d1 w)
    = fst (__call__ provider env fuel domains d2 w)
    /\ Spec.same_but_deadlines
         (snd (__call__ provider env fuel domains d1 w))
         (snd (__call__ provider env fuel domains d2 w))).
  { unfold __call__, mbind.
    destruct (new_order env domains w) as [[order|e|] w0];
      try (split; [reflexivity|apply similar_refl]).
    destruct (flat_map (filter Acme.is_dns01) (Acme.authorizations order))
      as [|c cs]; [split; [reflexivity|apply similar_refl]|].
    destruct (verification_tokens 0 domains (map Acme.validation (c :: cs)))
      as [tokens|e]; simpl lift;
      [|split; [reflexivity|apply similar_refl]].
    unfold ret. apply with_statement_similar.
    intros dns w1. apply with_body_similar, Hacme. }
  destruct Hsim as [Hr Hw]. split; [exact Hr|]. split; [exact Hw|].
  destruct (__call__ provider env fuel domains d1 w) as [r w'] eqn:E.
  destruct (call_events _ _ _ _ _ _ _ _ E)
    as (tr0 & tr1 & tr2 & tr3 & He & Hp0 & Hc1 & Hp2 & Hd3 & _).
  destruct (call_wait provider env fuel domains d1 w r w' E)
    as (tr & He' & Hwait).
  exists tr. split; [exact He'|]. split.
  - rewrite (TraceFacts.emits_unique _ _ _ _ He' He).
    rewrite !finalize_deadlines_app.
    rewrite (proj2 (only_creations _ Hc1)), (proj2 (only_deletions _ Hd3)).
    simpl. rewrite app_nil_r. apply Forall_app. split.
    + apply carries_deadlines. eapply Forall_impl; [|exact Hp0].
      now intros e [].
    + apply carries_deadlines. eapply Forall_impl; [|exact Hp2].
      now intros e [].
  - exact Hwait.
Qed.

Lemma deadline_reaches_only_finalize_witness :
  fst (__call__ (Scenario.provider_with 204) (Scenario.env_with 2 []) 200
         [Scenario.a_domain] (Some 10) (init_world []))
  = fst (__call__ (Scenario.provider_with 204) (Scenario.env_with 2 [])
           200 [Scenario.a_domain] (Some 500) (init_world []))
  /\ Spec.same_but_deadlines
       (snd (__call__ (Scenario.provider_with 204)
               (Scenario.env_with 2 []) 200 [Scenario.a_domain]
               (Some 10) (init_world [])))
       (snd (__call__ (Scenario.provider_with 204)
               (Scenario.env_with 2 []) 200 [Scenario.a_domain]
               (Some 500) (init_world [])))
  /\ exists tr,
       Spec.emits (init_world [])
         (snd (__call__ (Scenario.provider_with 204)
                 (Scenario.env_with 2 []) 200 [Scenario.a_domain]
                 (Some 10) (init_world [])))
         tr
       /\ Forall (eq (Some 10)) (finalize_deadlines tr)
       /\ forall pre now mid t post,
            tr = (pre ++ Clock now :: mid ++ Clock t :: post)%list ->
            readings pre = [] ->
            (t < float_add now 120 ->
             exists name ty answer post',
               post = Resolve name ty answer :: post')
            /\ (float_add now 120 <= t ->
                Forall Spec.is_delete post
                /\ (fst (__call__ (Scenario.provider_with 204)
                           (Scenario.env_with 2 []) 200 [Scenario.a_domain]
                           (Some 10) (init_world []))
                    <> Running ->
                    deleted post = rev (created pre)
                    /\ fst (__call__ (Scenario.provider_with 204)
                              (Scenario.env_with 2 []) 200
                              [Scenario.a_domain] (Some 10) (init_world []))
                       = match Spec.last_failure (failed_deletions post) with
                         | Some e => Raised e
                         | None => Raised TimeoutError
                         end)).
Proof.
  apply (deadline_reaches_only_finalize
           (Scenario.provider_with 204) (Scenario.env_with 2 []) 200
           [Scenario.a_domain] (Some 10) (Some 500) (init_world [])).
  intros order. reflexivity.
Defined.

(** C5 fails as stated.  The caller allows ten seconds: its deadline is the
    reading 10 of the clock.  The resolver never shows the token.  The wait
    still polls at the reading 100, ends only at the reading 120, which is
    its own deadline, and [poll_and_finalize], the one call that is given
    the caller's deadline, is never reached. *)
Lemma wait_outlives_caller_deadline :
  let env := Scenario.env_with 2 [] in
  let run := __call__ (Scenario.provider_with 204) env 200
               [Scenario.a_domain] (Some 10) (init_world []) in
  fst run = Raised TimeoutError
  /\ nth_error (trace (snd run)) 2 = Some (Clock 0)
  /\ nth_error (trace (snd run)) 150 = Some (Clock 100)
  /\ nth_error (trace (snd run)) 151
     = Some (Resolve Scenario.a_name TXT (Ok []))
  /\ last (readings (trace (snd run))) 0 = 120
  /\ finalize_deadlines (trace (snd run)) = []
  /\ deleted (trace (snd run)) = [Scenario.a_record].
Proof. vm_compute. repeat split. Qed.

(** ** The end-to-end scenarios *)

(** Scenario B: the creation for the second of two names is refused with a
    rate-limit error; the run raises it, and the record created for the first
    name is deleted. *)
Example scenario_b :
  let (r, w') := __call__ (Scenario.rate_limited_provider 1)
                   Scenario.env_two_names 5
                   [Scenario.a_domain; Scenario.b_domain] None
                   (init_world 0%nat) in
  r = Raised (RateLimitExceededError 5)
  /\ created (trace w')
     = [Scenario.plain_record (txt_options Scenario.a_name "tok1") 0]
  /\ deleted (trace w') = created (trace w')
  /\ readings (trace w') = [].
Proof. vm_compute. repeat split. Qed.

(** Scenario C: the resolver shows nothing until the 120 seconds are over;
    the run raises [TimeoutError] and deletes the record. *)
Example scenario_c :
  let (r, w') := __call__ (Scenario.provider_with 204)
                   (Scenario.env_with 5 []) 200 [Scenario.a_domain] None
                   (init_world []) in
  r = Raised TimeoutError
  /\ last (readings (trace w')) 0 = 120
  /\ deleted (trace w') = [Scenario.a_record]
  /\ finalize_deadlines (trace w') = [].
Proof. vm_compute. repeat split. Qed.

(* ================================================================== *)
(** * Further properties of the code                                   *)
(* ================================================================== *)

(** ** [get_domain] *)

Module PyStrMore.
Import PyStr.

(** Splitting the join of labels without a dot gives the labels back. *)
Lemma split_join (labels : list string) :
  labels <> [] ->
  Forall (fun label => contains dot label = false) labels ->
  split dot (join "." labels) = labels.
Proof.
  induction labels as [|x rest IH]; intros Hne Hall; [contradiction|].
  inversion Hall as [|? ? Hx Hrest]; subst. clear Hne Hall.
  destruct rest as [|y rest].
  - simpl. clear IH Hrest.
    induction x as [|a x IHx]; simpl in *; [reflexivity|].
    destruct (Ascii.eqb a dot); [discriminate|]. now rewrite (IHx Hx).
  - specialize (IH ltac:(discriminate) Hrest).
    change (join "." (x :: y :: rest))
      with (x ++ String dot (join "." (y :: rest)))%string.
    induction x as [|a x IHx]; simpl in *.
    + now rewrite IH.
    + destruct (Ascii.eqb a dot); [discriminate|]. now rewrite (IHx Hx).
Qed.

Lemma contains_app (c : ascii) (s t : string) :
  contains c (s ++ t) = contains c s || contains c t.
Proof.
  induction s as [|a s IH]; simpl; [reflexivity|].
  now destruct (Ascii.eqb a c).
Qed.

Lemma append_assoc (a b c : string) :
  ((a ++ b) ++ c = a ++ (b ++ c))%string.
Proof. induction a as [|x a IH]; simpl; [reflexivity|now rewrite IH]. Qed.

Lemma join_cons_nonempty (sep z : string) (l : list string) :
  l <> [] -> join sep (z :: l) = (z ++ sep ++ join sep l)%string.
Proof. destruct l; [contradiction|reflexivity]. Qed.

(** The join of a list that ends in [x; y] ends in [x.y], at the start of
    the string or right after a dot. *)
Lemma join_app_two (front : list string) (x y : string) :
  exists p,
    join "." (front ++ [x; y]) = (p ++ x ++ "." ++ y)%string
    /\ (p = EmptyString \/ exists q, p = (q ++ ".")%string).
Proof.
  induction front as [|z front (p & IH & Hp)].
  - exists EmptyString. split; [reflexivity|now left].
  - exists (z ++ "." ++ p)%string.
    change ((z :: front) ++ [x; y])%list with (z :: (front ++ [x; y]))%list.
    rewrite join_cons_nonempty by (destruct front; discriminate).
    rewrite IH. split; [now rewrite !append_assoc|]. right.
    destruct Hp as [->|[q ->]].
    + exists z. reflexivity.
    + exists (z ++ "." ++ q)%string. now rewrite !append_assoc.
Qed.

Lemma split_single (c : ascii) (s : string) :
  contains c s = false -> split c s = [s].
Proof.
  induction s as [|a s IH]; simpl; [reflexivity|].
  destruct (Ascii.eqb a c); [discriminate|].
  intros H. now rewrite (IH H).
Qed.

(** Splitting distributes over a dot. *)
Lemma split_app_dot (a b : string) :
  split dot (a ++ String dot b) = (split dot a ++ split dot b)%list.
Proof.
  induction a as [|c a IH]; simpl.
  - reflexivity.
  - rewrite IH. pose proof (PyStrFacts.split_not_nil dot a) as Hnil.
    destruct (Ascii.eqb c dot); [reflexivity|].
    destruct (split dot a); [contradiction|reflexivity].
Qed.

Lemma last_n_app_two {T} (l : list T) (x y : T) :
  last_n 2 (l ++ [x; y]) = [x; y].
Proof.
  unfold last_n. rewrite length_app. simpl.
  replace (List.length l + 2 - 2)%nat with (List.length l + 0)%nat by lia.
  now rewrite skipn_app, Nat.add_0_r, skipn_all, Nat.sub_diag.
Qed.

End PyStrMore.

(** What [get_domain] returns, when it returns: two labels without a dot,
    joined by a dot, which end the name at a label boundary. *)
Lemma get_domain_shape (fqdn d : string) :
  get_domain fqdn = Ok d ->
  exists p x y,
    fqdn = (p ++ x ++ "." ++ y)%string
    /\ d = (x ++ "." ++ y)%string
    /\ PyStr.contains PyStr.dot x = false
    /\ PyStr.contains PyStr.dot y = false
    /\ (p = EmptyString \/ exists q, p = (q ++ ".")%string).
Proof.
  intros H.
  assert (Hdot : PyStr.contains PyStr.dot fqdn = true).
  { unfold get_domain in H. destruct fqdn; [discriminate|].
    destruct (PyStr.contains PyStr.dot _); [reflexivity|discriminate]. }
  destruct (PyStrFacts.last_two _ (PyStrFacts.split_two _ _ Hdot))
    as (front & x & y & Hsplit & Hlast).
  assert (Hd : d = (x ++ "." ++ y)%string).
  { unfold get_domain in H. destruct fqdn; [discriminate|].
    rewrite Hdot, Hlast in H. now injection H as <-. }
  pose proof (PyStrFacts.split_pieces PyStr.dot fqdn) as Hall.
  rewrite Hsplit in Hall. apply Forall_app in Hall. destruct Hall as [_ Hxy].
  inversion Hxy as [|? ? Hx Hy']; subst.
  inversion Hy' as [|? ? Hy _]; subst.
  destruct (PyStrMore.join_app_two front x y) as (p & Hjoin & Hp).
  exists p, x, y. repeat split; try assumption.
  rewrite <- Hjoin, <- Hsplit. symmetry. apply PyStrFacts.join_split.
Qed.

Lemma get_domain_has_dot (fqdn d : string) :
  get_domain fqdn = Ok d -> PyStr.contains PyStr.dot fqdn = true.
Proof.
  unfold get_domain. destruct fqdn; [discriminate|].
  destruct (PyStr.contains PyStr.dot _); [reflexivity|discriminate].
Qed.

Lemma get_domain_of_dotted (fqdn : string) :
  PyStr.contains PyStr.dot fqdn = true ->
  get_domain fqdn
  = Ok (PyStr.join "." (PyStr.last_n 2 (PyStr.split PyStr.dot fqdn))).
Proof.
  intros H. unfold get_domain. destruct fqdn; [discriminate|].
  now rewrite H.
Qed.

Lemma get_domain_raises (fqdn : string) (e : exn) :
  get_domain fqdn = Raise e ->
  e = InvalidDomainName /\ PyStr.contains PyStr.dot fqdn = false.
Proof.
  unfold get_domain. destruct fqdn; [now intros [= <-]|].
  destruct (PyStr.contains PyStr.dot _); [discriminate|].
  now intros [= <-].
Qed.

Lemma get_domain_no_dot (fqdn : string) :
  PyStr.contains PyStr.dot fqdn = false ->
  get_domain fqdn = Raise InvalidDomainName.
Proof.
  intros H. unfold get_domain. destruct fqdn; [reflexivity|]. now rewrite H.
Qed.

(** The root domain of a name that ends in two labels [x.y], at the start
    of the name or after a dot. *)
Lemma get_domain_two_labels (p x y : string) :
  PyStr.contains PyStr.dot x = false ->
  PyStr.contains PyStr.dot y = false ->
  p = EmptyString \/ (exists q, p = (q ++ ".")%string) ->
  get_domain (p ++ x ++ "." ++ y) = Ok (x ++ "." ++ y)%string.
Proof.
  intros Hx Hy Hp.
  rewrite get_domain_of_dotted
    by (rewrite !PyStrMore.contains_app; simpl; now rewrite !orb_true_r).
  f_equal.
  change (x ++ "." ++ y)%string with (x ++ String PyStr.dot y)%string.
  destruct Hp as [->|[q ->]].
  - change (EmptyString ++ x ++ String PyStr.dot y)%string
      with (x ++ String PyStr.dot y)%string.
    rewrite PyStrMore.split_app_dot, !PyStrMore.split_single by assumption.
    reflexivity.
  - rewrite PyStrMore.append_assoc.
    change ("." ++ x ++ String PyStr.dot y)%string
      with (String PyStr.dot (x ++ String PyStr.dot y)).
    rewrite !PyStrMore.split_app_dot, (PyStrMore.split_single _ x Hx),
      (PyStrMore.split_single _ y Hy).
    change ([x] ++ [y])%list with [x; y].
    now rewrite PyStrMore.last_n_app_two.
Qed.

(** X1. [get_domain] is idempotent, and blind to what precedes the last two
    labels: the root domain of a root domain is itself, and so is the root
    domain of every name made by putting labels in front of it. *)
Theorem get_domain_idempotent (fqdn d : string) :
  get_domain fqdn = Ok d ->
  get_domain d = Ok d
  /\ forall sub, get_domain (sub ++ "." ++ d) = Ok d.
Proof.
  intros H.
  destruct (get_domain_shape _ _ H) as (p & x & y & _ & -> & Hx & Hy & _).
  split.
  - apply (get_domain_two_labels EmptyString); auto.
  - intros sub.
    replace (sub ++ "." ++ x ++ "." ++ y)%string
      with ((sub ++ ".") ++ x ++ "." ++ y)%string
      by now rewrite PyStrMore.append_assoc.
    apply get_domain_two_labels; eauto.
Qed.

Lemma get_domain_idempotent_witness :
  get_domain "example.com" = Ok "example.com"
  /\ forall sub, get_domain (sub ++ "." ++ "example.com") = Ok "example.com".
Proof.
  apply (get_domain_idempotent "_acme-challenge.www.example.com").
  reflexivity.
Defined.

(** X2. A name written with a trailing dot: [get_domain] returns its last
    label followed by the dot, not the registered domain. *)
Theorem get_domain_trailing_dot (name tld : string) :
  PyStr.contains PyStr.dot tld = false ->
  get_domain (name ++ "." ++ tld ++ ".") = Ok (tld ++ ".")%string.
Proof.
  intros Htld. unfold get_domain.
  assert (Hdot : PyStr.contains PyStr.dot (name ++ "." ++ tld ++ ".") = true).
  { rewrite PyStrMore.contains_app. simpl. apply orb_true_r. }
  destruct (name ++ "." ++ tld ++ ".")%string as [|a s] eqn:E.
  - destruct name; discriminate.
  - rewrite Hdot. simpl negb. cbv iota. rewrite <- E.
    change (name ++ "." ++ tld ++ ".")%string
      with (name ++ String PyStr.dot (tld ++ String PyStr.dot ""))%string.
    rewrite !PyStrMore.split_app_dot, (PyStrMore.split_single _ tld Htld).
    simpl (PyStr.split PyStr.dot "").
    change ([tld] ++ [EmptyString])%list with [tld; EmptyString].
    now rewrite PyStrMore.last_n_app_two.
Qed.

Lemma get_domain_trailing_dot_witness :
  get_domain "www.example.com." = Ok "com.".
Proof.
  apply (get_domain_trailing_dot "www.example" "com"). reflexivity.
Defined.

(** ** [raise_for_status], beyond the statuses of the claims *)

Lemma raise_for_status_success (now : Z) (response : Http.Response) :
  200 <= Http.status_code response < 300 ->
  DigitalOcean.raise_for_status now response = Ok tt.
Proof.
  intros H. destruct response as [status hs b]. cbn [Http.status_code] in H.
  rewrite raise_for_status_other by lia.
  replace ((200 <=? status) && (status <? 300)) with true; [reflexivity|].
  symmetry. apply andb_true_iff. split; [apply Z.leb_le|apply Z.ltb_lt]; lia.
Qed.

Lemma raise_for_status_returns (now : Z) (response : Http.Response) (u : unit) :
  DigitalOcean.raise_for_status now response = Ok u ->
  200 <= Http.status_code response < 300.
Proof.
  destruct response as [status hs b].
  unfold DigitalOcean.raise_for_status. cbn [Http.status_code Http.headers].
  destruct (Z.eqb_spec status 404); [discriminate|].
  destruct (Z.eqb_spec status 401); [discriminate|].
  destruct (Z.eqb_spec status 429).
  { destruct (Http.headers_get _ hs); discriminate. }
  destruct (Z.eqb_spec status 500).
  { unfold Http.json. cbn. destruct b; discriminate. }
  destruct (Z.eqb_spec status 422).
  { unfold Http.json. cbn. destruct b; discriminate. }
  unfold Http.httpx_raise_for_status. cbn [Http.status_code].
  destruct (Z.leb_spec 200 status); destruct (Z.ltb_spec status 300);
    cbn [andb]; try discriminate. lia.
Qed.

(** X3. [raise_for_status] returns exactly for the statuses 200 to 299:
    every other status, whatever the headers and the body of the response,
    ends in an exception. *)
Theorem raise_for_status_returns_iff_success
    (now : Z) (response : Http.Response) :
  DigitalOcean.raise_for_status now response = Ok tt
  <-> 200 <= Http.status_code response < 300.
Proof.
  split; [apply raise_for_status_returns|apply raise_for_status_success].
Qed.

(** X4. [raise_for_status] never raises [RateLimitExceededError].  On the
    status 429 it subtracts the clock reading from the [ratelimit-reset]
    header, which is a string or is absent, and that ends in [TypeError]. *)
Theorem rate_limit_error_is_never_raised
    (now : Z) (response : Http.Response) :
  (forall minutes,
      DigitalOcean.raise_for_status now response
      <> Raise (RateLimitExceededError minutes))
  /\ (Http.status_code response = 429 ->
      DigitalOcean.raise_for_status now response = Raise TypeError).
Proof.
  destruct response as [status hs b]. cbn [Http.status_code].
  split.
  - intros minutes.
    unfold DigitalOcean.raise_for_status. cbn [Http.status_code Http.headers].
    destruct (status =? 404); [discriminate|].
    destruct (status =? 401); [discriminate|].
    destruct (status =? 429).
    { destruct (Http.headers_get _ hs); discriminate. }
    destruct (status =? 500).
    { unfold Http.json. cbn. destruct b; discriminate. }
    destruct (status =? 422).
    { unfold Http.json. cbn. destruct b; discriminate. }
    unfold Http.httpx_raise_for_status.
    destruct (_ && _); discriminate.
  - intros ->. apply raise_for_status_429.
Qed.

Lemma rate_limit_error_is_never_raised_witness :
  DigitalOcean.raise_for_status 43200
    (Http.mkResponse 429 [("ratelimit-reset", "43500")] None)
  = Raise TypeError.
Proof.
  apply (proj2 (rate_limit_error_is_never_raised 43200
                  (Http.mkResponse 429 [("ratelimit-reset", "43500")] None))).
  reflexivity.
Defined.

(** ** [RecordType] and the module-level [create_record] *)

Lemma RecordType_eqb_eq (a b : RecordType) :
  RecordType_eqb a b = true <-> a = b.
Proof. destruct a, b; simpl; split; congruence. Qed.

Lemma RecordType_of_value (t : RecordType) :
  RecordType_of (RecordType_value t) = Ok t.
Proof. now destruct t. Qed.

Lemma RecordType_of_inv (s : string) (t : RecordType) :
  RecordType_of s = Ok t -> RecordType_value t = s.
Proof.
  unfold RecordType_of.
  repeat match goal with
         | |- context [String.eqb s ?v] =>
             destruct (String.eqb_spec s v) as [->|_];
               [now intros [= <-]|]
         end.
  discriminate.
Qed.

(** What the module-level [create_record] builds, when it returns. *)
Lemma create_record_built (name : string) (values : Http.Item) (r : DORecord) :
  DigitalOcean.create_record name values = Ok r ->
  r_fqdn r = name
  /\ get_domain name = Ok (r_domain r)
  /\ Http.i_type values = Some (RecordType_value (r_type r))
  /\ Http.i_name values = Some (r_name r)
  /\ Http.i_data values = Some (r_data r)
  /\ r_ttl r = Http.i_ttl values
  /\ resource_id r <> None
  /\ Http.i_id values = resource_id r.
Proof.
  unfold DigitalOcean.create_record, DigitalOcean.getitem, bind.
  destruct values as [ty nm dt ttl id]. cbn.
  destruct ty as [ty|]; [|discriminate].
  destruct (RecordType_of ty) as [t|] eqn:Et; [|discriminate].
  destruct (get_domain name) as [d|]; [|discriminate].
  destruct nm as [nm|]; [|discriminate].
  destruct dt as [dt|]; [|discriminate].
  destruct id as [id|]; [|discriminate].
  intros [= <-]. cbn. apply RecordType_of_inv in Et. subst ty.
  repeat split. discriminate.
Qed.

Lemma create_records_built (name : string) (items : list Http.Item)
    (rs : list DORecord) :
  DigitalOcean.create_records name items = Ok rs ->
  Forall2 (fun item r => DigitalOcean.create_record name item = Ok r)
          items rs.
Proof.
  revert rs. induction items as [|item items IH]; intros rs; simpl.
  - intros [= <-]. constructor.
  - unfold bind at 1.
    destruct (DigitalOcean.create_record name item) as [r|] eqn:Er;
      [|discriminate].
    unfold bind.
    destruct (DigitalOcean.create_records name items) as [rs'|];
      [|discriminate].
    intros [= <-]. constructor; [exact Er|now apply IH].
Qed.

(** X5. The module-level [create_record] returns a record exactly when the
    values hold a type that names a member of [RecordType], a name, a data
    and an id, and the name given has a root domain; the [ttl] may be
    missing.  The record then carries the name given as its [fqdn], that
    name's root domain, and the values as they came. *)
Theorem create_record_from_values
    (name : string) (values : Http.Item) (r : DORecord) :
  DigitalOcean.create_record name values = Ok r
  <-> exists domain id,
        get_domain name = Ok domain
        /\ Http.i_type values = Some (RecordType_value (r_type r))
        /\ Http.i_name values = Some (r_name r)
        /\ Http.i_data values = Some (r_data r)
        /\ Http.i_id values = Some id
        /\ r = mkRecord domain (r_type r) name (r_name r) (r_data r)
                 (Http.i_ttl values) (Some id).
Proof.
  split.
  - intros H. destruct (create_record_built _ _ _ H)
      as (Hf & Hd & Hty & Hn & Hda & Httl & Hid & Hid').
    destruct r as [d t f n da ttl [id|]]; cbn in *; [|contradiction].
    exists d, id. subst. repeat split; assumption.
  - intros (domain & id & Hd & Hty & Hn & Hda & Hid & ->).
    cbn in *. unfold DigitalOcean.create_record, DigitalOcean.getitem, bind.
    rewrite Hty, RecordType_of_value, Hd, Hn, Hda, Hid. reflexivity.
Qed.

(** ** The provider adapter, beyond the claims *)

Module PrefixFacts.

Lemma prefix_cons (a b : ascii) (s1 s2 : string) :
  String.prefix (String a s1) (String b s2)
  = if ascii_dec a b then String.prefix s1 s2 else false.
Proof. reflexivity. Qed.

Lemma prefix_app (sep r : string) : String.prefix sep (sep ++ r) = true.
Proof.
  induction sep as [|a sep IH]; simpl; [now destruct r|].
  destruct (ascii_dec a a); [exact IH|contradiction].
Qed.

Lemma prefix_inv (sep s : string) :
  String.prefix sep s = true -> exists r, s = (sep ++ r)%string.
Proof.
  revert s. induction sep as [|a sep IH]; intros s.
  - intros _. now exists s.
  - destruct s as [|b s]; [discriminate|]. simpl.
    destruct (ascii_dec a b) as [->|]; [|discriminate].
    intros H. destruct (IH _ H) as [r ->]. now exists r.
Qed.

(** [s.split(sep)[0]], when [sep] occurs in [s]: what precedes the first
    occurrence. *)
Lemma split_head_first (sep s p r : string) :
  sep <> EmptyString ->
  s = (p ++ sep ++ r)%string ->
  (exists r', s = (PyStr.split_head sep s ++ sep ++ r')%string)
  /\ (String.length (PyStr.split_head sep s) <= String.length p)%nat.
Proof.
  intros Hsep. revert p.
  induction s as [|a s IH]; intros p Hs.
  - destruct p; [|discriminate]. destruct sep; [contradiction|discriminate].
  - cbn [PyStr.split_head].
    destruct (String.prefix sep (String a s)) eqn:Ep.
    + split; [|simpl; lia]. apply prefix_inv in Ep. exact Ep.
    + destruct p as [|b p].
      * simpl in Hs. rewrite Hs, prefix_app in Ep. discriminate.
      * simpl in Hs. injection Hs as <- Hs.
        destruct (IH p Hs) as [[r' Hr'] Hlen].
        split; [|simpl; lia].
        exists r'. simpl. now rewrite <- Hr'.
Qed.

(** A label without a dot that precedes the separator is what
    [split_head] returns, when the separator starts with a dot. *)
Lemma split_head_label (sep sub r : string) :
  PyStr.contains PyStr.dot sub = false ->
  PyStr.split_head ("." ++ sep) (sub ++ "." ++ sep ++ r) = sub.
Proof.
  intros Hsub. induction sub as [|a sub IH].
  - change (EmptyString ++ "." ++ sep ++ r)%string
      with (("." ++ sep) ++ r)%string.
    destruct (("." ++ sep) ++ r)%string eqn:E; [reflexivity|].
    cbn [PyStr.split_head]. rewrite <- E, prefix_app. reflexivity.
  - simpl in Hsub. destruct (Ascii.eqb_spec a PyStr.dot) as [|Hne];
      [discriminate|].
    change (String a sub ++ "." ++ sep ++ r)%string
      with (String a (sub ++ "." ++ sep ++ r))%string.
    cbn [PyStr.split_head].
    replace (String.prefix ("." ++ sep) (String a (sub ++ "." ++ sep ++ r)))
      with false.
    + now rewrite IH.
    + change ("." ++ sep)%string with (String "." sep).
      rewrite prefix_cons.
      destruct (ascii_dec "." a) as [<-|]; [|reflexivity].
      now destruct Hne.
Qed.

End PrefixFacts.

Section ProviderMore.
Import Http DigitalOcean Spec.

Variable api : list Request -> Request -> result Response.
Variable time_time : list Request -> Z.

Lemma check_record_type_cases (t : RecordType) :
  (t = SOA /\ _check_record_type t = Raise InvalidRecordType)
  \/ (t <> SOA /\ _check_record_type t = Ok t).
Proof. unfold _check_record_type. destruct t; simpl; auto; right; now split. Qed.

(** What [_get_records] has sent when it ends: nothing, if it raised
    before its request, and else the one listing request. *)
Lemma get_records_log name t log r log' :
  _get_records api time_time name t log = (r, log') ->
  (log' = log /\ ((t = SOA /\ r = Raised InvalidRecordType)
                  \/ (t <> SOA /\ exists e, get_domain name = Raise e
                                            /\ r = Raised e)))
  \/ exists domain,
       t <> SOA /\ get_domain name = Ok domain
       /\ log' = (log ++ [list_request domain name t])%list.
Proof.
  unfold _get_records, _check_record_type, mbind, lift, send, check_status.
  destruct (RecordType_eqb t SOA) eqn:Et; cbn [ret raise].
  { apply RecordType_eqb_eq in Et. intros [= <- <-]. left. auto. }
  assert (Hsoa : t <> SOA).
  { intros ->. discriminate. }
  destruct (get_domain name) as [domain|e] eqn:Ed; cbn [ret raise].
  2: { intros [= <- <-]. left. split; [reflexivity|]. right. eauto. }
  fold (list_request domain name t).
  intros H. right. exists domain. split; [exact Hsoa|].
  split; [reflexivity|].
  destruct (api log (list_request domain name t)) as [response|e];
    [|now injection H as _ <-].
  destruct (raise_for_status _ response); cbn [ret raise] in H;
    [|now injection H as _ <-].
  destruct (json response); cbn [ret raise] in H; [|now injection H as _ <-].
  destruct (create_records domain _); cbn [ret raise] in H;
    now injection H as _ <-.
Qed.

(** [_get_records] has no loop that could go on. *)
Lemma get_records_ends name t log :
  fst (_get_records api time_time name t log) <> Running.
Proof.
  unfold _get_records, _check_record_type, mbind, lift, send, check_status.
  destruct (RecordType_eqb t SOA); cbn [ret raise]; [discriminate|].
  destruct (get_domain name) as [domain|e]; cbn [ret raise]; [|discriminate].
  destruct (api log _) as [response|e]; [|discriminate].
  destruct (raise_for_status _ response); cbn [ret raise]; [|discriminate].
  destruct (json response); cbn [ret raise]; [|discriminate].
  destruct (create_records domain _); discriminate.
Qed.

(** The records of a listing are built from the root domain: it is the
    root domain they carry as their [fqdn]. *)
Lemma get_records_built name t log rs log' :
  _get_records api time_time name t log = (Returned rs, log') ->
  exists domain,
    get_domain name = Ok domain
    /\ Forall (fun r => r_fqdn r = domain /\ r_domain r = domain
                        /\ resource_id r <> None) rs.
Proof.
  unfold _get_records, _check_record_type, mbind, lift, send, check_status.
  destruct (RecordType_eqb t SOA); [discriminate|]. cbn [ret].
  destruct (get_domain name) as [domain|] eqn:Ed; [|discriminate]. cbn [ret].
  destruct (api log _) as [response|]; [|discriminate].
  destruct (raise_for_status _ response); [|discriminate]. cbn [ret].
  destruct (json response) as [b|]; [|discriminate]. cbn [ret].
  destruct (create_records domain _) as [rs'|] eqn:Ers; [|discriminate].
  cbn [ret]. intros [= <- _]. exists domain. split; [reflexivity|].
  apply create_records_built in Ers.
  destruct (get_domain_shape _ _ Ed) as (p & x & y & _ & -> & Hx & Hy & _).
  pose proof (get_domain_two_labels EmptyString x y Hx Hy (or_introl eq_refl))
    as Hroot.
  change (EmptyString ++ x ++ "." ++ y)%string
    with (x ++ "." ++ y)%string in Hroot.
  induction Ers as [|item r items rs' Hr _ IH]; constructor; [|exact IH].
  destruct (create_record_built _ _ _ Hr) as (Hf & Hd & _ & _ & _ & _ & Hid & _).
  repeat split; [exact Hf| |exact Hid]. congruence.
Qed.

(** [create_new] sends the creation request, and nothing else. *)
Lemma create_new_log options log domain :
  get_domain (fqdn options) = Ok domain ->
  snd (create_new api time_time (record_type options) options log)
  = (log ++ [create_request domain options])%list.
Proof.
  intros Hdom. now apply (create_new_writes api time_time options log domain).
Qed.

(** What [create_new] returns was built from the name asked for. *)
Lemma create_new_built options log r log' :
  create_new api time_time (record_type options) options log
  = (Returned r, log') ->
  exists response b,
    api log (create_request
               match get_domain (fqdn options) with
               | Ok domain => domain
               | Raise _ => EmptyString
               end options) = Ok response
    /\ 200 <= status_code response < 300
    /\ body response = Some b
    /\ create_record (fqdn options)
         match domain_record b with Some i => i | None => empty_item end
       = Ok r.
Proof.
  unfold create_new, mbind, send, check_status.
  destruct (get_domain (fqdn options)) as [domain|]; [|discriminate].
  cbn [lift ret]. fold (create_request domain options).
  destruct (api log (create_request domain options)) as [response|] eqn:Ea;
    [|discriminate].
  destruct (raise_for_status _ response) as [[]|] eqn:Es; [|discriminate].
  cbn [lift ret]. unfold json.
  destruct (body response) as [b|] eqn:Eb; [|discriminate]. cbn [lift ret].
  destruct (create_record _ _) as [r'|] eqn:Er; [|discriminate].
  cbn [lift ret]. intros [= <- _].
  apply raise_for_status_returns in Es.
  exists response, b. split; [reflexivity|]. split; [exact Es|].
  split; [exact Eb|exact Er].
Qed.

(** [create_record], by the way its listing ends. *)
Lemma create_record_cases options log :
  record_type options <> SOA ->
  provider_create_record api time_time options log
  = match _get_records api time_time (fqdn options) (record_type options) log
    with
    | (Returned [], log') =>
        create_new api time_time (record_type options) options log'
    | (Returned (r :: _), log') =>
        if String.eqb (r_data r) (record_value options)
           && match r_ttl r with
              | Some t => t =? record_ttl options
              | None => false
              end
        then (Returned r, log')
        else if append options
             then create_new api time_time (record_type options) options log'
             else (Raised RecordAlreadyExistsError, log')
    | (Raised RecordAlreadyExistsError, log') =>
        if append options
        then create_new api time_time (record_type options) options log'
        else (Raised RecordAlreadyExistsError, log')
    | (Raised e, log') => (Raised e, log')
    | (Running, log') => (Running, log')
    end.
Proof.
  intros Hsoa.
  destruct (check_record_type_cases (record_type options)) as [[? _]|[_ Hty]];
    [contradiction|].
  unfold provider_create_record, _check_record, mbind.
  rewrite Hty. cbn [lift ret].
  destruct (_get_records api time_time (fqdn options) (record_type options)
              log) as [[[|r rest]|e|] log'].
  - reflexivity.
  - unfold check_loop.
    destruct (String.eqb _ _ && _); cbn [lift ret raise nth_error];
      [reflexivity|].
    now destruct (append options).
  - destruct e; try reflexivity. now destruct (append options).
  - reflexivity.
Qed.

Lemma create_record_soa options log :
  record_type options = SOA ->
  provider_create_record api time_time options log
  = (Raised InvalidRecordType, log).
Proof.
  intros H. unfold provider_create_record, mbind. now rewrite H.
Qed.

Lemma create_record_no_domain options log :
  record_type options <> SOA ->
  PyStr.contains PyStr.dot (fqdn options) = false ->
  provider_create_record api time_time options log
  = (Raised InvalidDomainName, log).
Proof.
  intros Hsoa Hdot. rewrite create_record_cases by assumption.
  destruct (_get_records _ _ _ _ _) as [lr log'] eqn:Eg.
  apply get_domain_no_dot in Hdot.
  destruct (get_records_log _ _ _ _ _ Eg)
    as [[-> [[? _]|[_ (e & He & ->)]]]|(domain & _ & Hd & _)];
    [contradiction| |congruence].
  rewrite Hdot in He. now injection He as <-.
Qed.

(** The requests of a call of [create_record]. *)
Lemma create_record_log options log domain :
  record_type options <> SOA ->
  get_domain (fqdn options) = Ok domain ->
  let sent := snd (provider_create_record api time_time options log) in
  let listed :=
    (log ++ [list_request domain (fqdn options) (record_type options)])%list in
  snd (_get_records api time_time (fqdn options) (record_type options) log)
  = listed
  /\ (sent = listed
      \/ provider_create_record api time_time options log
         = create_new api time_time (record_type options) options listed
         /\ sent = (listed ++ [create_request domain options])%list).
Proof.
  intros Hsoa Hd. cbv zeta. rewrite create_record_cases by assumption.
  destruct (_get_records _ _ _ _ _) as [lr log'] eqn:Eg.
  destruct (get_records_log _ _ _ _ _ Eg)
    as [[_ [[? _]|[_ (e & He & _)]]]|(domain' & _ & Hd' & ->)];
    [contradiction|congruence|].
  assert (domain' = domain) by congruence. subst domain'.
  split; [reflexivity|].
  pose proof (create_new_log options
                (log ++ [list_request domain (fqdn options)
                           (record_type options)])%list domain Hd) as Hnew.
  destruct lr as [[|r rest]|e|].
  - right. now split.
  - destruct (String.eqb _ _ && _); [now left|].
    destruct (append options); [right; now split|now left].
  - destruct e; try (now left).
    destruct (append options); [right; now split|now left].
  - now left.
Qed.

End ProviderMore.

Section ProviderReturns.
Import Http DigitalOcean Spec.

Variable api : list Request -> Request -> result Response.
Variable time_time : list Request -> Z.

(** A record [create_new] returns carries the name asked for. *)
Lemma create_new_returned options log domain r log' :
  get_domain (fqdn options) = Ok domain ->
  create_new api time_time (record_type options) options log
  = (Returned r, log') ->
  log' = (log ++ [create_request domain options])%list
  /\ r_fqdn r = fqdn options /\ r_domain r = domain
  /\ resource_id r <> None.
Proof.
  intros Hd H.
  pose proof (create_new_log api time_time options log domain Hd) as Hlog.
  rewrite H in Hlog. cbn [snd] in Hlog.
  destruct (create_new_built _ _ _ _ _ _ H) as (response & b & _ & _ & _ & Hr).
  destruct (create_record_built _ _ _ Hr) as (Hf & Hdom & _ & _ & _ & _ & Hid & _).
  repeat split; try assumption. congruence.
Qed.

(** What [create_record] returns: the first record listed, which holds the
    value and ttl asked for, or the record of the creation. *)
Lemma create_record_returns options log r log' :
  provider_create_record api time_time options log = (Returned r, log') ->
  exists domain,
    record_type options <> SOA
    /\ get_domain (fqdn options) = Ok domain
    /\ r_domain r = domain
    /\ resource_id r <> None
    /\ let listed :=
         (log ++ [list_request domain (fqdn options) (record_type options)])%list
       in
       (log' = listed /\ r_fqdn r = domain /\ same_value options r
        /\ exists rest,
             _get_records api time_time (fqdn options) (record_type options)
               log = (Returned (r :: rest), listed))
       \/ (log' = (listed ++ [create_request domain options])%list
           /\ r_fqdn r = fqdn options).
Proof.
  intros H.
  destruct (check_record_type_cases (record_type options)) as [[Hs _]|[Hs _]].
  { rewrite create_record_soa in H by assumption. discriminate. }
  destruct (get_domain (fqdn options)) as [domain|e] eqn:Hd.
  2: { apply get_domain_raises in Hd. destruct Hd as [_ Hd].
       rewrite create_record_no_domain in H by assumption. discriminate. }
  exists domain. split; [exact Hs|]. split; [reflexivity|].
  destruct (create_record_log api time_time options log domain Hs Hd)
    as [Hlisted _].
  rewrite create_record_cases in H by assumption.
  destruct (_get_records api time_time (fqdn options) (record_type options)
              log) as [lr lg] eqn:Eg.
  cbn [snd] in Hlisted. subst lg.
  assert (Hnew :
    create_new api time_time (record_type options) options
      (log ++ [list_request domain (fqdn options) (record_type options)])%list
    = (Returned r, log') ->
    r_domain r = domain /\ resource_id r <> None
    /\ ((log' = (log ++ [list_request domain (fqdn options)
                           (record_type options)])%list
         /\ r_fqdn r = domain /\ same_value options r
         /\ exists rest,
              (lr, (log ++ [list_request domain (fqdn options)
                              (record_type options)])%list)
              = (Returned (r :: rest),
                 (log ++ [list_request domain (fqdn options)
                            (record_type options)])%list))
        \/ (log' = ((log ++ [list_request domain (fqdn options)
                               (record_type options)])
                    ++ [create_request domain options])%list
            /\ r_fqdn r = fqdn options))).
  { intros Hc.
    destruct (create_new_returned _ _ _ _ _ Hd Hc) as (Hl & Hf & Hdom & Hid).
    split; [exact Hdom|]. split; [exact Hid|]. right. now split. }
  destruct lr as [[|r0 rest]|e|].
  - exact (Hnew H).
  - destruct (String.eqb _ _ && _) eqn:Esame.
    + injection H as -> <-.
      destruct (get_records_built _ _ _ _ _ _ _ Eg) as (domain' & Hd' & Hall).
      assert (domain' = domain) by congruence. subst domain'.
      apply Forall_inv in Hall. destruct Hall as (Hf & Hdom & Hid).
      split; [exact Hdom|]. split; [exact Hid|]. left.
      split; [reflexivity|]. split; [exact Hf|].
      split; [now apply same_value_test|]. now exists rest.
    + destruct (append options); [exact (Hnew H)|discriminate].
  - destruct e; try discriminate.
    destruct (append options); [exact (Hnew H)|discriminate].
  - discriminate.
Qed.

(** [delete_record] on a record with an identifier. *)
Lemma delete_record_log (record : DORecord) (id : string) log :
  resource_id record = Some id ->
  snd (provider_delete_record api time_time record log)
  = (log ++ [DELETE ("/" ++ r_domain record ++ "/records/" ++ id)])%list.
Proof.
  intros Hid. unfold provider_delete_record, mbind, send, check_status.
  rewrite Hid.
  destruct (api log _) as [response|]; [|reflexivity].
  now destruct (raise_for_status _ response).
Qed.

End ProviderReturns.

(** X6. The requests of a call of [create_record]: none, exactly when the
    type is SOA or the name has no dot; otherwise the listing request, alone
    or followed by the creation request.  It never sends anything else, and
    never a DELETE. *)
Theorem create_record_requests
    (api : list Http.Request -> Http.Request -> result Http.Response)
    (time_time : list Http.Request -> Z)
    (options : RecordOptions) (log : Http.Client) :
  let sent :=
    snd (DigitalOcean.provider_create_record api time_time options log) in
  (sent = log
   /\ (record_type options = SOA
       \/ PyStr.contains PyStr.dot (fqdn options) = false))
  \/ exists domain,
       record_type options <> SOA
       /\ get_domain (fqdn options) = Ok domain
       /\ (sent
           = (log ++ [Spec.list_request domain (fqdn options)
                        (record_type options)])%list
           \/ sent
              = (log ++ [Spec.list_request domain (fqdn options)
                           (record_type options);
                         Spec.create_request domain options])%list).
Proof.
  cbv zeta.
  destruct (check_record_type_cases (record_type options)) as [[Hs _]|[Hs _]].
  { left. rewrite create_record_soa by assumption. auto. }
  destruct (get_domain (fqdn options)) as [domain|e] eqn:Hd.
  - right. exists domain. split; [exact Hs|]. split; [reflexivity|].
    destruct (create_record_log api time_time options log domain Hs Hd)
      as [_ [H|[_ H]]]; [now left|right].
    rewrite H. now rewrite <- app_assoc.
  - left. apply get_domain_raises in Hd. destruct Hd as [_ Hd].
    rewrite create_record_no_domain by assumption. auto.
Qed.

(** X7. Options that cannot be served are refused before anything is sent:
    the type SOA with [InvalidRecordType], whatever the name is, and a name
    without a dot (the empty name too) with [InvalidDomainName]. *)
Theorem create_record_rejects_before_sending
    (api : list Http.Request -> Http.Request -> result Http.Response)
    (time_time : list Http.Request -> Z)
    (options : RecordOptions) (log : Http.Client) :
  record_type options = SOA
  \/ PyStr.contains PyStr.dot (fqdn options) = false ->
  DigitalOcean.provider_create_record api time_time options log
  = (Raised (if RecordType_eqb (record_type options) SOA
             then InvalidRecordType else InvalidDomainName), log).
Proof.
  intros H.
  destruct (check_record_type_cases (record_type options)) as [[Hs _]|[Hs _]].
  - rewrite create_record_soa by assumption. now rewrite Hs.
  - destruct H as [H|H]; [contradiction|].
    rewrite create_record_no_domain by assumption.
    destruct (RecordType_eqb (record_type options) SOA) eqn:E; [|reflexivity].
    apply RecordType_eqb_eq in E. contradiction.
Qed.

Lemma create_record_rejects_before_sending_witness :
  DigitalOcean.provider_create_record (Scenario.zone_api [] 204)
    Scenario.at_noon (mkOptions "localhost" TXT "tok" 30 true 120 2) []
  = (Raised InvalidDomainName, []).
Proof.
  apply (create_record_rejects_before_sending (Scenario.zone_api [] 204)
           Scenario.at_noon (mkOptions "localhost" TXT "tok" 30 true 120 2)
           []).
  right. reflexivity.
Defined.

(** X8. The records [_get_records] returns are built from the root domain
    of the name, not from the name: each carries the root domain both as
    its [domain] and as its [fqdn], and each has an identifier. *)
Theorem listed_records_carry_root_domain
    (api : list Http.Request -> Http.Request -> result Http.Response)
    (time_time : list Http.Request -> Z)
    (name : string) (t : RecordType) (log : Http.Client)
    (records : list DORecord) (log' : Http.Client) :
  DigitalOcean._get_records api time_time name t log
  = (Returned records, log') ->
  exists domain,
    get_domain name = Ok domain
    /\ Forall (fun r => r_fqdn r = domain /\ r_domain r = domain
                        /\ resource_id r <> None) records.
Proof. apply get_records_built. Qed.

Lemma listed_records_carry_root_domain_witness :
  exists domain,
    get_domain Scenario.acme_name = Ok domain
    /\ Forall (fun r => r_fqdn r = domain /\ r_domain r = domain
                        /\ resource_id r <> None)
              [Scenario.old_record; Scenario.tok_record].
Proof.
  apply (listed_records_carry_root_domain
           (Scenario.zone_api [Scenario.old_item; Scenario.tok_item] 204)
           Scenario.at_noon Scenario.acme_name TXT []
           [Scenario.old_record; Scenario.tok_record]
           [Spec.list_request "example.com" Scenario.acme_name TXT]).
  reflexivity.
Defined.

(** X9. The record [create_record] returns belongs to the root domain of
    the name asked for.  If no creation request was sent, it is the first
    record listed: it holds the value and ttl asked for, and its [fqdn] is
    the root domain.  If one was sent, its [fqdn] is the name asked for. *)
Theorem create_record_returned_record
    (api : list Http.Request -> Http.Request -> result Http.Response)
    (time_time : list Http.Request -> Z)
    (options : RecordOptions) (log : Http.Client)
    (r : DORecord) (log' : Http.Client) :
  DigitalOcean.provider_create_record api time_time options log
  = (Returned r, log') ->
  exists domain,
    get_domain (fqdn options) = Ok domain
    /\ r_domain r = domain
    /\ ((log'
         = (log ++ [Spec.list_request domain (fqdn options)
                      (record_type options)])%list
         /\ r_fqdn r = domain
         /\ Spec.same_value options r)
        \/ (log'
            = (log ++ [Spec.list_request domain (fqdn options)
                         (record_type options);
                       Spec.create_request domain options])%list
            /\ r_fqdn r = fqdn options)).
Proof.
  intros H.
  destruct (create_record_returns _ _ _ _ _ _ H)
    as (domain & _ & Hd & Hdom & _ & Hcases).
  exists domain. split; [exact Hd|]. split; [exact Hdom|].
  cbv zeta in Hcases.
  destruct Hcases as [(Hl & Hf & Hsame & _)|(Hl & Hf)].
  - left. auto.
  - right. split; [|exact Hf]. rewrite Hl. now rewrite <- app_assoc.
Qed.

Lemma create_record_returned_record_witness :
  exists domain,
    get_domain Scenario.acme_name = Ok domain
    /\ r_domain Scenario.tok_record = domain
    /\ (([Spec.list_request "example.com" Scenario.acme_name TXT]
         = ([] ++ [Spec.list_request domain Scenario.acme_name TXT])%list
         /\ r_fqdn Scenario.tok_record = domain
         /\ Spec.same_value (Scenario.options_tok false) Scenario.tok_record)
        \/ ([Spec.list_request "example.com" Scenario.acme_name TXT]
            = ([] ++ [Spec.list_request domain Scenario.acme_name TXT;
                      Spec.create_request domain
                        (Scenario.options_tok false)])%list
            /\ r_fqdn Scenario.tok_record = Scenario.acme_name)).
Proof.
  apply (create_record_returned_record
           (Scenario.zone_api [Scenario.tok_item] 204) Scenario.at_noon
           (Scenario.options_tok false) [] Scenario.tok_record
           [Spec.list_request "example.com" Scenario.acme_name TXT]).
  reflexivity.
Defined.

(** X10. A creation request is sent only after a listing that returned no
    record, or, with [append] set, after a listing whose first record holds
    another value or ttl (or that ended in [RecordAlreadyExistsError]).
    Without [append], [create_record] writes only where the listing is
    empty. *)
Theorem create_record_writes_only_after_listing
    (api : list Http.Request -> Http.Request -> result Http.Response)
    (time_time : list Http.Request -> Z)
    (options : RecordOptions) (log : Http.Client) (domain : string) :
  get_domain (fqdn options) = Ok domain ->
  snd (DigitalOcean.provider_create_record api time_time options log)
  = (log ++ [Spec.list_request domain (fqdn options) (record_type options);
             Spec.create_request domain options])%list ->
  exists listing,
    DigitalOcean._get_records api time_time (fqdn options)
      (record_type options) log
    = (listing,
       (log ++ [Spec.list_request domain (fqdn options)
                  (record_type options)])%list)
    /\ (listing = Returned []
        \/ (append options = true
            /\ (listing = Raised RecordAlreadyExistsError
                \/ exists r rest,
                     listing = Returned (r :: rest)
                     /\ ~ Spec.same_value options r))).
Proof.
  intros Hd Hsent.
  destruct (check_record_type_cases (record_type options)) as [[Hs _]|[Hs _]].
  { rewrite create_record_soa in Hsent by assumption. cbn [snd] in Hsent.
    apply (f_equal (@List.length _)) in Hsent.
    rewrite length_app in Hsent. simpl in Hsent. lia. }
  destruct (create_record_log api time_time options log domain Hs Hd)
    as [Hlisted _].
  rewrite create_record_cases in Hsent by assumption.
  destruct (DigitalOcean._get_records api time_time (fqdn options)
              (record_type options) log) as [lr lg] eqn:Eg.
  cbn [snd] in Hlisted. subst lg.
  exists lr. split; [reflexivity|].
  assert (Hno : forall x : outcome DORecord,
             snd (x, (log ++ [Spec.list_request domain (fqdn options)
                                (record_type options)])%list)
             <> (log ++ [Spec.list_request domain (fqdn options)
                           (record_type options);
                         Spec.create_request domain options])%list).
  { intros x Hx. cbn [snd] in Hx.
    apply (f_equal (@List.length _)) in Hx.
    rewrite !length_app in Hx. simpl in Hx. lia. }
  destruct lr as [[|r rest]|e|].
  - now left.
  - destruct (String.eqb _ _ && _) eqn:Esame;
      [now destruct (Hno _ Hsent)|].
    destruct (append options); [|now destruct (Hno _ Hsent)].
    right. split; [reflexivity|]. right. exists r, rest.
    split; [reflexivity|]. intros Hsame.
    apply same_value_test in Hsame. congruence.
  - destruct e; try (now destruct (Hno _ Hsent)).
    destruct (append options); [|now destruct (Hno _ Hsent)].
    right. split; [reflexivity|]. now left.
  - now destruct (Hno _ Hsent).
Qed.

Lemma create_record_writes_only_after_listing_witness :
  exists listing,
    DigitalOcean._get_records (Scenario.zone_api [] 204) Scenario.at_noon
      Scenario.acme_name TXT []
    = (listing,
       ([] ++ [Spec.list_request "example.com" Scenario.acme_name TXT])%list)
    /\ (listing = Returned []
        \/ (false = true
            /\ (listing = Raised RecordAlreadyExistsError
                \/ exists r rest,
                     listing = Returned (r :: rest)
                     /\ ~ Spec.same_value (Scenario.options_tok false) r))).
Proof.
  apply (create_record_writes_only_after_listing
           (Scenario.zone_api [] 204) Scenario.at_noon
           (Scenario.options_tok false) [] "example.com").
  - reflexivity.
  - reflexivity.
Defined.

(** X11. When the listing returns no record, [create_record] sends the
    creation request whatever [append] is; when the API accepts it and
    sends the new record back, that record is returned. *)
Theorem create_record_on_empty_listing
    (api : list Http.Request -> Http.Request -> result Http.Response)
    (time_time : list Http.Request -> Z)
    (options : RecordOptions) (log log' : Http.Client) :
  DigitalOcean._get_records api time_time (fqdn options) (record_type options)
    log = (Returned [], log') ->
  exists domain,
    get_domain (fqdn options) = Ok domain
    /\ snd (DigitalOcean.provider_create_record api time_time options log)
       = (log' ++ [Spec.create_request domain options])%list
    /\ forall status hs msg recs item record,
         api log' (Spec.create_request domain options)
         = Ok (Http.mkResponse status hs
                 (Some (Http.mkBody msg recs (Some item)))) ->
         200 <= status < 300 ->
         DigitalOcean.create_record (fqdn options) item = Ok record ->
         fst (DigitalOcean.provider_create_record api time_time options log)
         = Returned record.
Proof.
  intros Hget.
  destruct (get_records_returned _ _ _ _ _ _ _ Hget)
    as (Hty & domain & Hd & _).
  exists domain. split; [exact Hd|].
  assert (Hs : record_type options <> SOA).
  { intros E. rewrite E in Hty. discriminate. }
  rewrite create_record_cases, Hget by assumption.
  apply (create_new_writes api time_time options log' domain Hd).
Qed.

Lemma create_record_on_empty_listing_witness :
  exists domain,
    get_domain Scenario.acme_name = Ok domain
    /\ snd (DigitalOcean.provider_create_record (Scenario.zone_api [] 204)
              Scenario.at_noon (Scenario.options_tok false) [])
       = ([Spec.list_request "example.com" Scenario.acme_name TXT]
          ++ [Spec.create_request domain (Scenario.options_tok false)])%list
    /\ forall status hs msg recs item record,
         Scenario.zone_api [] 204
           [Spec.list_request "example.com" Scenario.acme_name TXT]
           (Spec.create_request domain (Scenario.options_tok false))
         = Ok (Http.mkResponse status hs
                 (Some (Http.mkBody msg recs (Some item)))) ->
         200 <= status < 300 ->
         DigitalOcean.create_record Scenario.acme_name item = Ok record ->
         fst (DigitalOcean.provider_create_record (Scenario.zone_api [] 204)
                Scenario.at_noon (Scenario.options_tok false) [])
         = Returned record.
Proof.
  apply (create_record_on_empty_listing (Scenario.zone_api [] 204)
           Scenario.at_noon (Scenario.options_tok false) []
           [Spec.list_request "example.com" Scenario.acme_name TXT]).
  reflexivity.
Defined.



Lemma length_append (a b : string) :
  String.length (a ++ b) = (String.length a + String.length b)%nat.
Proof. induction a as [|c a IH]; simpl; [reflexivity|now rewrite IH]. Qed.

(** X13. The host name of the creation request: [@] when the name is its
    own root domain; otherwise what precedes the first place of the name
    where a dot and the root domain follow, so that the host name, a dot and
    the root domain start the name. *)
Theorem create_request_name (options : RecordOptions) (domain : string) :
  get_domain (fqdn options) = Ok domain ->
  exists name,
    Spec.create_request domain options
    = Http.POST ("/" ++ domain ++ "/records")
        (Http.mkPayload (record_type options) name (record_value options)
           (record_ttl options))
    /\ ((fqdn options = domain /\ name = "@")
        \/ (fqdn options <> domain
            /\ (exists rest,
                   fqdn options = (name ++ "." ++ domain ++ rest)%string)
            /\ forall p rest,
                 fqdn options = (p ++ "." ++ domain ++ rest)%string ->
                 (String.length name <= String.length p)%nat)).
Proof.
  intros Hd. unfold Spec.create_request.
  destruct (String.eqb_spec domain (fqdn options)) as [E|E].
  - exists "@". split; [reflexivity|]. left. auto.
  - exists (PyStr.split_head ("." ++ domain) (fqdn options)).
    split; [reflexivity|]. right. split; [congruence|].
    destruct (get_domain_shape _ _ Hd) as (p & x & y & Hf & Hdom & _ & _ & Hp).
    destruct Hp as [->|[q ->]].
    { destruct E. now rewrite Hf, Hdom. }
    assert (Hocc : fqdn options = (q ++ ("." ++ domain) ++ "")%string).
    { rewrite Hf, Hdom, !PyStrMore.append_assoc. f_equal. cbn.
      f_equal. clear. induction x as [|a x IH]; cbn.
      - f_equal. induction y as [|b y IHy]; cbn; [reflexivity|now f_equal].
      - now f_equal. }
    split.
    + destruct (PrefixFacts.split_head_first ("." ++ domain) (fqdn options)
                  q "" ltac:(discriminate) Hocc) as [[rest Hrest] _].
      exists rest. rewrite Hrest at 1.
      now rewrite !PyStrMore.append_assoc.
    + intros p rest Hpr.
      apply (PrefixFacts.split_head_first ("." ++ domain) (fqdn options)
               p rest ltac:(discriminate)).
      rewrite Hpr. now rewrite !PyStrMore.append_assoc.
Qed.

Lemma create_request_name_witness :
  exists name,
    Spec.create_request "example.com" (Scenario.options_tok true)
    = Http.POST ("/" ++ "example.com" ++ "/records")
        (Http.mkPayload TXT name "tok" 30)
    /\ ((Scenario.acme_name = "example.com" /\ name = "@")
        \/ (Scenario.acme_name <> "example.com"
            /\ (exists rest,
                   Scenario.acme_name
                   = (name ++ "." ++ "example.com" ++ rest)%string)
            /\ forall p rest,
                 Scenario.acme_name = (p ++ "." ++ "example.com" ++ rest)%string ->
                 (String.length name <= String.length p)%nat)).
Proof.
  apply (create_request_name (Scenario.options_tok true) "example.com").
  reflexivity.
Defined.

(** X14. A name that starts with one label, a dot and its root domain: the
    host name of the creation request is that label, whatever follows.  For
    [www.example.com] it is [www]; for [www.example.com.example.com], whose
    root domain is [example.com] too, it is [www] again, and not
    [www.example.com]. *)
Theorem create_request_name_of_label
    (options : RecordOptions) (domain label rest : string) :
  get_domain (fqdn options) = Ok domain ->
  fqdn options = (label ++ "." ++ domain ++ rest)%string ->
  PyStr.contains PyStr.dot label = false ->
  Spec.create_request domain options
  = Http.POST ("/" ++ domain ++ "/records")
      (Http.mkPayload (record_type options) label (record_value options)
         (record_ttl options)).
Proof.
  intros Hd Hf Hlabel. unfold Spec.create_request.
  destruct (String.eqb_spec domain (fqdn options)) as [E|E].
  - apply (f_equal String.length) in E. rewrite Hf in E.
    rewrite !length_append in E. simpl in E. lia.
  - rewrite Hf. now rewrite PrefixFacts.split_head_label.
Qed.

Lemma create_request_name_of_label_witness :
  Spec.create_request "example.com"
    (mkOptions "www.example.com.example.com" TXT "tok" 30 true 120 2)
  = Http.POST ("/" ++ "example.com" ++ "/records")
      (Http.mkPayload TXT "www" "tok" 30).
Proof.
  apply (create_request_name_of_label
           (mkOptions "www.example.com.example.com" TXT "tok" 30 true 120 2)
           "example.com" "www" ".example.com").
  - reflexivity.
  - reflexivity.
  - reflexivity.
Defined.

(** X15. [delete_record] on a record without an identifier (a plain
    [Record]) raises [TypeError] and sends nothing.  On a record with an
    identifier it sends one DELETE, to the path made of the record's domain
    and its identifier, and returns exactly when the API answers it with a
    status from 200 to 299. *)
Theorem delete_record_sends_one_delete
    (api : list Http.Request -> Http.Request -> result Http.Response)
    (time_time : list Http.Request -> Z)
    (record : DORecord) (log : Http.Client) :
  match resource_id record with
  | None =>
      DigitalOcean.provider_delete_record api time_time record log
      = (Raised TypeError, log)
  | Some id =>
      let q := Http.DELETE ("/" ++ r_domain record ++ "/records/" ++ id) in
      snd (DigitalOcean.provider_delete_record api time_time record log)
      = (log ++ [q])%list
      /\ (fst (DigitalOcean.provider_delete_record api time_time record log)
          = Returned tt
          <-> exists response,
                api log q = Ok response
                /\ 200 <= Http.status_code response < 300)
  end.
Proof.
  destruct (resource_id record) as [id|] eqn:Hid.
  - cbv zeta. split; [now apply delete_record_log|].
    unfold DigitalOcean.provider_delete_record, mbind, DigitalOcean.send,
      DigitalOcean.check_status.
    rewrite Hid.
    destruct (api log _) as [response|e].
    + destruct (DigitalOcean.raise_for_status _ response) as [[]|e] eqn:Es;
        cbn [lift ret raise fst].
      * split; [intros _|reflexivity]. exists response.
        split; [reflexivity|]. now apply raise_for_status_returns in Es.
      * split; [discriminate|]. intros (response' & [= <-] & Hst).
        rewrite raise_for_status_success in Es by exact Hst. discriminate.
    + cbn [fst]. split; [discriminate|]. now intros (response' & [=] & _).
  - unfold DigitalOcean.provider_delete_record. now rewrite Hid.
Qed.

(** X16. Whatever [create_record] returns can be handed to
    [delete_record]: it has an identifier, and the deletion sends one
    DELETE for that identifier in the root domain of the name that was
    asked for. *)
Theorem created_record_is_deletable
    (api : list Http.Request -> Http.Request -> result Http.Response)
    (time_time : list Http.Request -> Z)
    (options : RecordOptions) (log : Http.Client)
    (r : DORecord) (log' : Http.Client) :
  DigitalOcean.provider_create_record api time_time options log
  = (Returned r, log') ->
  exists domain id,
    get_domain (fqdn options) = Ok domain
    /\ resource_id r = Some id
    /\ snd (DigitalOcean.provider_delete_record api time_time r log')
       = (log' ++ [Http.DELETE ("/" ++ domain ++ "/records/" ++ id)])%list.
Proof.
  intros H.
  destruct (create_record_returns _ _ _ _ _ _ H)
    as (domain & _ & Hd & Hdom & Hid & _).
  destruct (resource_id r) as [id|] eqn:E; [|contradiction].
  exists domain, id. split; [exact Hd|]. split; [reflexivity|].
  rewrite (delete_record_log api time_time r id log' E). now rewrite Hdom.
Qed.

Lemma created_record_is_deletable_witness :
  exists domain id,
    get_domain Scenario.acme_name = Ok domain
    /\ resource_id Scenario.new_record = Some id
    /\ snd (DigitalOcean.provider_delete_record (Scenario.zone_api [] 204)
              Scenario.at_noon Scenario.new_record
              [Spec.list_request "example.com" Scenario.acme_name TXT;
               Spec.create_request "example.com" (Scenario.options_tok true)])
       = ([Spec.list_request "example.com" Scenario.acme_name TXT;
           Spec.create_request "example.com" (Scenario.options_tok true)]
          ++ [Http.DELETE ("/" ++ domain ++ "/records/" ++ id)])%list.
Proof.
  apply (created_record_is_deletable (Scenario.zone_api [] 204)
           Scenario.at_noon (Scenario.options_tok true) []).
  reflexivity.
Defined.

(** ** The run of [__call__], beyond the claims *)

Lemma filter_none {T} (f : T -> bool) (l : list T) :
  Forall (fun x => f x = false) l -> filter f l = [].
Proof.
  induction 1 as [|x l Hx _ IH]; simpl; [reflexivity|]. now rewrite Hx.
Qed.

Lemma dns01_challenges_none (order : Acme.Order) :
  Forall (fun authz =>
            Forall (fun item => Acme.chall item <> Acme.DNS01) authz)
         (Acme.authorizations order) ->
  Observed.dns01_challenges order = [].
Proof.
  unfold Observed.dns01_challenges.
  induction 1 as [|authz rest Hauthz _ IH]; simpl; [reflexivity|].
  rewrite IH, app_nil_r. apply filter_none.
  eapply Forall_impl; [|exact Hauthz].
  intros item Hitem. unfold Acme.is_dns01.
  destruct (Acme.chall item) eqn:E; [congruence|reflexivity|reflexivity].
Qed.

(** The pairing loop raises as soon as a domain has no token. *)
Lemma verification_tokens_short (domains tokens : list string) (i : nat) :
  (i <= List.length tokens)%nat ->
  (List.length tokens < i + List.length domains)%nat ->
  verification_tokens i domains tokens = Raise IndexError.
Proof.
  revert i. induction domains as [|d ds IH]; intros i Hi Hlen; simpl in *.
  - lia.
  - destruct (nth_error tokens i) as [token|] eqn:E; [|reflexivity].
    assert (i < List.length tokens)%nat
      by (apply nth_error_Some; congruence).
    rewrite IH by lia. reflexivity.
Qed.

(** X17. When the order offers no DNS-01 challenge, [__call__] raises
    [RuntimeError] right after the order was requested: nothing is created,
    no challenge is answered. *)
Theorem call_without_dns01_challenge
    {P : Type} (provider : Provider P) (env : Env) (fuel : nat)
    (domains : list string) (deadline : option Z) (w : World P)
    (order : Acme.Order) :
  acme_new_order env domains = Ok order ->
  Forall (fun authz =>
            Forall (fun item => Acme.chall item <> Acme.DNS01) authz)
         (Acme.authorizations order) ->
  __call__ provider env fuel domains deadline w
  = (Raised RuntimeError, log (NewOrder domains) w).
Proof.
  intros Horder Hnone. apply dns01_challenges_none in Hnone.
  unfold Observed.dns01_challenges in Hnone.
  unfold __call__, mbind, new_order. rewrite Horder. cbn [lift ret].
  now rewrite Hnone.
Qed.

Lemma call_without_dns01_challenge_witness :
  __call__ (Scenario.provider_with 204)
    (mkEnv (fun k => Z.of_nat k) (fun _ _ _ => Ok [])
       (fun _ =>
          Ok (Acme.mkOrder [[Acme.mkChallenge Acme.HTTP01 "resp0" "tok0"]]))
       (fun _ _ _ => Ok tt) (fun _ _ => Ok "CERT"))
    5 [Scenario.a_domain] None (init_world [])
  = (Raised RuntimeError,
     log (NewOrder [Scenario.a_domain]) (init_world [])).
Proof.
  apply (call_without_dns01_challenge (Scenario.provider_with 204)
           (mkEnv (fun k => Z.of_nat k) (fun _ _ _ => Ok [])
              (fun _ =>
                 Ok (Acme.mkOrder
                       [[Acme.mkChallenge Acme.HTTP01 "resp0" "tok0"]]))
              (fun _ _ _ => Ok tt) (fun _ _ => Ok "CERT"))
           5 [Scenario.a_domain] None (init_world [])
           (Acme.mkOrder [[Acme.mkChallenge Acme.HTTP01 "resp0" "tok0"]])).
  - reflexivity.
  - repeat constructor. discriminate.
Defined.

(** X18. When the order offers DNS-01 challenges, but fewer than there are
    domains, [__call__] raises [IndexError] while it pairs the domains with
    the tokens: nothing is created, no challenge is answered. *)
Theorem call_with_fewer_challenges_than_domains
    {P : Type} (provider : Provider P) (env : Env) (fuel : nat)
    (domains : list string) (deadline : option Z) (w : World P)
    (order : Acme.Order) :
  acme_new_order env domains = Ok order ->
  Observed.dns01_challenges order <> [] ->
  (List.length (Observed.dns01_challenges order) < List.length domains)%nat ->
  __call__ provider env fuel domains deadline w
  = (Raised IndexError, log (NewOrder domains) w).
Proof.
  unfold Observed.dns01_challenges. intros Horder Hsome Hfew.
  unfold __call__, mbind, new_order. rewrite Horder. cbn [lift ret].
  destruct (flat_map (filter Acme.is_dns01) (Acme.authorizations order))
    as [|c cs] eqn:E; [contradiction|].
  rewrite verification_tokens_short; [reflexivity|lia|].
  rewrite length_map. simpl in *. lia.
Qed.

Lemma call_with_fewer_challenges_than_domains_witness :
  __call__ (Scenario.provider_with 204) (Scenario.env_with 2 ["tok1"]) 5
    [Scenario.a_domain; Scenario.b_domain] None (init_world [])
  = (Raised IndexError,
     log (NewOrder [Scenario.a_domain; Scenario.b_domain]) (init_world [])).
Proof.
  apply (call_with_fewer_challenges_than_domains (Scenario.provider_with 204)
           (Scenario.env_with 2 ["tok1"]) 5
           [Scenario.a_domain; Scenario.b_domain] None (init_world [])
           Scenario.order1).
  - reflexivity.
  - discriminate.
  - simpl. lia.
Defined.

(** ** The answers to the challenges *)

Section Answers.

Context {P : Type}.
Variable env : Env.

Lemma answer_all_trace (cs : list Acme.ChallengeBody) :
  forall (done : list Acme.ChallengeBody) (w : World P) r w',
    answer_all env (List.length done) cs (map Acme.response (done ++ cs)) w
    = (r, w') ->
    exists k,
      Spec.emits w w'
        (map (fun c => AnswerChallenge c (Acme.response c)) (firstn k cs))
      /\ answer_calls w' = (answer_calls w + k)%nat
      /\ (k <= List.length cs)%nat
      /\ match r with
         | Returned _ =>
             k = List.length cs
             /\ forall i c,
                  nth_error cs i = Some c ->
                  acme_answer_challenge env (answer_calls w + i) c
                    (Acme.response c) = Ok tt
         | Raised e =>
             exists j c,
               k = S j /\ nth_error cs j = Some c
               /\ acme_answer_challenge env (answer_calls w + j) c
                    (Acme.response c) = Raise e
               /\ forall i c',
                    (i < j)%nat -> nth_error cs i = Some c' ->
                    acme_answer_challenge env (answer_calls w + i) c'
                      (Acme.response c') = Ok tt
         | Running => False
         end.
Proof.
  induction cs as [|c cs IH]; intros done w r w' H; simpl in H.
  - injection H as <- <-. exists O. simpl.
    split; [apply emits_refl|]. split; [lia|]. split; [lia|].
    split; [reflexivity|]. intros [|i] c'; discriminate.
  - assert (Hnth : nth_error (map Acme.response (done ++ c :: cs))
                     (List.length done) = Some (Acme.response c)).
    { rewrite nth_error_map, nth_error_app2, Nat.sub_diag by lia.
      reflexivity. }
    rewrite Hnth in H. unfold mbind, answer_challenge in H.
    destruct (acme_answer_challenge env (answer_calls w) c (Acme.response c))
      as [[]|e] eqn:Ea; cbn [lift ret raise] in H.
    + replace (done ++ c :: cs)%list with ((done ++ [c]) ++ cs)%list in H
        by now rewrite <- app_assoc.
      replace (S (List.length done)) with (List.length (done ++ [c])) in H
        by (rewrite length_app; simpl; lia).
      destruct (IH _ _ _ _ H) as (k & He & Hc & Hk & Hr).
      exists (S k). simpl in *.
      split; [|split; [lia|split; [lia|]]].
      * unfold Spec.emits in *. rewrite He. simpl.
        now rewrite <- app_assoc.
      * assert (Hshift : forall i c',
                   nth_error (c :: cs) i = Some c' ->
                   (forall i0 c0,
                       nth_error cs i0 = Some c0 ->
                       (i = S i0 -> c' = c0 ->
                        acme_answer_challenge env (S (answer_calls w + i0))
                          c0 (Acme.response c0) = Ok tt)) ->
                   acme_answer_challenge env (answer_calls w + i) c'
                     (Acme.response c') = Ok tt).
        { intros [|i] c' Hi Hrest; simpl in Hi.
          - injection Hi as <-. now rewrite Nat.add_0_r.
          - rewrite Nat.add_succ_r. now apply (Hrest i c'). }
        destruct r as [u|e|]; [| |exact Hr].
        -- destruct Hr as [-> Hall]. split; [reflexivity|].
           intros i c' Hi. apply Hshift; [exact Hi|].
           intros i0 c0 H0 _ _. now apply Hall.
        -- destruct Hr as (j & c' & -> & Hj & Hraise & Hbefore).
           exists (S j), c'. split; [reflexivity|]. split; [exact Hj|].
           split.
           ++ now replace (answer_calls w + S j)%nat
                with (S (answer_calls w) + j)%nat by lia.
           ++ intros i c0 Hi Hnth0. apply Hshift; [exact Hnth0|].
              intros i0 c1 H1 -> _. apply Hbefore; [lia|exact H1].
    + injection H as <- <-. exists 1%nat. simpl.
      split; [reflexivity|]. split; [lia|]. split; [lia|].
      exists O, c. rewrite Nat.add_0_r.
      split; [reflexivity|]. split; [reflexivity|]. split; [exact Ea|].
      intros i c' Hi. lia.
Qed.

End Answers.

(** X19. The loop that answers the challenges, run as [__call__] runs it
    (each challenge with the response computed from it): the challenges are
    answered in their order, each with its own response.  The loop returns
    only when the ACME client accepted every answer; it stops at the first
    answer the client refuses, after which no challenge is answered, and
    raises what the client raised; its own [IndexError] cannot occur. *)
Theorem challenges_are_answered_in_order
    {P : Type} (env : Env) (cs : list Acme.ChallengeBody)
    (w : World P) (r : outcome unit) (w' : World P) :
  answer_all env 0 cs (map Acme.response cs) w = (r, w') ->
  exists k,
    Spec.emits w w'
      (map (fun c => AnswerChallenge c (Acme.response c)) (firstn k cs))
    /\ match r with
       | Returned _ =>
           k = List.length cs
           /\ forall i c,
                nth_error cs i = Some c ->
                acme_answer_challenge env (answer_calls w + i) c
                  (Acme.response c) = Ok tt
       | Raised e =>
           exists j c,
             k = S j /\ nth_error cs j = Some c
             /\ acme_answer_challenge env (answer_calls w + j) c
                  (Acme.response c) = Raise e
             /\ forall i c',
                  (i < j)%nat -> nth_error cs i = Some c' ->
                  acme_answer_challenge env (answer_calls w + i) c'
                    (Acme.response c') = Ok tt
       | Running => False
       end.
Proof.
  intros H.
  destruct (answer_all_trace env cs [] w r w' H) as (k & He & _ & _ & Hr).
  now exists k.
Qed.

Lemma challenges_are_answered_in_order_witness :
  exists k,
    Spec.emits (init_world (@nil Http.Request))
      (snd (answer_all Scenario.env_refusing 0
              [Scenario.challenge1; Scenario.challenge2]
              (map Acme.response [Scenario.challenge1; Scenario.challenge2])
              (init_world [])))
      (map (fun c => AnswerChallenge c (Acme.response c))
           (firstn k [Scenario.challenge1; Scenario.challenge2]))
    /\ exists j c,
         k = S j
         /\ nth_error [Scenario.challenge1; Scenario.challenge2] j = Some c
         /\ acme_answer_challenge Scenario.env_refusing (0 + j) c
              (Acme.response c) = Raise (CollaboratorError "refused")
         /\ forall i c',
              (i < j)%nat ->
              nth_error [Scenario.challenge1; Scenario.challenge2] i
              = Some c' ->
              acme_answer_challenge Scenario.env_refusing (0 + i) c'
                (Acme.response c') = Ok tt.
Proof.
  apply (challenges_are_answered_in_order Scenario.env_refusing
           [Scenario.challenge1; Scenario.challenge2]
           (init_world []) (Raised (CollaboratorError "refused"))).
  reflexivity.
Defined.

(** The client refuses the second answer of three: the third challenge is
    not answered. *)
Example refused_answer_ends_the_loop :
  let run := answer_all Scenario.env_refusing 0
               [Scenario.challenge1; Scenario.challenge2;
                Scenario.challenge1]
               ["resp1"; "resp2"; "resp1"]
               (init_world (@nil Http.Request)) in
  fst run = Raised (CollaboratorError "refused")
  /\ trace (snd run)
     = [AnswerChallenge Scenario.challenge1 "resp1";
        AnswerChallenge Scenario.challenge2 "resp2"].
Proof. split; reflexivity. Qed.

(** ** The polls of the propagation wait *)

Module ObservedFacts.
Import Observed.

Lemma queries_app (tr1 tr2 : list Event) :
  queries (tr1 ++ tr2) = (queries tr1 ++ queries tr2)%list.
Proof.
  induction tr1 as [|e tr1 IH]; simpl; [reflexivity|].
  destruct e; simpl; now rewrite IH.
Qed.

Lemma sleeps_app (tr1 tr2 : list Event) :
  sleeps (tr1 ++ tr2) = (sleeps tr1 ++ sleeps tr2)%list.
Proof.
  induction tr1 as [|e tr1 IH]; simpl; [reflexivity|].
  destruct e; simpl; now rewrite IH.
Qed.

Lemma readings_app (tr1 tr2 : list Event) :
  readings (tr1 ++ tr2) = (readings tr1 ++ readings tr2)%list.
Proof.
  induction tr1 as [|e tr1 IH]; simpl; [reflexivity|].
  destruct e; simpl; now rewrite IH.
Qed.

Lemma creation_requests_app (tr1 tr2 : list Event) :
  creation_requests (tr1 ++ tr2)
  = (creation_requests tr1 ++ creation_requests tr2)%list.
Proof.
  induction tr1 as [|e tr1 IH]; simpl; [reflexivity|].
  destruct e; simpl; now rewrite IH.
Qed.

Lemma creation_requests_calm (d : option Z) (tr : list Event) :
  Forall (Spec.calm d) tr -> creation_requests tr = [].
Proof.
  induction 1 as [|e tr [He _] _ IH]; simpl; [reflexivity|].
  destruct e; simpl in *; try contradiction; exact IH.
Qed.

Lemma creation_requests_deletions (tr : list Event) :
  Forall Spec.is_delete tr -> creation_requests tr = [].
Proof.
  induction 1 as [|e tr He _ IH]; simpl; [reflexivity|].
  destruct e; simpl in *; try contradiction; exact IH.
Qed.

End ObservedFacts.

Section Polls.

Context {P : Type}.
Variable env : Env.
Variable deadline : Z.
Variable record : DORecord.

(** The events of a wait: every poll reads the clock and asks the resolver
    for the record's own name and type; a poll that does not show the value
    is followed by a sleep of two seconds. *)
Lemma wait_propagation_polls (fuel : nat) :
  forall (w : World P) r w',
    wait_propagation env fuel deadline record w = (r, w') ->
    exists tr m,
      Spec.emits w w' tr
      /\ Observed.sleeps tr = repeat 2 m
      /\ Observed.queries tr
         = repeat (r_fqdn record, r_type record)
             (m + match r with
                  | Returned true | Raised _ => 1
                  | _ => 0
                  end)
      /\ List.length (readings tr)
         = (m + match r with Running => 0 | _ => 1 end)%nat
      /\ Forall (Spec.calm None) tr.
Proof.
  induction fuel as [|fuel IH]; intros w r w' H.
  - injection H as <- <-. exists [], O. simpl.
    split; [apply emits_refl|]. auto.
  - rewrite wait_propagation_step in H. cbv zeta in H.
    destruct (_ <? deadline).
    + destruct (resolver_answer env (resolver_calls w) (r_fqdn record)
                  (r_type record)) as [values|e] eqn:Ea.
      * destruct (PyStr.mem (r_data record) values).
        -- injection H as <- <-.
           exists [Clock (clock_reading env (clock_calls w));
                   Resolve (r_fqdn record) (r_type record) (Ok values)], O.
           unfold resolve, clock, log, Spec.emits. cbn. rewrite Ea. cbn.
           rewrite <- app_assoc. repeat split.
           repeat constructor.
        -- destruct (IH _ _ _ H) as (tr & m & He & Hs & Hq & Hr & Hc).
           exists (Clock (clock_reading env (clock_calls w))
                   :: Resolve (r_fqdn record) (r_type record) (Ok values)
                   :: Sleep 2 :: tr), (S m).
           split; [|split; [|split; [|split]]].
           ++ unfold Spec.emits in *. rewrite He.
              unfold sleep, resolve, clock, log. cbn. rewrite Ea. cbn.
              now rewrite <- !app_assoc.
           ++ simpl. now rewrite Hs.
           ++ simpl. now rewrite Hq.
           ++ simpl. now rewrite Hr.
           ++ repeat (constructor; [now split|]). exact Hc.
      * injection H as <- <-.
        exists [Clock (clock_reading env (clock_calls w));
                Resolve (r_fqdn record) (r_type record) (Raise e)], O.
        unfold resolve, clock, log, Spec.emits. cbn. rewrite Ea. cbn.
        rewrite <- app_assoc. repeat split.
        repeat constructor.
    + injection H as <- <-.
      exists [Clock (clock_reading env (clock_calls w))], O.
      unfold clock, log, Spec.emits. simpl. repeat split.
      repeat constructor.
Qed.

(** While the clock shows a time before the deadline and the resolver
    does not show the value, the wait goes on. *)
Lemma wait_propagation_goes_on (fuel : nat) :
  (forall k, clock_reading env k < deadline) ->
  (forall k, exists values,
      resolver_answer env k (r_fqdn record) (r_type record) = Ok values
      /\ ~ In (r_data record) values) ->
  forall w : World P,
    fst (wait_propagation env fuel deadline record w) = Running
    /\ resolver_calls (snd (wait_propagation env fuel deadline record w))
       = (resolver_calls w + fuel)%nat.
Proof.
  intros Hclock Hresolver.
  induction fuel as [|fuel IH]; intros w.
  - simpl. split; [reflexivity|lia].
  - rewrite wait_propagation_step. cbv zeta.
    destruct (Z.ltb_spec (clock_reading env (clock_calls w)) deadline)
      as [_|Hge]; [|specialize (Hclock (clock_calls w)); lia].
    destruct (Hresolver (resolver_calls w)) as (values & Ea & Hnot).
    rewrite Ea.
    destruct (PyStr.mem (r_data record) values) eqn:Em.
    { apply mem_In in Em. contradiction. }
    destruct (IH (snd (sleep 2
                    (snd (resolve env (r_fqdn record) (r_type record)
                            (snd (clock env w))))))) as [Hr Hn].
    split; [exact Hr|]. rewrite Hn.
    unfold sleep, resolve, clock, log. cbn. rewrite Ea. cbn. lia.
Qed.

(** The events of a wait, in their order: polls that do not end it, each
    at a reading below the deadline, and then what ends it. *)
Lemma wait_propagation_shape (fuel : nat) :
  forall (w : World P) r w',
    wait_propagation env fuel deadline record w = (r, w') ->
    exists polls last,
      Spec.emits w w' (flat_map (Observed.poll record) polls ++ last)%list
      /\ Forall (fun p => fst p < deadline /\ ~ In (r_data record) (snd p))
                polls
      /\ (map fst polls ++ readings last)%list
         = map (clock_reading env)
             (seq (clock_calls w) (List.length polls
                                   + List.length (readings last)))
      /\ match r with
         | Returned true =>
             exists t values,
               last = [Clock t;
                       Resolve (r_fqdn record) (r_type record) (Ok values)]
               /\ t < deadline /\ In (r_data record) values
         | Returned false => exists t, last = [Clock t] /\ deadline <= t
         | Raised e =>
             exists t,
               last = [Clock t;
                       Resolve (r_fqdn record) (r_type record) (Raise e)]
               /\ t < deadline
         | Running => last = [] /\ List.length polls = fuel
         end.
Proof.
  induction fuel as [|fuel IH]; intros w r w' H.
  - injection H as <- <-. exists [], []. simpl.
    split; [apply emits_refl|]. auto.
  - rewrite wait_propagation_step in H. cbv zeta in H.
    destruct (Z.ltb_spec (clock_reading env (clock_calls w)) deadline)
      as [Hlt|Hge].
    + destruct (resolver_answer env (resolver_calls w) (r_fqdn record)
                  (r_type record)) as [values|e] eqn:Ea.
      * destruct (PyStr.mem (r_data record) values) eqn:Em.
        -- injection H as <- <-.
           exists [], [Clock (clock_reading env (clock_calls w));
                       Resolve (r_fqdn record) (r_type record) (Ok values)].
           split; [|split; [constructor|split; [reflexivity|]]].
           ++ unfold resolve, clock, log, Spec.emits. cbn. rewrite Ea. cbn.
              now rewrite <- app_assoc.
           ++ exists (clock_reading env (clock_calls w)), values.
              split; [reflexivity|]. split; [exact Hlt|].
              now apply mem_In.
        -- destruct (IH _ _ _ H) as (polls & last & He & Hp & Hr & Hend).
           assert (Hcalls :
             clock_calls (snd (sleep 2
                            (snd (resolve env (r_fqdn record) (r_type record)
                                    (snd (clock (P := P) env w))))))
             = S (clock_calls w)).
           { unfold sleep, resolve, clock, log. cbn. rewrite Ea.
             reflexivity. }
           rewrite Hcalls in Hr.
           exists ((clock_reading env (clock_calls w), values) :: polls),
             last.
           split; [|split; [|split]].
           ++ unfold Spec.emits in *. rewrite He.
              unfold sleep, resolve, clock, log. cbn. rewrite Ea. cbn.
              now rewrite <- !app_assoc.
           ++ constructor; [|exact Hp]. cbn [fst snd].
              split; [exact Hlt|].
              intros Hin. apply mem_In in Hin. congruence.
           ++ cbn [map fst List.length Nat.add seq app]. now rewrite Hr.
           ++ destruct r as [[|]|e|]; try exact Hend.
              destruct Hend as [-> <-]. now split.
      * injection H as <- <-.
        exists [], [Clock (clock_reading env (clock_calls w));
                    Resolve (r_fqdn record) (r_type record) (Raise e)].
        split; [|split; [constructor|split; [reflexivity|]]].
        -- unfold resolve, clock, log, Spec.emits. cbn. rewrite Ea. cbn.
           now rewrite <- app_assoc.
        -- exists (clock_reading env (clock_calls w)). now split.
    + injection H as <- <-.
      exists [], [Clock (clock_reading env (clock_calls w))].
      split; [reflexivity|]. split; [constructor|].
      split; [reflexivity|].
      exists (clock_reading env (clock_calls w)). now split.
Qed.

End Polls.

(** X20. The events of the wait for one record, in their order.  The wait
    is a sequence of polls that do not end it and of one that does.  A poll
    that does not end it reads the clock, which is below the deadline, asks
    the resolver for the record's own [fqdn] and [type], gets an answer
    without the record's data, and sleeps for two seconds (the
    [query_interval] of the options plays no part).  The wait ends, without
    a sleep, with the poll whose answer has the data ([propagated] is set)
    or in which the resolver raises, both at a reading below the deadline;
    or it ends, without a query, with the first reading that is not below
    the deadline ([propagated] is not set).  The readings are the
    successive readings of the injected clock. *)
Theorem wait_polls_every_two_seconds
    {P : Type} (env : Env) (fuel : nat) (deadline : Z) (record : DORecord)
    (w : World P) (r : outcome bool) (w' : World P) :
  wait_propagation env fuel deadline record w = (r, w') ->
  exists polls last,
    Spec.emits w w' (flat_map (Observed.poll record) polls ++ last)%list
    /\ Forall (fun p => fst p < deadline /\ ~ In (r_data record) (snd p))
              polls
    /\ (map fst polls ++ readings last)%list
       = map (clock_reading env)
           (seq (clock_calls w) (List.length polls
                                 + List.length (readings last)))
    /\ match r with
       | Returned true =>
           exists t values,
             last = [Clock t;
                     Resolve (r_fqdn record) (r_type record) (Ok values)]
             /\ t < deadline /\ In (r_data record) values
       | Returned false => exists t, last = [Clock t] /\ deadline <= t
       | Raised e =>
           exists t,
             last = [Clock t;
                     Resolve (r_fqdn record) (r_type record) (Raise e)]
             /\ t < deadline
       | Running => last = [] /\ List.length polls = fuel
       end.
Proof.
  intros H.
  exact (wait_propagation_shape env deadline record fuel w r w' H).
Qed.

Lemma wait_polls_every_two_seconds_witness :
  exists polls last,
    Spec.emits (init_world (@nil Http.Request))
      (snd (wait_propagation (Scenario.env_with 50 []) 5 120
              Scenario.a_record (init_world [])))
      (flat_map (Observed.poll Scenario.a_record) polls ++ last)%list
    /\ Forall (fun p => fst p < 120 /\ ~ In "tok1" (snd p)) polls
    /\ (map fst polls ++ readings last)%list
       = map (clock_reading (Scenario.env_with 50 []))
           (seq 0 (List.length polls + List.length (readings last)))
    /\ exists t, last = [Clock t] /\ 120 <= t.
Proof.
  apply (wait_polls_every_two_seconds (Scenario.env_with 50 []) 5 120
           Scenario.a_record (init_world []) (Returned false)).
  vm_compute. reflexivity.
Defined.

(** X21. Nothing but the clock ends a wait that the resolver does not end:
    while every reading of the injected clock is before the deadline and no
    answer of the resolver holds the value, the wait is still polling after
    any number of polls. *)
Theorem wait_goes_on_while_the_clock_stands_still
    {P : Type} (env : Env) (deadline : Z) (record : DORecord)
    (fuel : nat) (w : World P) :
  (forall k, clock_reading env k < deadline) ->
  (forall k, exists values,
      resolver_answer env k (r_fqdn record) (r_type record) = Ok values
      /\ ~ In (r_data record) values) ->
  fst (wait_propagation env fuel deadline record w) = Running
  /\ resolver_calls (snd (wait_propagation env fuel deadline record w))
     = (resolver_calls w + fuel)%nat.
Proof.
  intros Hclock Hresolver.
  now apply wait_propagation_goes_on.
Qed.

Lemma wait_goes_on_while_the_clock_stands_still_witness :
  fst (wait_propagation (Scenario.env_with 0 []) 1000 120 Scenario.a_record
         (init_world (@nil Http.Request))) = Running
  /\ resolver_calls
       (snd (wait_propagation (Scenario.env_with 0 []) 1000 120
               Scenario.a_record (init_world (@nil Http.Request))))
     = (0 + 1000)%nat.
Proof.
  apply (wait_goes_on_while_the_clock_stands_still (Scenario.env_with 0 [])
           120 Scenario.a_record 1000 (init_world [])).
  - intros k. cbn. lia.
  - intros k. exists []. split; [reflexivity|]. intros [].
Defined.

(** X22. With the DigitalOcean adapter, a record that [create_record]
    returned without creating it (the first record listed held the value)
    is polled at the root domain of the name: it is the root domain, and not
    the name the record was asked for, that the wait asks the resolver
    about. *)
Theorem reused_record_is_polled_at_the_root_domain
    {P : Type}
    (api : list Http.Request -> Http.Request -> result Http.Response)
    (time_time : list Http.Request -> Z)
    (options : RecordOptions) (log : Http.Client) (record : DORecord)
    (domain : string)
    (env : Env) (fuel : nat) (deadline : Z)
    (w : World P) (r : outcome bool) (w' : World P) :
  get_domain (fqdn options) = Ok domain ->
  DigitalOcean.provider_create_record api time_time options log
  = (Returned record,
     (log ++ [Spec.list_request domain (fqdn options)
                (record_type options)])%list) ->
  wait_propagation env fuel deadline record w = (r, w') ->
  exists tr n,
    Spec.emits w w' tr
    /\ Observed.queries tr = repeat (domain, r_type record) n.
Proof.
  intros Hd Hcreate Hwait.
  destruct (create_record_returns _ _ _ _ _ _ Hcreate)
    as (domain' & _ & Hd' & _ & _ & Hcases).
  assert (domain' = domain) by congruence. subst domain'.
  cbv zeta in Hcases.
  destruct Hcases as [(_ & Hf & _)|(Hl & _)].
  - destruct (wait_propagation_polls env deadline record fuel w r w' Hwait)
      as (tr & m & He & _ & Hq & _).
    rewrite Hf in Hq. eauto.
  - apply (f_equal (@List.length _)) in Hl.
    rewrite !length_app in Hl. simpl in Hl. lia.
Qed.

Lemma reused_record_is_polled_at_the_root_domain_witness :
  exists tr n,
    Spec.emits (init_world (@nil Http.Request))
      (snd (wait_propagation (Scenario.env_with 50 []) 5 120
              Scenario.tok_record (init_world [])))
      tr
    /\ Observed.queries tr = repeat ("example.com", TXT) n.
Proof.
  apply (reused_record_is_polled_at_the_root_domain
           (Scenario.zone_api [Scenario.tok_item] 204) Scenario.at_noon
           (Scenario.options_tok true) [] Scenario.tok_record "example.com"
           (Scenario.env_with 50 []) 5 120 (init_world [])
           (Returned false)).
  - reflexivity.
  - reflexivity.
  - vm_compute. reflexivity.
Defined.

(** ** The [with] statement, step by step *)

Lemma failed_deletions_none (tr : list Event) :
  deleted tr = [] -> failed_deletions tr = [].
Proof.
  induction tr as [|e tr IH]; simpl; [reflexivity|].
  destruct e; simpl; try exact IH. discriminate.
Qed.

Lemma last_failure_none (fails : list (DORecord * exn)) :
  Spec.last_failure fails = None -> fails = [].
Proof.
  unfold Spec.last_failure. intros H.
  destruct (rev fails) as [|[r e] rest] eqn:E; [|discriminate].
  apply (f_equal (@rev _)) in E. now rewrite rev_involutive in E.
Qed.

Section RunMore.
Import Spec Observed ObservedFacts.

Context {P : Type}.
Variable provider : Provider P.
Variable env : Env.
Variable d : option Z.

(** The creation loop asks for the records in their order, with the
    options of [temporary_txt_records], and stops at the first creation
    that does not return. *)
Lemma create_all_requests records l r l' :
  create_all provider records l = (r, l') ->
  exists tr k,
    emits (world l) (world l') tr
    /\ Forall is_create tr
    /\ creation_requests tr = map options_of (firstn k records)
    /\ (r = Returned tt ->
        k = List.length records
        /\ List.length (created tr) = List.length records)
    /\ stack l' = (rev (created tr) ++ stack l)%list
    /\ dns_records l' = (dns_records l ++ created tr)%list
    /\ creation_outcomes tr
       = (map Returned (created tr)
          ++ match r with
             | Returned _ => []
             | Raised e => [Raised e]
             | Running => [Running]
             end)%list
    /\ clock_calls (world l') = clock_calls (world l).
Proof.
  revert l r l'.
  induction records as [|[name value] records IH]; intros l r l' H;
    simpl in H.
  - injection H as <- <-. exists [], O. simpl.
    rewrite app_nil_r.
    split; [apply emits_refl|]. split; [constructor|].
    split; [reflexivity|]. split; [now intros _|]. auto.
  - unfold mbind, outside, provider_create, stack_callback,
      dns_records_append in H.
    destruct (create_record provider (txt_options name value)
                (provider_state (world l))) as [[record|e|] p'] eqn:E.
    + destruct (IH _ _ _ H)
        as (tr & k & He & Hc & Hq & Hk & Hs & Hr & Ho & Hcl).
      simpl in *.
      exists (CreateRecord (txt_options name value) (Returned record) :: tr),
        (S k).
      split; [|split; [|split; [|split; [|split; [|split; [|split]]]]]].
      * unfold emits in *. rewrite He. simpl. now rewrite <- app_assoc.
      * constructor; [exact I|exact Hc].
      * simpl. now rewrite Hq.
      * intros Hret. destruct (Hk Hret) as [-> Hlen]. simpl.
        now rewrite Hlen.
      * rewrite Hs. simpl. unfold ExitStack.callback.
        now rewrite <- app_assoc.
      * rewrite Hr. simpl. now rewrite <- app_assoc.
      * simpl. now rewrite Ho.
      * exact Hcl.
    + injection H as <- <-. simpl.
      exists [CreateRecord (txt_options name value) (Raised e)], 1%nat.
      simpl. rewrite app_nil_r.
      split; [reflexivity|]. split; [repeat constructor|].
      split; [reflexivity|]. split; [discriminate|]. auto.
    + injection H as <- <-. simpl.
      exists [CreateRecord (txt_options name value) Running], 1%nat.
      simpl. rewrite app_nil_r.
      split; [reflexivity|]. split; [repeat constructor|].
      split; [reflexivity|]. split; [discriminate|]. auto.
Qed.

(** What follows the creation loop in the [try] block makes no provider
    call and leaves the stack alone. *)
Lemma try_block_after_creations {T} fuel records
    (body : list DORecord -> M (World P) T) l0 r l :
  (forall dns, only (calm d) (body dns)) ->
  try_block provider env fuel records body l0 = (r, l) ->
  exists r1 l1 tr2,
    create_all provider records l0 = (r1, l1)
    /\ emits (world l1) (world l) tr2
    /\ Forall (calm d) tr2
    /\ stack l = stack l1
    /\ match r1 with
       | Returned _ => True
       | Raised e => r = Raised e
       | Running => r = Running
       end.
Proof.
  intros Hbody H. unfold try_block in H. unfold mbind at 1 in H.
  destruct (create_all provider records l0) as [r1 l1] eqn:E1.
  exists r1, l1.
  destruct r1 as [[]|e|].
  - unfold mbind at 1 in H.
    destruct (outside (clock env) l1) as [rc lc] eqn:Ec.
    destruct (outside_only _ _ _ _ _ (only_clock env d) Ec)
      as (Hsc & _ & trc & Hec & Hpc).
    destruct rc as [now|e|].
    + unfold mbind in H.
      destruct (outside (wait_all env fuel (float_add now 120) (dns_records lc))
                  lc)
        as [rw lw] eqn:Ew.
      destruct (outside_only _ _ _ _ _ (only_wait_all env d _ _ _) Ew)
        as (Hsw & _ & trw & Hew & Hpw).
      destruct rw as [[]|e|].
      * destruct (outside (body (dns_records lw)) lw) as [rb lb] eqn:Eb.
        injection H as <- <-.
        destruct (outside_only _ _ _ _ _ (Hbody _) Eb)
          as (Hsb & _ & trb & Heb & Hpb).
        exists (trc ++ trw ++ trb)%list.
        split; [reflexivity|]. split; [eauto using emits_trans|].
        split; [repeat (apply Forall_app; split); assumption|].
        split; [congruence|exact I].
      * injection H as <- <-. exists (trc ++ trw)%list.
        split; [reflexivity|]. split; [eauto using emits_trans|].
        split; [apply Forall_app; now split|]. split; [congruence|exact I].
      * injection H as <- <-. exists (trc ++ trw)%list.
        split; [reflexivity|]. split; [eauto using emits_trans|].
        split; [apply Forall_app; now split|]. split; [congruence|exact I].
    + injection H as <- <-. exists trc. repeat split; assumption.
    + injection H as <- <-. exists trc. repeat split; assumption.
  - injection H as <- <-. exists [].
    split; [reflexivity|]. split; [apply emits_refl|].
    split; [constructor|]. now split.
  - injection H as <- <-. exists [].
    split; [reflexivity|]. split; [apply emits_refl|].
    split; [constructor|]. now split.
Qed.

(** The whole [with] statement: the creations, then what makes no provider
    call, then the deletions. *)
Lemma with_statement_run {T} fuel records
    (body : list DORecord -> M (World P) T) w r w' :
  (forall dns, only (calm d) (body dns)) ->
  temporary_txt_records provider env fuel records body w = (r, w') ->
  exists r1 primary trc tr2 tr3 k,
    fst (create_all provider records (mkLocals ExitStack.empty [] w)) = r1
    /\ fst (try_block provider env fuel records body
              (mkLocals ExitStack.empty [] w)) = primary
    /\ emits w w' (trc ++ tr2 ++ tr3)
    /\ Forall is_create trc /\ Forall (calm d) tr2 /\ Forall is_delete tr3
    /\ creation_requests trc = map options_of (firstn k records)
    /\ (r1 = Returned tt ->
        k = List.length records
        /\ List.length (created trc) = List.length records)
    /\ match r1 with
       | Returned _ => True
       | Raised e => primary = Raised e
       | Running => primary = Running
       end
    /\ (r <> Running ->
        deleted tr3 = rev (created trc)
        /\ r = match last_failure (failed_deletions tr3) with
               | Some e => Raised e
               | None => primary
               end)
    /\ creation_outcomes trc
       = (map Returned (created trc)
          ++ match r1 with
             | Returned _ => []
             | Raised e => [Raised e]
             | Running => [Running]
             end)%list
    /\ (primary = Running -> r = Running).
Proof.
  intros Hbody H.
  destruct (try_block provider env fuel records body
              (mkLocals ExitStack.empty [] w)) as [primary l] eqn:Et.
  destruct (try_block_after_creations _ _ _ _ _ _ Hbody Et)
    as (r1 & l1 & tr2 & Ec & He2 & Hp2 & Hs & Hr1).
  destruct (create_all_requests _ _ _ _ Ec)
    as (trc & k & Hec & Hcc & Hq & Hk & Hst & _ & Ho & _).
  destruct (finally_runs_callbacks provider env fuel records body
              _ _ _ _ _ Et H) as (tr3 & He3 & Hd3 & Hfin).
  exists r1, primary, trc, tr2, tr3, k. rewrite Ec. cbn [fst].
  split; [reflexivity|]. split; [reflexivity|].
  split; [eauto using emits_trans|].
  repeat (split; [assumption|]).
  split; [|split; [exact Ho|]].
  - intros Hr. destruct (Hfin Hr) as [Hdel Hres].
    split; [|exact Hres].
    rewrite Hdel, Hs, Hst. simpl. now rewrite app_nil_r.
  - intros ->. unfold temporary_txt_records in H. rewrite Et in H.
    now injection H as <- _.
Qed.

(** The [try] block returns only when what precedes the [yield] and the
    body both returned. *)
Lemma try_block_returned {T} fuel records
    (body : list DORecord -> M (World P) T) l0 a l :
  try_block provider env fuel records body l0 = (Returned a, l) ->
  exists l1,
    before_yield provider env fuel records l0 = (Returned tt, l1)
    /\ body (dns_records l1) (world l1) = (Returned a, world l).
Proof.
  rewrite try_block_split. unfold mbind.
  destruct (before_yield provider env fuel records l0) as [[[]|e|] l1];
    try discriminate.
  unfold outside.
  destruct (body (dns_records l1) (world l1)) as [rb wb] eqn:Eb.
  intros [= -> <-]. exists l1. split; [reflexivity|exact Eb].
Qed.

(** ** Termination *)

Hypothesis create_ends :
  forall options p, fst (create_record provider options p) <> Running.
Hypothesis delete_ends :
  forall record p, fst (delete_record provider record p) <> Running.
Hypothesis clock_advances :
  forall k, clock_reading env k < clock_reading env (S k).

Lemma clock_monotone (j k : nat) :
  (j <= k)%nat -> clock_reading env j <= clock_reading env k.
Proof.
  induction 1 as [|k _ IH]; [lia|].
  pose proof (clock_advances k). lia.
Qed.

Lemma wait_propagation_ends (deadline : Z) (record : DORecord) :
  forall (fuel : nat) (w : World P),
    (0 < fuel)%nat ->
    deadline - clock_reading env (clock_calls w) < Z.of_nat fuel ->
    fst (wait_propagation env fuel deadline record w) <> Running
    /\ (clock_calls w
        <= clock_calls (snd (wait_propagation env fuel deadline record w)))%nat.
Proof.
  induction fuel as [|fuel IH]; intros w Hpos Hfuel; [lia|].
  rewrite wait_propagation_step. cbv zeta.
  destruct (Z.ltb_spec (clock_reading env (clock_calls w)) deadline)
    as [Hlt|Hge].
  - destruct (resolver_answer env (resolver_calls w) (r_fqdn record)
                (r_type record)) as [values|e] eqn:Ea.
    + destruct (PyStr.mem (r_data record) values).
      * split; [discriminate|].
        unfold resolve, clock, log. cbn. rewrite Ea. cbn. lia.
      * pose proof (clock_advances (clock_calls w)) as Hstep.
        assert (Hcalls :
          clock_calls (snd (sleep 2
                         (snd (resolve env (r_fqdn record) (r_type record)
                                 (snd (clock (P := P) env w))))))
          = S (clock_calls w)).
        { unfold sleep, resolve, clock, log. cbn. rewrite Ea. reflexivity. }
        destruct (IH (snd (sleep 2
                        (snd (resolve env (r_fqdn record) (r_type record)
                                (snd (clock env w)))))))
          as [Hr Hc]; [lia|rewrite Hcalls; lia|].
        split; [exact Hr|]. rewrite Hcalls in Hc. lia.
    + split; [discriminate|].
      unfold resolve, clock, log. cbn. rewrite Ea. cbn. lia.
  - split; [discriminate|]. cbn. lia.
Qed.

Lemma wait_all_ends (fuel : nat) (deadline : Z) (records : list DORecord) :
  forall w : World P,
    (0 < fuel)%nat ->
    deadline - clock_reading env (clock_calls w) < Z.of_nat fuel ->
    fst (wait_all env fuel deadline records w) <> Running.
Proof.
  induction records as [|record records IH]; intros w Hpos Hfuel; simpl.
  - discriminate.
  - unfold mbind.
    destruct (wait_propagation_ends deadline record fuel w Hpos Hfuel)
      as [Hr Hc].
    destruct (wait_propagation env fuel deadline record w)
      as [[propagated|e|] w1]; cbn [fst snd] in *;
      [|discriminate|contradiction].
    destruct propagated; cbn [negb]; [|discriminate].
    apply IH; [exact Hpos|].
    pose proof (clock_monotone _ _ Hc). lia.
Qed.

Lemma create_all_ends (records : list (string * string)) :
  forall l, fst (create_all provider records l) <> Running.
Proof.
  induction records as [|[name value] records IH]; intros l; simpl.
  - discriminate.
  - unfold mbind, outside, provider_create, stack_callback,
      dns_records_append.
    pose proof (create_ends (txt_options name value)
                  (provider_state (world l))) as Hc.
    destruct (create_record provider (txt_options name value)
                (provider_state (world l))) as [[record|e|] p'];
      cbn [fst] in *; [apply IH|discriminate|contradiction].
Qed.

Lemma run_callbacks_ends (stack : ExitStack.t) :
  forall pending w,
    fst (ExitStack.run_callbacks provider stack pending w) <> Running.
Proof.
  induction stack as [|record stack IH]; intros pending w; simpl.
  - discriminate.
  - unfold provider_delete.
    pose proof (delete_ends record (provider_state w)) as Hd.
    destruct (delete_record provider record (provider_state w))
      as [[[]|e|] p']; cbn [fst] in *; [apply IH|apply IH|contradiction].
Qed.

Lemma with_statement_ends {T} (fuel : nat) records
    (body : list DORecord -> M (World P) T) w :
  (0 < fuel)%nat ->
  float_add (clock_reading env (clock_calls w)) 120
  - clock_reading env (clock_calls w) <= Z.of_nat fuel ->
  (forall dns w0, fst (body dns w0) <> Running) ->
  fst (temporary_txt_records provider env fuel records body w) <> Running.
Proof.
  intros Hpos Hfuel Hbody. unfold temporary_txt_records.
  assert (Htry : fst (try_block provider env fuel records body
                        (mkLocals ExitStack.empty [] w)) <> Running).
  { unfold try_block. unfold mbind at 1.
    pose proof (create_all_ends records (mkLocals ExitStack.empty [] w))
      as Hc.
    destruct (create_all provider records (mkLocals ExitStack.empty [] w))
      as [[[]|e|] l1] eqn:E1; cbn [fst] in *; [|discriminate|contradiction].
    destruct (create_all_requests _ _ _ _ E1)
      as (_ & _ & _ & _ & _ & _ & _ & _ & _ & Hcl).
    cbn [world] in Hcl.
    unfold mbind at 1. unfold outside at 1. cbn [clock].
    unfold mbind. unfold outside at 1. cbn [world dns_records stack].
    set (w1 := log _ _).
    pose proof (wait_all_ends fuel
                  (float_add (clock_reading env (clock_calls (world l1))) 120)
                  (dns_records l1) w1) as Hw.
    pose proof (clock_advances (clock_calls (world l1))) as Hstep.
    destruct (wait_all env fuel _ (dns_records l1) w1) as [[[]|e|] w2];
      cbn [fst] in *.
    - unfold outside. cbn [world dns_records].
      pose proof (Hbody (dns_records l1) w2) as Hb.
      destruct (body (dns_records l1) w2) as [rb wb]. exact Hb.
    - discriminate.
    - exfalso. apply Hw; [exact Hpos| |reflexivity]. subst w1. cbn.
      rewrite Hcl in *. lia. }
  destruct (try_block provider env fuel records body
              (mkLocals ExitStack.empty [] w)) as [primary l].
  cbn [fst] in Htry.
  unfold ExitStack.__exit__, mbind.
  pose proof (run_callbacks_ends (stack l) None (world l)) as Hx.
  destruct (ExitStack.run_callbacks provider (stack l) None (world l))
    as [[[exc|]|exc|] wx]; cbn [fst] in *;
    destruct primary; cbn [fst ret raise]; try discriminate;
    contradiction.
Qed.

Lemma answer_all_ends index challenges responses (w : World P) :
  fst (answer_all env index challenges responses w) <> Running.
Proof.
  revert index w.
  induction challenges as [|c cs IH]; intros index w; simpl;
    [discriminate|].
  destruct (nth_error responses index); [|discriminate].
  unfold mbind, answer_challenge.
  destruct (acme_answer_challenge env (answer_calls w) c s);
    cbn [lift ret raise]; [apply IH|discriminate].
Qed.

Lemma call_ends (fuel : nat) domains deadline (w : World P) :
  (0 < fuel)%nat ->
  float_add (clock_reading env (clock_calls w)) 120
  - clock_reading env (clock_calls w) <= Z.of_nat fuel ->
  fst (__call__ provider env fuel domains deadline w) <> Running.
Proof.
  intros Hpos Hfuel. unfold __call__. unfold mbind at 1. unfold new_order.
  destruct (acme_new_order env domains) as [order|e];
    cbn [lift ret raise]; [|discriminate].
  destruct (flat_map (filter Acme.is_dns01) (Acme.authorizations order))
    as [|c cs]; [discriminate|].
  unfold mbind at 1.
  destruct (verification_tokens 0 domains (map Acme.validation (c :: cs)))
    as [tokens|e]; cbn [lift ret raise]; [|discriminate].
  apply with_statement_ends; [exact Hpos|exact Hfuel|].
  intros dns w0. unfold mbind.
  pose proof (answer_all_ends 0 (c :: cs) (map Acme.response (c :: cs)) w0)
    as Ha.
  destruct (answer_all env 0 (c :: cs) (map Acme.response (c :: cs)) w0)
    as [[[]|e|] w1]; cbn [fst] in *; [|discriminate|contradiction].
  unfold poll_and_finalize.
  destruct (acme_poll_and_finalize env order deadline); discriminate.
Qed.

End RunMore.

(** The DigitalOcean adapter has no loop: its operations end. *)
Lemma digitalocean_ends
    (api : list Http.Request -> Http.Request -> result Http.Response)
    (time_time : list Http.Request -> Z) :
  (forall options p,
      fst (create_record (DigitalOceanProvider api time_time) options p)
      <> Running)
  /\ (forall record p,
        fst (delete_record (DigitalOceanProvider api time_time) record p)
        <> Running).
Proof.
  split.
  - intros options p. cbn [create_record DigitalOceanProvider].
    destruct (check_record_type_cases (record_type options)) as [[Hs _]|[Hs _]].
    { rewrite create_record_soa by assumption. discriminate. }
    rewrite create_record_cases by assumption.
    pose proof (get_records_ends api time_time (fqdn options)
                  (record_type options) p) as Hg.
    assert (Hnew : forall lg,
               fst (DigitalOcean.create_new api time_time
                      (record_type options) options lg) <> Running).
    { intros lg. unfold DigitalOcean.create_new, mbind, DigitalOcean.send,
        DigitalOcean.check_status.
      destruct (get_domain (fqdn options)); cbn [lift ret raise];
        [|discriminate].
      destruct (api lg _) as [response|]; [|discriminate].
      destruct (DigitalOcean.raise_for_status _ response);
        cbn [lift ret raise]; [|discriminate].
      destruct (Http.json response); cbn [lift ret raise]; [|discriminate].
      destruct (DigitalOcean.create_record _ _); discriminate. }
    destruct (DigitalOcean._get_records api time_time (fqdn options)
                (record_type options) p) as [[[|r rest]|e|] lg];
      cbn [fst] in *.
    + apply Hnew.
    + destruct (String.eqb _ _ && _); [discriminate|].
      destruct (append options); [apply Hnew|discriminate].
    + destruct e; try discriminate.
      destruct (append options); [apply Hnew|discriminate].
    + contradiction.
  - intros record p. cbn [delete_record DigitalOceanProvider].
    unfold DigitalOcean.provider_delete_record, mbind, DigitalOcean.send,
      DigitalOcean.check_status.
    destruct (resource_id record); [|discriminate].
    destruct (api p _) as [response|]; [|discriminate].
    destruct (DigitalOcean.raise_for_status _ response); discriminate.
Qed.

(** X23. A run of [__call__] ends, whatever the provider, the resolver and
    the ACME client answer, provided that the two operations of the provider
    end and that the injected clock shows a later time at every reading: the
    waits are bounded by the clock alone.  With times in whole seconds, and
    a first reading below 2^53 - 120 seconds in size, where the sum that
    fixes the deadline of the wait is exact, room for 120 polls is enough:
    120 polls exhaust the 120 seconds. *)
Theorem call_ends_when_the_clock_advances
    {P : Type} (provider : Provider P) (env : Env)
    (domains : list string) (deadline : option Z) (w : World P) :
  (forall options p, fst (create_record provider options p) <> Running) ->
  (forall record p, fst (delete_record provider record p) <> Running) ->
  (forall k, clock_reading env k < clock_reading env (S k)) ->
  (exists enough,
     forall fuel,
       (enough <= fuel)%nat ->
       fst (__call__ provider env fuel domains deadline w) <> Running)
  /\ (Z.abs (clock_reading env (clock_calls w)) + 120 < 2 ^ 53 ->
      forall fuel,
        (120 <= fuel)%nat ->
        fst (__call__ provider env fuel domains deadline w) <> Running).
Proof.
  intros Hcreate Hdelete Hclock. split.
  - exists (S (Z.to_nat (float_add (clock_reading env (clock_calls w)) 120
                         - clock_reading env (clock_calls w)))).
    intros fuel Hfuel. apply call_ends; try assumption; lia.
  - intros Hexact fuel Hfuel. apply call_ends; try assumption; [lia|].
    rewrite float_add_exact by lia. lia.
Qed.

Lemma call_ends_when_the_clock_advances_witness :
  fst (__call__ (Scenario.provider_with 204) (Scenario.env_with 1 []) 120
         [Scenario.a_domain] None (init_world []))
  <> Running.
Proof.
  destruct (call_ends_when_the_clock_advances (Scenario.provider_with 204)
              (Scenario.env_with 1 []) [Scenario.a_domain] None
              (init_world [])) as [_ Hroom].
  - apply (proj1 (digitalocean_ends (Scenario.zone_api [] 204)
                    Scenario.at_noon)).
  - apply (proj2 (digitalocean_ends (Scenario.zone_api [] 204)
                    Scenario.at_noon)).
  - intros k. cbn [clock_reading Scenario.env_with]. lia.
  - apply Hroom; [vm_compute; reflexivity|lia].
Defined.

(** X24. The creations of a run: [create_record] is asked for the
    verification records in the order of the domains, each as a TXT record
    with a ttl of 30 seconds and [append] set, and for nothing else.  The
    creations stop at the first one that does not return: every creation
    but the last returned its record; either all the records were asked for
    and the last creation returned too, or the last creation raised, and the
    run raises what it raised unless a deletion of the cleanup fails.  A run
    that returns has asked for all of them. *)
Theorem call_creates_the_verification_records
    {P : Type} (provider : Provider P) (env : Env) (fuel : nat)
    (domains : list string) (deadline : option Z)
    (w : World P) (r : outcome string) (w' : World P)
    (order : Acme.Order) (tokens : list (string * string)) :
  __call__ provider env fuel domains deadline w = (r, w') ->
  acme_new_order env domains = Ok order ->
  verification_tokens 0 domains
    (map Acme.validation (Observed.dns01_challenges order)) = Ok tokens ->
  exists tr k,
    Spec.emits w w' tr
    /\ Observed.creation_requests tr
       = map (fun record =>
                mkOptions (fst record) TXT (snd record) 30 true 120 2)
             (firstn k tokens)
    /\ (forall chain, r = Returned chain -> k = List.length tokens)
    /\ ((k = List.length tokens
         /\ Observed.creation_outcomes tr = map Returned (created tr))
        \/ (exists e,
              Observed.creation_outcomes tr
              = (map Returned (created tr) ++ [Raised e])%list
              /\ (r <> Running ->
                  r = match Spec.last_failure (failed_deletions tr) with
                      | Some e' => Raised e'
                      | None => Raised e
                      end))
        \/ (Observed.creation_outcomes tr
            = (map Returned (created tr) ++ [Running])%list
            /\ r = Running)).
Proof.
  unfold Observed.dns01_challenges. intros H Horder Htokens.
  unfold __call__ in H. unfold mbind at 1 in H. unfold new_order in H.
  rewrite Horder in H. cbn [lift ret] in H.
  destruct (flat_map (filter Acme.is_dns01) (Acme.authorizations order))
    as [|c cs] eqn:Ecs.
  { injection H as <- <-. exists [NewOrder domains], O.
    split; [reflexivity|]. split; [reflexivity|].
    split; [discriminate|]. left. split; [|reflexivity].
    destruct domains as [|dom ds]; simpl in Htokens.
    - now injection Htokens as <-.
    - discriminate. }
  unfold mbind at 1 in H. rewrite Htokens in H. cbn [lift ret] in H.
  destruct (with_statement_run provider env deadline fuel tokens _ _ _ _
              (fun _ => only_with_body env deadline order _ _) H)
    as (r1 & primary & trc & tr2 & tr3 & k & Hr1 & Hprim & He & Hc & Hp2
        & Hd3 & Hq & Hk & Hfail & Hfin & Ho & Hrun).
  assert (Hcalm2 : Forall Spec.not_provider tr2).
  { eapply Forall_impl; [|exact Hp2]. now intros ev []. }
  assert (Houtcomes : forall tr,
             Forall Spec.not_provider tr \/ Forall Spec.is_delete tr ->
             Observed.creation_outcomes tr = []).
  { intros tr [Hall|Hall]; induction Hall as [|ev tr Hev _ IH];
      try reflexivity; destruct ev; simpl in *; try contradiction;
      exact IH. }
  assert (Hcreated :
    created (NewOrder domains :: trc ++ tr2 ++ tr3) = created trc).
  { cbn [created]. rewrite !created_app.
    rewrite (proj1 (not_provider_created _ Hcalm2)),
      (proj1 (only_deletions _ Hd3)). now rewrite !app_nil_r. }
  assert (Hfailed :
    failed_deletions (NewOrder domains :: trc ++ tr2 ++ tr3)
    = failed_deletions tr3).
  { cbn [failed_deletions]. rewrite !failed_deletions_app.
    rewrite (failed_deletions_none _ (proj1 (only_creations _ Hc))),
      (failed_deletions_none _ (proj2 (not_provider_created _ Hcalm2))).
    reflexivity. }
  assert (Hall_outcomes :
    Observed.creation_outcomes (NewOrder domains :: trc ++ tr2 ++ tr3)
    = Observed.creation_outcomes trc).
  { cbn [Observed.creation_outcomes].
    assert (Happ : forall a b,
               Observed.creation_outcomes (a ++ b)
               = (Observed.creation_outcomes a
                  ++ Observed.creation_outcomes b)%list).
    { intros a b. induction a as [|ev a IH]; simpl; [reflexivity|].
      destruct ev; simpl; now rewrite IH. }
    rewrite !Happ, (Houtcomes tr2 (or_introl Hcalm2)),
      (Houtcomes tr3 (or_intror Hd3)). now rewrite !app_nil_r. }
  exists (NewOrder domains :: trc ++ tr2 ++ tr3)%list, k.
  split; [|split; [|split]].
  - unfold Spec.emits in *. rewrite He. cbn [log trace].
    now rewrite <- app_assoc.
  - cbn [Observed.creation_requests].
    rewrite !ObservedFacts.creation_requests_app, Hq,
      (ObservedFacts.creation_requests_calm _ _ Hp2),
      (ObservedFacts.creation_requests_deletions _ Hd3), !app_nil_r.
    reflexivity.
  - intros chain ->. destruct Hfin as [_ Hres]; [discriminate|].
    destruct (Spec.last_failure (failed_deletions tr3)); [discriminate|].
    apply Hk. destruct r1 as [[]|e|]; [reflexivity| |]; congruence.
  - rewrite Hall_outcomes, Hcreated, Hfailed, Ho.
    destruct r1 as [[]|e|].
    + left. split; [now apply Hk|now rewrite app_nil_r].
    + right. left. exists e. split; [reflexivity|].
      intros Hr. destruct (Hfin Hr) as [_ Hres]. now rewrite <- Hfail.
    + right. right. split; [reflexivity|]. now apply Hrun.
Qed.

Lemma call_creates_the_verification_records_witness :
  exists tr k,
    Spec.emits (init_world 0%nat)
      (snd (__call__ (Scenario.rate_limited_provider 1)
              Scenario.env_two_names 5
              [Scenario.a_domain; Scenario.b_domain] None (init_world 0%nat)))
      tr
    /\ Observed.creation_requests tr
       = map (fun record =>
                mkOptions (fst record) TXT (snd record) 30 true 120 2)
             (firstn k [(Scenario.a_name, "tok1"); (Scenario.b_name, "tok2")])
    /\ (forall chain : string,
          Raised (RateLimitExceededError 5) = Returned chain -> k = 2%nat)
    /\ ((k = 2%nat
         /\ Observed.creation_outcomes tr = map Returned (created tr))
        \/ (exists e,
              Observed.creation_outcomes tr
              = (map Returned (created tr) ++ [Raised e])%list
              /\ (Raised (RateLimitExceededError 5) <> @Running string ->
                  @Raised string (RateLimitExceededError 5)
                  = match Spec.last_failure (failed_deletions tr) with
                    | Some e' => Raised e'
                    | None => Raised e
                    end))
        \/ (Observed.creation_outcomes tr
            = (map Returned (created tr) ++ [Running])%list
            /\ Raised (RateLimitExceededError 5) = @Running string)).
Proof.
  apply (call_creates_the_verification_records
           (Scenario.rate_limited_provider 1)
           Scenario.env_two_names 5 [Scenario.a_domain; Scenario.b_domain]
           None (init_world 0%nat) (Raised (RateLimitExceededError 5)) _
           Scenario.order2).
  - vm_compute. reflexivity.
  - reflexivity.
  - reflexivity.
Defined.

(** A run that returns has been granted its order and has finalized
    it. *)
Lemma call_returned
    {P : Type} (provider : Provider P) (env : Env) (fuel : nat)
    (domains : list string) (deadline : option Z)
    (w : World P) (chain : string) (w' : World P) :
  __call__ provider env fuel domains deadline w = (Returned chain, w') ->
  exists order,
    acme_new_order env domains = Ok order
    /\ acme_poll_and_finalize env order deadline = Ok chain.
Proof.
  intros H.
  unfold __call__ in H. unfold mbind at 1 in H. unfold new_order in H.
  destruct (acme_new_order env domains) as [order|e] eqn:Horder;
    cbn [lift ret raise] in H; [|discriminate].
  destruct (flat_map (filter Acme.is_dns01) (Acme.authorizations order))
    as [|c cs] eqn:Ecs; [discriminate|].
  unfold mbind at 1 in H.
  destruct (verification_tokens 0 domains (map Acme.validation (c :: cs)))
    as [tokens|e] eqn:Htokens; cbn [lift ret raise] in H; [|discriminate].
  exists order. split; [reflexivity|].
  destruct (with_statement_run provider env deadline fuel tokens _ _ _ _
              (fun _ => only_with_body env deadline order _ _) H)
    as (r1 & primary & trc & tr2 & tr3 & k & _ & Hprim & _ & _ & _
        & _ & _ & _ & _ & Hfin & _).
  destruct Hfin as [_ Hres]; [discriminate|].
  destruct (Spec.last_failure (failed_deletions tr3)); [discriminate|].
  destruct (try_block provider env fuel tokens _
              (mkLocals ExitStack.empty [] (log (NewOrder domains) w)))
    as [p0 l] eqn:Et.
  cbn [fst] in Hprim. subst p0. rewrite <- Hres in Et.
  destruct (try_block_returned _ _ _ _ _ _ _ _ Et) as (l1 & _ & Hbody).
  unfold mbind in Hbody.
  destruct (answer_all env 0 (c :: cs) (map Acme.response (c :: cs))
              (world l1)) as [[[]|e|] w2]; try discriminate.
  unfold poll_and_finalize in Hbody.
  destruct (acme_poll_and_finalize env order deadline) as [chain'|e];
    cbn [lift ret raise] in Hbody; [|discriminate].
  now injection Hbody as ->.
Qed.

(** X25. A run of [__call__] that returns: the order was granted, every
    domain had its token, every verification record was created, no
    deletion raised, and what the run returns is what [poll_and_finalize]
    answered for that order under the deadline of the caller. *)
Theorem call_returns_the_finalized_order
    {P : Type} (provider : Provider P) (env : Env) (fuel : nat)
    (domains : list string) (deadline : option Z)
    (w : World P) (chain : string) (w' : World P) :
  __call__ provider env fuel domains deadline w = (Returned chain, w') ->
  exists order tokens tr,
    acme_new_order env domains = Ok order
    /\ verification_tokens 0 domains
         (map Acme.validation (Observed.dns01_challenges order)) = Ok tokens
    /\ acme_poll_and_finalize env order deadline = Ok chain
    /\ Spec.emits w w' tr
    /\ List.length (created tr) = List.length domains
    /\ failed_deletions tr = [].
Proof.
  unfold Observed.dns01_challenges. intros H. pose proof H as Hcall.
  unfold __call__ in H. unfold mbind at 1 in H. unfold new_order in H.
  destruct (acme_new_order env domains) as [order|e] eqn:Horder;
    cbn [lift ret raise] in H; [|discriminate].
  destruct (flat_map (filter Acme.is_dns01) (Acme.authorizations order))
    as [|c cs] eqn:Ecs; [discriminate|].
  unfold mbind at 1 in H.
  destruct (verification_tokens 0 domains (map Acme.validation (c :: cs)))
    as [tokens|e] eqn:Htokens; cbn [lift ret raise] in H; [|discriminate].
  exists order, tokens.
  destruct (with_statement_run provider env deadline fuel tokens _ _ _ _
              (fun _ => only_with_body env deadline order _ _) H)
    as (r1 & primary & trc & tr2 & tr3 & k & Hr1 & Hprim & He & Hc & Hp2
        & Hd3 & Hq & Hk & Hfail & Hfin & _).
  destruct Hfin as [Hdel Hres]; [discriminate|].
  destruct (Spec.last_failure (failed_deletions tr3)) eqn:Elast;
    [discriminate|].
  apply last_failure_none in Elast.
  assert (Hr1' : r1 = Returned tt).
  { destruct r1 as [[]|e|]; [reflexivity| |]; congruence. }
  destruct (Hk Hr1') as [_ Hlen].
  exists (NewOrder domains :: trc ++ tr2 ++ tr3)%list.
  split; [reflexivity|]. split; [rewrite Ecs; exact Htokens|].
  split; [|split; [|split]].
  - destruct (call_returned _ _ _ _ _ _ _ _ Hcall)
      as (order' & Horder' & Hpoll).
    congruence.
  - unfold Spec.emits in *. rewrite He. cbn [log trace].
    now rewrite <- app_assoc.
  - cbn [created]. rewrite !created_app.
    destruct (not_provider_created tr2) as [Hc2 _];
      [eapply Forall_impl; [|exact Hp2]; now intros ev []|].
    destruct (only_deletions _ Hd3) as [Hc3 _].
    rewrite Hc2, Hc3, !app_nil_r, Hlen.
    clear - Htokens. revert tokens Htokens. generalize 0%nat.
    induction domains as [|dom ds IH]; intros i tokens Ht; simpl in Ht.
    + now injection Ht as <-.
    + destruct (nth_error _ i); [|discriminate].
      destruct (verification_tokens (S i) ds _) as [rest|] eqn:Er;
        simpl in Ht; [|discriminate].
      injection Ht as <-. simpl. f_equal. now apply (IH (S i)).
  - cbn [failed_deletions]. rewrite !failed_deletions_app, Elast.
    destruct (only_creations _ Hc) as [Hd1 _].
    destruct (not_provider_created tr2) as [_ Hd2];
      [eapply Forall_impl; [|exact Hp2]; now intros ev []|].
    now rewrite (failed_deletions_none _ Hd1), (failed_deletions_none _ Hd2).
Qed.

Lemma call_returns_the_finalized_order_witness :
  exists order tokens tr,
    acme_new_order (Scenario.env_with 2 ["tok1"]) [Scenario.a_domain]
    = Ok order
    /\ verification_tokens 0 [Scenario.a_domain]
         (map Acme.validation (Observed.dns01_challenges order)) = Ok tokens
    /\ acme_poll_and_finalize (Scenario.env_with 2 ["tok1"]) order None
       = Ok "CERT"
    /\ Spec.emits (init_world [])
         (snd (__call__ (Scenario.provider_with 204)
                 (Scenario.env_with 2 ["tok1"]) 5 [Scenario.a_domain] None
                 (init_world [])))
         tr
    /\ List.length (created tr) = List.length [Scenario.a_domain]
    /\ failed_deletions tr = [].
Proof.
  apply (call_returns_the_finalized_order (Scenario.provider_with 204)
           (Scenario.env_with 2 ["tok1"]) 5 [Scenario.a_domain] None
           (init_world []) "CERT").
  vm_compute. reflexivity.
Defined.

(** X26. [request_certificate] loads the account and builds the challenge
    before it reads the clock: if either raises, the call raises the same
    and does nothing else.  Otherwise it reads the clock, and its deadline
    is [datetime.fromtimestamp] of that reading plus the timeout, a sum of
    floats; if the conversion raises, the call raises the same and does
    nothing more.  Otherwise no [poll_and_finalize] call of the run carries
    another deadline, and when the call returns, it returns the private key
    of the challenge with the chain that [poll_and_finalize] answered under
    that deadline. *)
Theorem request_certificate_deadline
    {P : Type} (provider : Provider P) (env : Env)
    (import_from_file : result unit)
    (new_challenge : list string -> result string)
    (fromtimestamp : Z -> result Z)
    (fuel : nat) (domains : list string) (timeout : Z)
    (w : World P) (r : outcome (string * string)) (w' : World P) :
  request_certificate provider env import_from_file new_challenge
    fromtimestamp fuel domains timeout w
  = (r, w') ->
  match import_from_file, new_challenge domains with
  | Raise e, _ => r = Raised e /\ w' = w
  | Ok _, Raise e => r = Raised e /\ w' = w
  | Ok _, Ok private_key =>
      let now := clock_reading env (clock_calls w) in
      match fromtimestamp (float_add now timeout) with
      | Raise e => r = Raised e /\ Spec.emits w w' [Clock now]
      | Ok deadline =>
          exists tr,
            Spec.emits w w' (Clock now :: tr)
            /\ Forall (eq (Some deadline)) (finalize_deadlines tr)
            /\ forall key chain,
                 r = Returned (key, chain) ->
                 key = private_key
                 /\ exists order,
                      acme_new_order env domains = Ok order
                      /\ acme_poll_and_finalize env order (Some deadline)
                         = Ok chain
      end
  end.
Proof.
  intros H. unfold request_certificate in H. unfold mbind at 1 in H.
  destruct import_from_file as [[]|e]; cbn [lift ret raise] in H;
    [|now injection H as <- <-].
  unfold mbind at 1 in H.
  destruct (new_challenge domains) as [private_key|e];
    cbn [lift ret raise] in H; [|now injection H as <- <-].
  cbv zeta. unfold mbind at 1 in H. cbn [clock] in H.
  set (now := clock_reading env (clock_calls w)) in *.
  set (w1 := log (Clock now) _) in *.
  unfold mbind at 1 in H.
  destruct (fromtimestamp (float_add now timeout)) as [deadline|e];
    cbn [lift ret raise] in H; [|now injection H as <- <-].
  unfold mbind in H.
  destruct (__call__ provider env fuel domains (Some deadline) w1)
    as [r0 w0] eqn:Ecall.
  assert (Hw : w' = w0) by (destruct r0; now injection H).
  subst w0.
  destruct (call_events _ _ _ _ _ _ _ _ Ecall)
    as (tr0 & tr1 & tr2 & tr3 & He & Hp0 & Hc1 & Hp2 & Hd3 & _).
  exists (tr0 ++ (tr1 ++ tr2) ++ tr3)%list. split; [|split].
  - unfold Spec.emits in *. rewrite He. subst w1. cbn [log trace].
    now rewrite <- app_assoc.
  - rewrite !finalize_deadlines_app.
    rewrite (proj2 (only_creations _ Hc1)), (proj2 (only_deletions _ Hd3)).
    simpl. rewrite app_nil_r. apply Forall_app. split.
    + apply carries_deadlines. eapply Forall_impl; [|exact Hp0].
      now intros e [].
    + apply carries_deadlines. eapply Forall_impl; [|exact Hp2].
      now intros e [].
  - intros key chain ->. destruct r0 as [chain'|e|]; try discriminate.
    cbn [ret] in H. injection H as <- <-. split; [reflexivity|].
    destruct (call_returned _ _ _ _ _ _ _ _ Ecall)
      as (order & Horder & Hpoll).
    now exists order.
Qed.

Lemma request_certificate_deadline_witness :
  exists tr,
    Spec.emits (init_world [])
      (snd (request_certificate (Scenario.provider_with 204)
              (Scenario.env_with 2 ["tok1"]) (Ok tt) (fun _ => Ok "KEY")
              (fun t => Ok t) 5 [Scenario.a_domain] 10 (init_world [])))
      (Clock 0 :: tr)
    /\ Forall (eq (Some 10)) (finalize_deadlines tr)
    /\ forall key chain,
         Returned ("KEY", "CERT") = Returned (key, chain) ->
         key = "KEY"
         /\ exists order,
              acme_new_order (Scenario.env_with 2 ["tok1"])
                [Scenario.a_domain] = Ok order
              /\ acme_poll_and_finalize (Scenario.env_with 2 ["tok1"]) order
                   (Some 10) = Ok chain.
Proof.
  apply (request_certificate_deadline (Scenario.provider_with 204)
           (Scenario.env_with 2 ["tok1"]) (Ok tt) (fun _ => Ok "KEY")
           (fun t => Ok t) 5 [Scenario.a_domain] 10
           (init_world []) (Returned ("KEY", "CERT"))).
  vm_compute. reflexivity.
Defined.

(** A list of domains that the construction of the challenge refuses: the
    call raises before the clock is read. *)
Example request_certificate_without_domains :
  request_certificate (Scenario.provider_with 204)
    (Scenario.env_with 2 ["tok1"]) (Ok tt)
    (fun domains =>
       match domains with
       | [] => Raise ValueError
       | _ => Ok "KEY"
       end)
    (fun t => Ok t) 5 [] 10 (init_world [])
  = (Raised ValueError, init_world []).
Proof. reflexivity. Qed.

(** ** The resolver adapter *)

Module DnsFacts.
Import DnsPython.

Lemma parents_no_dot (name : string) :
  PyStr.contains PyStr.dot name = false -> parents name = [].
Proof.
  induction name as [|a name IH]; simpl; [reflexivity|].
  destruct (Ascii.eqb a PyStr.dot); [discriminate|exact IH].
Qed.

Lemma candidates_no_dot (name : string) :
  PyStr.contains PyStr.dot name = false -> candidates name = [].
Proof.
  intros H. unfold candidates. rewrite (parents_no_dot _ H).
  simpl. now rewrite H.
Qed.

(** What follows the first dot of a name that has one: the first of its
    parents, and a shorter name. *)
Lemma split1_second_dot (name : string) :
  PyStr.contains PyStr.dot name = true ->
  exists parent,
    split1_second name = Ok parent
    /\ parents name = parent :: parents parent
    /\ (String.length parent < String.length name)%nat.
Proof.
  induction name as [|a name IH]; simpl; [discriminate|].
  destruct (Ascii.eqb a PyStr.dot).
  - intros _. exists name. repeat split. lia.
  - intros H. destruct (IH H) as (parent & Hs & Hp & Hl).
    exists parent. repeat split; [exact Hs|exact Hp|lia].
Qed.

Lemma candidates_dot (name parent : string) :
  PyStr.contains PyStr.dot name = true ->
  split1_second name = Ok parent ->
  candidates name = name :: candidates parent.
Proof.
  intros H Hs. destruct (split1_second_dot _ H) as (parent' & Hs' & Hp & _).
  assert (parent' = parent) by congruence. subst parent'.
  unfold candidates. rewrite Hp.
  change (filter (PyStr.contains PyStr.dot) (name :: parent :: parents parent))
    with (if PyStr.contains PyStr.dot name
          then name :: filter (PyStr.contains PyStr.dot)
                         (parent :: parents parent)
          else filter (PyStr.contains PyStr.dot) (parent :: parents parent)).
  now rewrite H.
Qed.

Lemma candidates_have_a_dot (name : string) :
  Forall (fun candidate => PyStr.contains PyStr.dot candidate = true)
         (candidates name).
Proof.
  unfold candidates. apply Forall_forall. intros x Hx.
  now apply filter_In in Hx.
Qed.

End DnsFacts.

Section ResolverLoop.
Import DnsPython DnsFacts.

Variable dns : list Query -> Query -> reply.
Variable rdtype : RecordType.

Lemma reply_at_first (queries : list Query) (name : string)
    (names : list string) :
  reply_at dns rdtype queries (name :: names) 0
  = Some (dns queries (name, rdtype)).
Proof. unfold reply_at. simpl. now rewrite app_nil_r. Qed.

Lemma reply_at_next (queries : list Query) (name : string)
    (names : list string) (i : nat) :
  reply_at dns rdtype queries (name :: names) (S i)
  = reply_at dns rdtype (queries ++ [(name, rdtype)]) names i.
Proof. unfold reply_at. simpl. now rewrite <- app_assoc. Qed.

(** The loop asks for the candidates of the name, in their order, one
    after the other, until one is answered or the library fails; it ends
    before the fuel does when the fuel exceeds the length of the name. *)
Lemma first_answer_run (fuel : nat) :
  forall (domain : string) (queries : list Query) r queries',
    (String.length domain < fuel)%nat ->
    first_answer dns fuel rdtype domain queries = (r, queries') ->
    exists k,
      (k <= List.length (candidates domain))%nat
      /\ queries'
         = (queries
            ++ map (fun name => (name, rdtype))
                 (firstn k (candidates domain)))%list
      /\ (forall i, (S i < k)%nat ->
            reply_at dns rdtype queries (candidates domain) i
            = Some DNSException)
      /\ match r with
         | Returned None =>
             k = List.length (candidates domain)
             /\ forall i, (i < k)%nat ->
                  reply_at dns rdtype queries (candidates domain) i
                  = Some DNSException
         | Returned (Some answer) =>
             exists j,
               k = S j
               /\ reply_at dns rdtype queries (candidates domain) j
                  = Some (Answered answer)
         | Raised e =>
             exists j,
               k = S j
               /\ reply_at dns rdtype queries (candidates domain) j
                  = Some (Failed e)
         | Running => False
         end.
Proof.
  induction fuel as [|fuel IH]; intros domain queries r queries' Hfuel H;
    [lia|].
  cbn [first_answer] in H.
  destruct (PyStr.contains PyStr.dot domain) eqn:Hdot.
  - destruct (split1_second_dot _ Hdot) as (parent & Hs & _ & Hl).
    rewrite (candidates_dot _ _ Hdot Hs).
    unfold library_resolve in H.
    destruct (dns queries (domain, rdtype)) as [answer| |e] eqn:Ed.
    + injection H as <- <-. exists 1%nat. simpl.
      split; [lia|]. split; [reflexivity|]. split; [intros i Hi; lia|].
      exists O. split; [reflexivity|]. rewrite reply_at_first. now f_equal.
    + unfold mbind in H. rewrite Hs in H. cbn [lift ret] in H.
      assert (Hp : (String.length parent < fuel)%nat) by lia.
      destruct (IH _ _ _ _ Hp H) as (k & Hk & Hq & Hearly & Hr).
      exists (S k). simpl. split; [lia|].
      split; [rewrite Hq; now rewrite <- app_assoc|].
      split.
      { intros [|i] Hi.
        - rewrite reply_at_first. now f_equal.
        - rewrite reply_at_next. apply Hearly. lia. }
      destruct r as [[answer|]|e|].
      * destruct Hr as (j & -> & Ha).
        exists (S j). split; [reflexivity|]. now rewrite reply_at_next.
      * destruct Hr as (-> & Hall). split; [reflexivity|].
        intros [|i] Hi.
        { rewrite reply_at_first. now f_equal. }
        { rewrite reply_at_next. apply Hall. lia. }
      * destruct Hr as (j & -> & Ha).
        exists (S j). split; [reflexivity|]. now rewrite reply_at_next.
      * exact Hr.
    + injection H as <- <-. exists 1%nat. simpl.
      split; [lia|]. split; [reflexivity|]. split; [intros i Hi; lia|].
      exists O. split; [reflexivity|]. rewrite reply_at_first. now f_equal.
  - injection H as <- <-. rewrite (candidates_no_dot _ Hdot).
    exists O. simpl. rewrite app_nil_r.
    split; [lia|]. split; [reflexivity|].
    split; [intros i Hi; lia|]. split; [reflexivity|intros i Hi; lia].
Qed.

(** When the library answers nothing, the loop asks for every candidate
    and ends without an answer. *)
Lemma first_answer_unanswered (fuel : nat) :
  (forall queries query, dns queries query = DNSException) ->
  forall (domain : string) (queries : list Query),
    (String.length domain < fuel)%nat ->
    first_answer dns fuel rdtype domain queries
    = (Returned None,
       (queries ++ map (fun name => (name, rdtype)) (candidates domain))%list).
Proof.
  intros Hdns.
  induction fuel as [|fuel IH]; intros domain queries Hfuel; [lia|].
  cbn [first_answer].
  destruct (PyStr.contains PyStr.dot domain) eqn:Hdot.
  - destruct (split1_second_dot _ Hdot) as (parent & Hs & _ & Hl).
    rewrite (candidates_dot _ _ Hdot Hs).
    unfold library_resolve. rewrite Hdns.
    unfold mbind. rewrite Hs. cbn [lift ret].
    rewrite IH by lia. simpl. now rewrite <- app_assoc.
  - rewrite (candidates_no_dot _ Hdot). simpl. now rewrite app_nil_r.
Qed.

(** The run of the loop, seen from the function that holds it. *)
Lemma nameservers_run (f : Rdata -> result string) (fuel : nat)
    (fqdn : string) (queries : list Query)
    (r : outcome (list string)) (queries' : list Query) :
  (String.length fqdn < fuel)%nat ->
  (let* answer := first_answer dns fuel rdtype fqdn in
   lift (names_of f answer)) queries = (r, queries') ->
  exists k,
    (k <= List.length (candidates fqdn))%nat
    /\ queries'
       = (queries
          ++ map (fun name => (name, rdtype))
               (firstn k (candidates fqdn)))%list
    /\ (forall i, (S i < k)%nat ->
          reply_at dns rdtype queries (candidates fqdn) i
          = Some DNSException)
    /\ ((k = List.length (candidates fqdn)
         /\ (forall i, (i < k)%nat ->
               reply_at dns rdtype queries (candidates fqdn) i
               = Some DNSException)
         /\ r = Returned [])
        \/ (exists j answer,
              k = S j
              /\ reply_at dns rdtype queries (candidates fqdn) j
                 = Some (Answered answer)
              /\ (r, queries') = lift (names_of f (Some answer)) queries')
        \/ (exists j e,
              k = S j
              /\ reply_at dns rdtype queries (candidates fqdn) j
                 = Some (Failed e)
              /\ r = Raised e)).
Proof.
  intros Hfuel H. unfold mbind in H.
  destruct (first_answer dns fuel rdtype fqdn queries) as [r0 q0] eqn:E0.
  destruct (first_answer_run fuel fqdn queries r0 q0 Hfuel E0)
    as (k & Hk & Hq & Hearly & Hr).
  assert (Hq0 : q0 = queries').
  { destruct r0 as [answer|e|]; [|now injection H|now injection H].
    destruct (names_of f answer); now injection H. }
  rewrite Hq0 in Hq, H.
  exists k. split; [exact Hk|]. split; [exact Hq|]. split; [exact Hearly|].
  destruct r0 as [[answer|]|e|].
  - right. left. destruct Hr as (j & -> & Ha).
    exists j, answer. split; [reflexivity|]. split; [exact Ha|].
    now rewrite H.
  - left. destruct Hr as (-> & Hall). split; [reflexivity|].
    split; [exact Hall|]. cbn in H. now injection H.
  - right. right. destruct Hr as (j & -> & Ha).
    exists j, e. split; [reflexivity|]. split; [exact Ha|].
    now injection H.
  - contradiction.
Qed.

End ResolverLoop.

(** X27. The NS and SOA queries of the resolver adapter climb the name:
    the library is asked for the name itself and then for what follows each
    of its dots, in that order and only for names that still have a dot
    (never for a bare top-level label).  Every query but the last ended in a
    [DNSException]; the run stops at the first query that is answered, whose
    records give the result, or that fails otherwise, whose exception is
    raised; when all queries ended in a [DNSException] the result is the
    empty list.  The loop ends: there are no more queries than the name has
    characters. *)
Theorem nameserver_queries_climb_the_name
    (dns : list DnsPython.Query -> DnsPython.Query -> DnsPython.reply)
    (fuel : nat) (fqdn : string) (record_type : RecordType)
    (queries : list DnsPython.Query)
    (r : outcome (list string)) (queries' : list DnsPython.Query) :
  record_type = NS \/ record_type = SOA ->
  (String.length fqdn < fuel)%nat ->
  DnsPython.resolve dns fuel fqdn record_type queries = (r, queries') ->
  Forall (fun name => PyStr.contains PyStr.dot name = true)
         (DnsPython.candidates fqdn)
  /\ (List.length (DnsPython.candidates fqdn) <= String.length fqdn)%nat
  /\ exists k,
       (k <= List.length (DnsPython.candidates fqdn))%nat
       /\ queries'
          = (queries
             ++ map (fun name => (name, record_type))
                  (firstn k (DnsPython.candidates fqdn)))%list
       /\ (forall i, (S i < k)%nat ->
             DnsPython.reply_at dns record_type queries
               (DnsPython.candidates fqdn) i
             = Some DnsPython.DNSException)
       /\ ((k = List.length (DnsPython.candidates fqdn)
            /\ (forall i, (i < k)%nat ->
                  DnsPython.reply_at dns record_type queries
                    (DnsPython.candidates fqdn) i
                  = Some DnsPython.DNSException)
            /\ r = Returned [])
           \/ (exists j answer,
                 k = S j
                 /\ DnsPython.reply_at dns record_type queries
                      (DnsPython.candidates fqdn) j
                    = Some (DnsPython.Answered answer)
                 /\ (r, queries')
                    = lift (DnsPython.names_of
                              match record_type with
                              | SOA => DnsPython.mname
                              | _ => DnsPython.target
                              end (Some answer)) queries')
           \/ (exists j e,
                 k = S j
                 /\ DnsPython.reply_at dns record_type queries
                      (DnsPython.candidates fqdn) j
                    = Some (DnsPython.Failed e)
                 /\ r = Raised e)).
Proof.
  intros Ht Hfuel H.
  split; [apply DnsFacts.candidates_have_a_dot|].
  split.
  { clear. remember (String.length fqdn) as n eqn:Hn.
    revert fqdn Hn. induction n as [n IHn] using lt_wf_ind. intros name Hn.
    destruct (PyStr.contains PyStr.dot name) eqn:Hdot.
    - destruct (DnsFacts.split1_second_dot _ Hdot) as (parent & Hs & _ & Hl).
      rewrite (DnsFacts.candidates_dot _ _ Hdot Hs). simpl.
      specialize (IHn (String.length parent) ltac:(lia) parent eq_refl). lia.
    - rewrite (DnsFacts.candidates_no_dot _ Hdot). simpl. lia. }
  destruct Ht as [-> | ->]; cbn [DnsPython.resolve] in H.
  - exact (nameservers_run dns NS _ fuel fqdn queries r queries' Hfuel H).
  - exact (nameservers_run dns SOA _ fuel fqdn queries r queries' Hfuel H).
Qed.

Lemma nameserver_queries_climb_the_name_witness :
  DnsPython.resolve DnsPython.example_zone 40 "_acme-challenge.www.example.com" NS []
  = (Returned ["ns1.example.com."],
     [("_acme-challenge.www.example.com", NS); ("www.example.com", NS);
      ("example.com", NS)])
  /\ exists k,
       [("_acme-challenge.www.example.com", NS); ("www.example.com", NS);
        ("example.com", NS)]
       = ([] ++ map (fun name => (name, NS))
                  (firstn k (DnsPython.candidates
                               "_acme-challenge.www.example.com")))%list.
Proof.
  split; [vm_compute; reflexivity|].
  destruct (nameserver_queries_climb_the_name DnsPython.example_zone 40
              "_acme-challenge.www.example.com" NS []
              (Returned ["ns1.example.com."])
              [("_acme-challenge.www.example.com", NS);
               ("www.example.com", NS); ("example.com", NS)])
    as (_ & _ & k & _ & Hq & _).
  - now left.
  - simpl. lia.
  - vm_compute. reflexivity.
  - exists k. exact Hq.
Defined.

(** X28. A name the library cannot resolve is reported as the empty list,
    never as an exception, whatever the record type: when every query ends
    in a [DNSException], [resolve] returns [[]], having asked once for the
    name (A, CNAME, TXT) or for each of its candidates (NS, SOA). *)
Theorem unresolvable_name_gives_the_empty_list
    (dns : list DnsPython.Query -> DnsPython.Query -> DnsPython.reply)
    (fuel : nat) (fqdn : string) (record_type : RecordType)
    (queries : list DnsPython.Query) :
  (forall queries query, dns queries query = DnsPython.DNSException) ->
  (String.length fqdn < fuel)%nat ->
  DnsPython.resolve dns fuel fqdn record_type queries
  = (Returned [],
     (queries
      ++ map (fun name => (name, record_type))
           match record_type with
           | NS | SOA => DnsPython.candidates fqdn
           | _ => [fqdn]
           end)%list).
Proof.
  intros Hdns Hfuel.
  destruct record_type; cbn [DnsPython.resolve];
    unfold DnsPython._resolve_ip_addresses, DnsPython._resolve_cname_targets,
      DnsPython._resolve_txt_records, DnsPython._resolve_nameservers,
      DnsPython._resolve_authorative_nameservers,
      DnsPython.library_resolve, mbind;
    try (rewrite Hdns; reflexivity);
    now rewrite (first_answer_unanswered dns _ fuel Hdns fqdn queries Hfuel).
Qed.

Lemma unresolvable_name_gives_the_empty_list_witness :
  DnsPython.resolve (fun _ _ => DnsPython.DNSException) 40
    "_acme-challenge.example.com" TXT []
  = (Returned [],
     ([] ++ map (fun name => (name, TXT)) ["_acme-challenge.example.com"])%list).
Proof.
  apply (unresolvable_name_gives_the_empty_list
           (fun _ _ => DnsPython.DNSException) 40
           "_acme-challenge.example.com" TXT []).
  - reflexivity.
  - simpl. lia.
Defined.
